(** * jmLightToolkit: a shallow embedding of the light toolkit and its host

    The toolkit (src/src/jmLightToolkit.py, release 2.0; the release 1.0 file
    src/jmLightToolkit.py has the same bodies for every function embedded
    here, up to [self.logger] against [logger]) is a sequence of calls into
    the scene-graph command layer of its host.  The host scene is the record
    [World]; every toolkit method is a computation in the monad [M], which
    threads the scene and carries Python exceptions.  *)

From stdpp Require Import gmap strings list fin_maps pretty.
From Stdlib Require Import QArith Ascii.
Local Close Scope Q_scope.


(** ** The host scene *)

(** A display layer node: its members, and the two attributes the toolkit
    sets ([visibility], [color]). *)
Record Layer := mkLayer {
  members : list string;
  visibility : Z;
  color : Z
}.

(** Undoable host commands, as the undo queue records them. *)
Inductive Cmd :=
| CmdSelect (nodes : list string)
| CmdSelectAdd (nodes : list string)
| CmdDelete (node : string)
| CmdCreateDisplayLayer (name : string)
| CmdAddMembers (container : string) (nodes : list string)
| CmdLayerSet (layer attr : string) (v : Z)
| CmdSetAttr (node attr : string) (v : Q)
| CmdConnect (src light : string) (index : nat)
| CmdDisconnect (src light : string) (index : nat)
| CmdCreateNode (type name : string)
| CmdSets (name : string)
| CmdSetsForceElement (set_ element : string)
| CmdMakeLightLinks (nodes : list string)
| CmdBreakLightLinks (nodes : list string)
| CmdLightlinkBreak (light : string) (objects : list string).

Inductive level := DEBUG | INFO | WARNING | ERROR.

(** Python exceptions the embedded code can raise. *)
Inductive exn :=
  IndexError | TypeError | AttributeError | KeyError | RuntimeError
  | UnboundLocalError | MayaNodeError.

Record World := mkWorld {
  (** node name to node type: [pm.objExists], [pm.nodeType], [pm.ls] *)
  nodes : gmap string string;
  (** [Transform.getShape()] *)
  shapes : gmap string string;
  (** [DagNode.getParent()], defined on the DAG nodes under a transform *)
  parents : gmap string string;
  (** [DagNode.getChildren(ad=True)]: all descendants *)
  hierarchy : gmap string (list string);
  (** [pm.selected()] *)
  selection : list string;
  (** display layers by name *)
  layers : gmap string Layer;
  (** attribute values by (node, attribute): ["<node>.<attribute>"] *)
  attrs : gmap (string * string) Q;
  (** [<light>.aiFilters[i]] to the filter node whose [message] feeds it *)
  aiFilters : gmap (string * nat) string;
  (** connections other than those into [aiFilters]: node to the nodes its
      outputs feed, and node to the nodes feeding its inputs *)
  otherOutputs : gmap string (list string);
  otherInputs : gmap string (list string);
  (** [ObjectSet.members(True)] of every objectSet node *)
  objectSets : gmap string (list string);
  (** [pm.lightlink(q=True, light=l)] *)
  lightlinks : gmap string (list string);
  (** undo state: nesting depth of open chunks, commands of the open chunk,
      and the finished undo steps, oldest first *)
  undoDepth : nat;
  undoOpen : list Cmd;
  undoQueue : list (list Cmd);
  (** records of the [logging] logger, oldest first *)
  log : list (level * string)
}.

Definition with_nodes (f : gmap string string → gmap string string) (w : World) : World :=
  mkWorld (f (nodes w)) (shapes w) (parents w) (hierarchy w) (selection w) (layers w)
    (attrs w) (aiFilters w) (otherOutputs w) (otherInputs w) (objectSets w) (lightlinks w)
    (undoDepth w) (undoOpen w) (undoQueue w) (log w).

Definition with_dag (fs fp : gmap string string → gmap string string)
    (fh : gmap string (list string) → gmap string (list string)) (w : World) : World :=
  mkWorld (nodes w) (fs (shapes w)) (fp (parents w)) (fh (hierarchy w)) (selection w) (layers w)
    (attrs w) (aiFilters w) (otherOutputs w) (otherInputs w) (objectSets w) (lightlinks w)
    (undoDepth w) (undoOpen w) (undoQueue w) (log w).

Definition with_selection (l : list string) (w : World) : World :=
  mkWorld (nodes w) (shapes w) (parents w) (hierarchy w) l (layers w)
    (attrs w) (aiFilters w) (otherOutputs w) (otherInputs w) (objectSets w) (lightlinks w)
    (undoDepth w) (undoOpen w) (undoQueue w) (log w).

Definition with_layers (f : gmap string Layer → gmap string Layer) (w : World) : World :=
  mkWorld (nodes w) (shapes w) (parents w) (hierarchy w) (selection w) (f (layers w))
    (attrs w) (aiFilters w) (otherOutputs w) (otherInputs w) (objectSets w) (lightlinks w)
    (undoDepth w) (undoOpen w) (undoQueue w) (log w).

Definition with_attrs (f : gmap (string * string) Q → gmap (string * string) Q) (w : World) : World :=
  mkWorld (nodes w) (shapes w) (parents w) (hierarchy w) (selection w) (layers w)
    (f (attrs w)) (aiFilters w) (otherOutputs w) (otherInputs w) (objectSets w) (lightlinks w)
    (undoDepth w) (undoOpen w) (undoQueue w) (log w).

Definition with_aiFilters (f : gmap (string * nat) string → gmap (string * nat) string)
    (w : World) : World :=
  mkWorld (nodes w) (shapes w) (parents w) (hierarchy w) (selection w) (layers w)
    (attrs w) (f (aiFilters w)) (otherOutputs w) (otherInputs w) (objectSets w) (lightlinks w)
    (undoDepth w) (undoOpen w) (undoQueue w) (log w).

Definition with_others (fo fi : gmap string (list string) → gmap string (list string))
    (w : World) : World :=
  mkWorld (nodes w) (shapes w) (parents w) (hierarchy w) (selection w) (layers w)
    (attrs w) (aiFilters w) (fo (otherOutputs w)) (fi (otherInputs w)) (objectSets w)
    (lightlinks w) (undoDepth w) (undoOpen w) (undoQueue w) (log w).

Definition with_objectSets (f : gmap string (list string) → gmap string (list string))
    (w : World) : World :=
  mkWorld (nodes w) (shapes w) (parents w) (hierarchy w) (selection w) (layers w)
    (attrs w) (aiFilters w) (otherOutputs w) (otherInputs w) (f (objectSets w)) (lightlinks w)
    (undoDepth w) (undoOpen w) (undoQueue w) (log w).

Definition with_lightlinks (f : gmap string (list string) → gmap string (list string))
    (w : World) : World :=
  mkWorld (nodes w) (shapes w) (parents w) (hierarchy w) (selection w) (layers w)
    (attrs w) (aiFilters w) (otherOutputs w) (otherInputs w) (objectSets w) (f (lightlinks w))
    (undoDepth w) (undoOpen w) (undoQueue w) (log w).

Definition with_undo (d : nat) (o : list Cmd) (q : list (list Cmd)) (w : World) : World :=
  mkWorld (nodes w) (shapes w) (parents w) (hierarchy w) (selection w) (layers w)
    (attrs w) (aiFilters w) (otherOutputs w) (otherInputs w) (objectSets w) (lightlinks w)
    d o q (log w).

Definition with_log (f : list (level * string) → list (level * string)) (w : World) : World :=
  mkWorld (nodes w) (shapes w) (parents w) (hierarchy w) (selection w) (layers w)
    (attrs w) (aiFilters w) (otherOutputs w) (otherInputs w) (objectSets w) (lightlinks w)
    (undoDepth w) (undoOpen w) (undoQueue w) (f (log w)).

(** The scene with no node at all. *)
Definition empty_world : World :=
  mkWorld ∅ ∅ ∅ ∅ [] ∅ ∅ ∅ ∅ ∅ ∅ ∅ 0 [] [] [].

(** ** The monad of toolkit computations *)

Inductive outcome (A : Type) :=
| Return (a : A)
| Raise (e : exn).
Arguments Return {A} a.
Arguments Raise {A} e.

Definition M (A : Type) : Type := World → outcome A * World.

Definition ret {A} (a : A) : M A := λ w, (Return a, w).
Definition raise {A} (e : exn) : M A := λ w, (Raise e, w).
Definition bind {A B} (m : M A) (k : A → M B) : M B :=
  λ w, match m w with
       | (Return a, w') => k a w'
       | (Raise e, w') => (Raise e, w')
       end.

Declare Scope py_scope.
Delimit Scope py_scope with py.
Notation "x <- m ;; k" := (bind m (λ x, k))
  (at level 100, m at next level, right associativity) : py_scope.
Notation "m ;;; k" := (bind m (λ _, k))
  (at level 100, right associativity) : py_scope.
Local Open Scope py_scope.

(** [try: body finally: fin]: [fin] runs whether [body] returns or raises;
    an exception of [fin] replaces the outcome of [body]. *)
Definition try_finally {A} (body : M A) (fin : M unit) : M A :=
  λ w, let '(r, w1) := body w in
       match fin w1 with
       | (Return _, w2) => (r, w2)
       | (Raise e, w2) => (Raise e, w2)
       end.

(** [for x in l: body x], for a list that the body does not mutate. *)
Fixpoint for_each {A} (l : list A) (body : A → M unit) : M unit :=
  match l with
  | [] => ret tt
  | x :: l' => body x ;;; for_each l' body
  end.

Definition get_world : M World := λ w, (Return w, w).
Definition modify (f : World → World) : M unit := λ w, (Return tt, f w).

(** ** Host commands *)

(** Python's [str(list)] for the log messages, without the quotes Python
    puts around each name. *)
Definition show_list (l : list string) : string :=
  "[" +:+ String.concat ", " l +:+ "]".

Definition logger (lv : level) (msg : string) : M unit :=
  modify (with_log (λ l, l ++ [(lv, msg)])).

(** An undoable command joins the open chunk, or is an undo step of its own
    when no chunk is open. *)
Definition record (c : Cmd) : M unit :=
  modify (λ w, match undoDepth w with
               | O => with_undo 0 (undoOpen w) (undoQueue w ++ [[c]]) w
               | S _ => with_undo (undoDepth w) (undoOpen w ++ [c]) (undoQueue w) w
               end).

(** [pm.undoInfo(openChunk=True)] *)
Definition undoInfo_openChunk : M unit :=
  modify (λ w, with_undo (S (undoDepth w)) (undoOpen w) (undoQueue w) w).

(** [pm.undoInfo(closeChunk=True)]: closing the outermost chunk turns the
    commands gathered since it was opened into one undo step. *)
Definition undoInfo_closeChunk : M unit :=
  modify (λ w, match undoDepth w with
               | O => w
               | S O => with_undo 0 [] (undoQueue w ++ [undoOpen w]) w
               | S d => with_undo d (undoOpen w) (undoQueue w) w
               end).

Definition objExists (w : World) (n : string) : bool :=
  bool_decide (is_Some (nodes w !! n)).

Definition nodeType (w : World) (n : string) : string :=
  default "" (nodes w !! n).

(** [pm.ls(type=t)] *)
Definition ls (w : World) (t : string) : list string :=
  (map_to_list (filter (λ kv, kv.2 = t) (nodes w))).*1.

Definition getShape (w : World) (n : string) : option string := shapes w !! n.

Definition getChildren_ad (w : World) (n : string) : list string :=
  default [] (hierarchy w !! n).

(** [node.getParent()] as the toolkit uses it, on nodes that are not
    transforms: the parent of a DAG node, [AttributeError] on a node that
    is not in the DAG. *)
Definition getParent (n : string) : M string :=
  λ w, match parents w !! n with
       | Some p => (Return p, w)
       | None => (Raise AttributeError, w)
       end.

Definition pm_selected : M (list string) := λ w, (Return (selection w), w).

(** [pm.select(l)]; PyMEL clears the selection on an empty list. *)
Definition pm_select (l : list string) : M unit :=
  record (CmdSelect l) ;;; modify (with_selection l).

(** [pm.select(l, add=True)] *)
Definition pm_select_add (l : list string) : M unit :=
  record (CmdSelectAdd l) ;;;
  modify (λ w, with_selection (selection w ++ list_difference l (selection w)) w).

(** ** The toolkit object *)

Record Toolkit := mkToolkit {
  (** [pm.pluginInfo("mtoa", q=True, loaded=True)] when the panel was built *)
  mtoa_loaded : bool;
  (** [pushButton_soloLights_hierarchy.isChecked()] *)
  hierarchy_isChecked : bool;
  (** [comboBox_multiAttr.currentText()] *)
  comboBox_multiAttr : string;
  (** [doubleSpinBox_multiAttr.value()] *)
  doubleSpinBox_multiAttr : Q
}.

Definition displayed_layer_name : string := "displayedLights".
Definition muted_layer_name : string := "mutedLights".

Definition lgt_types_default : list string :=
  ["pointLight"; "spotLight"; "areaLight"; "directionalLight"; "volumeLight"].

Definition lgt_types_arnold : list string :=
  ["aiAreaLight"; "aiMeshLight"; "aiPhotometricLight"; "aiSkyDomeLight"].

Definition lgt_attrs_default : list string :=
  ["coneAngle"; "penumbraAngle"; "transmission"; "dropoff"; "decayRate";
   "emitDiffuse"; "emitSpecular"; "intensity"; "shadowColor"; "fogSpread";
   "fogIntensity"; "camera"; "format"; "portalMode"; "color"].

Definition lgt_attrs_arnold : list string :=
  ["aiExposure"; "aiSamples"; "aiUseColorTemperature"; "aiColorTemperature";
   "aiRadius"; "aiAngle"; "aiSpread"; "aiDiffuse"; "aiSpecular"; "aiSss";
   "aiIndirect"; "aiVolume"; "aiMaxBounces"; "aiNormalize"; "aiRoundness";
   "aiCastShadows"; "aiShadowDensity"; "aiAspectRatio"; "aiLensRadius";
   "aiVolumeSamples"; "aiCastVolumetricShadows"; "aiNormalize";
   "aiShadowColor"; "aiShadowDensity"].

Definition transform_attrs : list string :=
  ["translateX"; "translateY"; "translateZ"; "rotateX"; "rotateY"; "rotateZ";
   "scaleX"; "scaleY"; "scaleZ"].

(** The Arnold lists are cleared when MtoA is not loaded. *)
Definition lgt_types (self : Toolkit) : list string :=
  lgt_types_default ++ (if mtoa_loaded self then lgt_types_arnold else []).

Definition lgt_attrs (self : Toolkit) : list string :=
  lgt_attrs_default ++ (if mtoa_loaded self then lgt_attrs_arnold else []).

(** ** The selection classifier *)

(** The nodes the classifier looks at: the selection, or with [all_hierachy]
    every descendant of a selected node that is not a transform. *)
Definition candidates (all_hierachy : bool) (w : World) : list string :=
  if all_hierachy then
    flat_map (λ node, filter (λ nde, nodeType w nde ≠ "transform") (getChildren_ad w node))
             (selection w)
  else selection w.

(** One turn of the loop over [selection]: the light shape the node stands
    for, if any. *)
Definition light_shape (self : Toolkit) (w : World) (node : string) : option string :=
  if decide (nodeType w node = "transform") then
    match getShape w node with
    | None => None
    | Some shape => if decide (nodeType w shape ∈ lgt_types self) then Some shape else None
    end
  else if decide (nodeType w node ∈ lgt_types self) then Some node else None.

(** [[shape.getParent() for shape in lights]] *)
Fixpoint getParents (lights : list string) : M (list string) :=
  match lights with
  | [] => ret []
  | shape :: rest =>
      p <- getParent shape ;;
      ps <- getParents rest ;;
      ret (p :: ps)
  end.

Definition _onlyLightsFromSelection (self : Toolkit) (get_shapes all_hierachy : bool)
    : M (option (list string)) :=
  w <- get_world ;;
  let selection := candidates all_hierachy w in
  let lights := omap (light_shape self w) selection in
  if decide (lights = []) then
    logger WARNING "No lights selected" ;;;
    ret None
  else
    lights <- (if get_shapes then ret lights else getParents lights) ;;
    logger DEBUG ("_onlyLightsFromSelection : " +:+ show_list lights) ;;;
    ret (Some lights).

(** [_getAllLights] *)
Definition _getAllLights (self : Toolkit) (get_shapes : bool) : M (option (list string)) :=
  w <- get_world ;;
  let lights := flat_map (ls w) (lgt_types self) in
  if decide (lights = []) then
    logger WARNING "No lights in scene" ;;;
    ret None
  else
    lights <- (if get_shapes then ret lights else getParents lights) ;;
    logger DEBUG ("_getAllLights : " +:+ show_list lights) ;;;
    ret (Some lights).

(** ** Decorators *)

(** [_wrapperUndoChunck]: the wrapper opens a chunk, calls the function and
    closes the chunk in the [finally] clause.  It has no [return]: whatever
    the function returns, the wrapper returns [None]. *)
Definition _wrapperUndoChunck {A B} (function : M A) : M (option B) :=
  try_finally (undoInfo_openChunk ;;; _ <- function ;; ret tt) undoInfo_closeChunk ;;;
  ret None.

(** [_wrapperSelected]: the selection read before the call is put back in
    the [finally] clause; this wrapper returns [None] as well. *)
Definition _wrapperSelected {A B} (function : M A) : M (option B) :=
  selected <- pm_selected ;;
  try_finally (_ <- function ;; ret tt) (pm_select selected) ;;;
  ret None.

(** ** Display layers *)

(** The name the host gives a new node: the name asked for when it is free,
    else the first free one among [name1], [name2], ... *)
Fixpoint next_free (fuel k : nat) (taken : gmap string string) (name : string) : string :=
  match fuel with
  | O => name +:+ pretty k
  | S fuel' =>
      if decide (is_Some (taken !! (name +:+ pretty k)))
      then next_free fuel' (S k) taken name
      else name +:+ pretty k
  end.

Definition unique_name (w : World) (name : string) : string :=
  if objExists w name then next_free (size (nodes w)) 1 (nodes w) name else name.

(** [pm.createDisplayLayer(n=name)]: the new layer holds the selected
    objects, which is why the toolkit clears the selection first. *)
Definition createDisplayLayer (name : string) : M string :=
  w <- get_world ;;
  let name' := unique_name w name in
  record (CmdCreateDisplayLayer name') ;;;
  modify (with_nodes (insert name' "displayLayer")) ;;;
  modify (with_layers (insert name' (mkLayer (selection w) 1 0))) ;;;
  ret name'.

(** [layer.addMembers(l)] *)
Definition addMembers (layer : string) (l : list string) : M unit :=
  w <- get_world ;;
  match layers w !! layer with
  | None => raise AttributeError
  | Some _ =>
      record (CmdAddMembers layer l) ;;;
      modify (with_layers
                (alter (λ y, mkLayer (members y ++ l) (visibility y) (color y)) layer))
  end.

(** [layer.color.set(v)] and [layer.visibility.set(v)] *)
Definition color_set (layer : string) (v : Z) : M unit :=
  record (CmdLayerSet layer "color" v) ;;;
  modify (with_layers (alter (λ y, mkLayer (members y) (visibility y) v) layer)).

Definition visibility_set (layer : string) (v : Z) : M unit :=
  record (CmdLayerSet layer "visibility" v) ;;;
  modify (with_layers (alter (λ y, mkLayer (members y) v (color y)) layer)).

(** [pm.delete(n)]: the node goes with its descendants, its attributes and
    the connections it takes part in. *)
Definition pm_delete (n : string) : M unit :=
  w <- get_world ;;
  if objExists w n then
    let doomed := n :: getChildren_ad w n in
    record (CmdDelete n) ;;;
    modify (with_nodes (filter (λ kv, kv.1 ∉ doomed))) ;;;
    modify (with_dag (filter (λ kv, kv.1 ∉ doomed)) (filter (λ kv, kv.1 ∉ doomed))
                     (filter (λ kv, kv.1 ∉ doomed))) ;;;
    modify (with_layers (filter (λ kv, kv.1 ∉ doomed))) ;;;
    modify (with_attrs (filter (λ kv, kv.1.1 ∉ doomed))) ;;;
    modify (with_aiFilters (filter (λ kv, (kv.1.1 ∉ doomed) ∧ (kv.2 ∉ doomed)))) ;;;
    modify (λ w', with_selection (filter (λ x, x ∉ doomed) (selection w')) w')
  else raise MayaNodeError.

(** [pm.select(clear=True)] *)
Definition pm_select_clear : M unit := pm_select [].

(** [restoreLights], the function under its decorator.  (The calls to
    [__soloMuteLightsCSS] only restyle two buttons and are left out.) *)
Definition restoreLights_body (self : Toolkit) : M bool :=
  w <- get_world ;;
  d <- (if objExists w displayed_layer_name
        then pm_delete displayed_layer_name ;;; ret true else ret false) ;;
  w <- get_world ;;
  something_deleted <- (if objExists w muted_layer_name
        then pm_delete muted_layer_name ;;; ret true else ret d) ;;
  if something_deleted : bool then
    logger INFO "Lights visibilities restored." ;;;
    ret true
  else ret false.

Definition restoreLights (self : Toolkit) : M (option bool) :=
  _wrapperUndoChunck (restoreLights_body self).

Definition soloLights_body (self : Toolkit) : M (option (list string)) :=
  restoreLights self ;;;
  let is_hierarchy := hierarchy_isChecked self in
  displayed <- _onlyLightsFromSelection self false is_hierarchy ;;
  match displayed with
  | None | Some [] => ret None
  | Some displayed =>
      all_lights <- _getAllLights self false ;;
      muted <- match all_lights with
               | None => raise TypeError
               | Some all_lights =>
                   ret (elements ((list_to_set all_lights : gset string)
                                    ∖ list_to_set displayed))
               end ;;
      pm_select_clear ;;;
      muted_layer <- createDisplayLayer muted_layer_name ;;
      addMembers muted_layer muted ;;;
      color_set muted_layer 21 ;;;
      visibility_set muted_layer 0 ;;;
      displayed_layer <- createDisplayLayer displayed_layer_name ;;
      addMembers displayed_layer displayed ;;;
      color_set displayed_layer 22 ;;;
      logger INFO ("Lights displayed : " +:+ show_list displayed) ;;;
      ret (Some displayed)
  end.

Definition soloLights (self : Toolkit) : M (option (list string)) :=
  _wrapperUndoChunck (_wrapperSelected (B := list string) (soloLights_body self)).

Definition muteLights_body (self : Toolkit) : M (option (list string)) :=
  let is_hierarchy := hierarchy_isChecked self in
  lights <- _onlyLightsFromSelection self false is_hierarchy ;;
  match lights with
  | None | Some [] => ret None
  | Some lights =>
      w <- get_world ;;
      (if objExists w muted_layer_name then
         addMembers muted_layer_name lights
       else
         pm_select_clear ;;;
         muted_layer <- createDisplayLayer muted_layer_name ;;
         addMembers muted_layer lights ;;;
         color_set muted_layer 21 ;;;
         visibility_set muted_layer 0) ;;;
      logger INFO ("Lights muted : " +:+ show_list lights) ;;;
      ret (Some lights)
  end.

Definition muteLights (self : Toolkit) : M (option (list string)) :=
  _wrapperUndoChunck (_wrapperSelected (B := list string) (muteLights_body self)).

(** ** The attribute batch editor *)

(** [pm.objExists("%s.%s" % (node, attr))] *)
Definition attrExists (w : World) (node attr : string) : bool :=
  bool_decide (is_Some (attrs w !! (node, attr))).

(** [pm.getAttr("%s.%s" % (node, attr))] *)
Definition getAttr (node attr : string) : M Q :=
  λ w, match attrs w !! (node, attr) with
       | Some v => (Return v, w)
       | None => (Raise AttributeError, w)
       end.

(** [pm.setAttr("%s.%s" % (node, attr), v)] *)
Definition setAttr (node attr : string) (v : Q) : M unit :=
  w <- get_world ;;
  if attrExists w node attr then
    record (CmdSetAttr node attr v) ;;;
    modify (with_attrs (insert (node, attr) v))
  else raise AttributeError.

(** The body both loops of [setMultiAttributesLights] run on a node. *)
Definition set_or_increment (mode node attr_ : string) (value : Q) : M unit :=
  w <- get_world ;;
  if attrExists w node attr_ then
    if decide (mode = "absolute") then
      setAttr node attr_ value
    else if decide (mode = "relative") then
      current_value <- getAttr node attr_ ;;
      setAttr node attr_ (value + current_value)%Q
    else ret tt
  else
    logger WARNING (node +:+ "." +:+ attr_ +:+ " doesn't exist").

Definition setMultiAttributesLights_body (self : Toolkit) (mode : string)
    : M (option (list string * string * Q)) :=
  if decide (mode ∈ ["absolute"; "relative"]) then
    lights <- _onlyLightsFromSelection self true false ;;
    match lights with
    | None | Some [] => ret None
    | Some lights =>
        let attr_ := comboBox_multiAttr self in
        let value := doubleSpinBox_multiAttr self in
        (if decide (attr_ ∈ lgt_attrs self) then
           for_each lights (λ light, set_or_increment mode light attr_ value)
         else
           selected <- pm_selected ;;
           for_each selected (λ selected,
             w <- get_world ;;
             selected <- (if decide (nodeType w selected ≠ "transform")
                          then getParent selected else ret selected) ;;
             set_or_increment mode selected attr_ value)) ;;;
        logger INFO "'Multi set attributes' success" ;;;
        ret (Some (lights, attr_, value))
    end
  else
    logger ERROR "Choose either 'absolute' for new value or 'relative' for increment value." ;;;
    ret None.

Definition setMultiAttributesLights (self : Toolkit) (mode : string)
    : M (option (list string * string * Q)) :=
  _wrapperUndoChunck (setMultiAttributesLights_body self mode).

(** ** Light filters *)

(** [node.outputs()]: the nodes fed by the node. *)
Definition outputs (w : World) (n : string) : list string :=
  (map_to_list (filter (λ kv, kv.2 = n) (aiFilters w))).*1.*1
  ++ default [] (otherOutputs w !! n).

(** [node.inputs()]: the nodes feeding the node. *)
Definition inputs (w : World) (n : string) : list string :=
  (map_to_list (filter (λ kv, kv.1.1 = n) (aiFilters w))).*2
  ++ default [] (otherInputs w !! n).

(** [pm.connectionInfo("%s.aiFilters[%s]" % (light, i), id=True)] *)
Definition isDestination (w : World) (light : string) (i : nat) : bool :=
  bool_decide (is_Some (aiFilters w !! (light, i))).

(** [pm.connectionInfo("%s.aiFilters[%s]" % (light, i), sfd=True)] followed
    by [pm.PyNode]: the source node, and an error on the empty string the
    host answers for a plug with no input. *)
Definition sourceFromDestination (light : string) (i : nat) : M string :=
  λ w, match aiFilters w !! (light, i) with
       | Some src => (Return src, w)
       | None => (Raise MayaNodeError, w)
       end.

(** [pm.connectionInfo("%s.message" % f, dfs=True)] restricted to the plugs
    with ["aiFilters"] in their name: the plug ["<light>.aiFilters[<i>]"] is
    the pair [(light, i)], which is what [split(".")[0]] and the regular
    expression read back from it. *)
Definition destinationFromSource (w : World) (f : string) : list (string * nat) :=
  (map_to_list (filter (λ kv, kv.2 = f) (aiFilters w))).*1.

(** [src.message >> light.aiFilters[i]] *)
Definition connect (src light : string) (i : nat) : M unit :=
  record (CmdConnect src light i) ;;;
  modify (with_aiFilters (insert (light, i) src)).

(** [src.message // light.aiFilters[i]]: an error when there is no such
    connection. *)
Definition disconnect (src light : string) (i : nat) : M unit :=
  w <- get_world ;;
  if decide (aiFilters w !! (light, i) = Some src) then
    record (CmdDisconnect src light i) ;;;
    modify (with_aiFilters (delete (light, i)))
  else raise RuntimeError.

(** [pm.createNode(type)] *)
Definition createNode (type : string) : M string :=
  w <- get_world ;;
  let name := next_free (size (nodes w)) 1 (nodes w) type in
  record (CmdCreateNode type name) ;;;
  modify (with_nodes (insert name type)) ;;;
  ret name.

(** Python values stored in the dict of [getUnusedLightFilters]. *)
Inductive pyval :=
| PyList (l : list string)
| PyStr (s : string).

(** [[x for x in l if p(x)]] for a test that asks the host. *)
Fixpoint filterM (p : string → M bool) (l : list string) : M (list string) :=
  match l with
  | [] => ret []
  | x :: l' =>
      b <- p x ;;
      r <- filterM p l' ;;
      ret (if b : bool then x :: r else r)
  end.

(** Python's [not v] on a number. *)
Definition py_not (v : Q) : bool := Qeq_bool v 0.

Definition getUnusedLightFilters (self : Toolkit) (ai_filter : string)
    : M (option (gmap string pyval)) :=
  if decide (ai_filter ∈ ["aiLightDecay"; "aiLightBlocker"]) then
    w <- get_world ;;
    let all_lightfilters := ls w ai_filter in
    if decide (all_lightfilters = []) then
      logger WARNING ("No " +:+ ai_filter +:+ " found") ;;;
      ret None
    else
      let disconnected_filters :=
        filter (λ lightfilter, outputs w lightfilter = []) all_lightfilters in
      let connected_filters :=
        filter (λ lightfilter, outputs w lightfilter ≠ []) all_lightfilters in
      blockers <- (if decide (ai_filter = "aiLightBlocker") then
                     filterM (λ blocker, d <- getAttr blocker "density" ;; ret (py_not d))
                             connected_filters
                   else ret []) ;;
      decays <- (if decide (ai_filter = "aiLightDecay") then
                   filterM (λ decay,
                              near <- getAttr decay "useNearAtten" ;;
                              if py_not near then
                                far <- getAttr decay "useFarAtten" ;; ret (py_not far)
                              else ret false)
                           connected_filters
                 else ret []) ;;
      let null_filters := blockers ++ decays in
      if decide (disconnected_filters = [] ∧ null_filters = []) then
        logger INFO "All filters is used." ;;;
        ret None
      else
        ret (Some (<["disconnected" := PyList disconnected_filters]>
                   (<["null" := PyList null_filters]>
                    (<["type" := PyStr ai_filter]> ∅))))
  else
    logger ERROR "'aiLightDecay' or 'aiLightBlocker'" ;;;
    ret None.

(** [lightfilters[key]] on the dict, read as a list. *)
Definition dict_list (d : gmap string pyval) (key : string) : M (list string) :=
  match d !! key with
  | Some (PyList l) => ret l
  | Some (PyStr _) => raise TypeError
  | None => raise KeyError
  end.

(** [len(pm.PyNode("%s.aiFilters" % light).inputs())] *)
Definition num_filter (w : World) (light : string) : nat :=
  size (filter (λ kv, kv.1.1 = light) (aiFilters w)).

(** The [while (i < num_filter)] loop of [deleteSafelyLightFilter];
    [remaining] is [num_filter - i]. *)
Fixpoint shift_filters (remaining i : nat) (lightfilter light_node : string) (index : nat)
    : M unit :=
  match remaining with
  | O => ret tt
  | S remaining' =>
      (if decide (i = index) then disconnect lightfilter light_node i else ret tt) ;;;
      (if decide (index < i)%nat then
         other_filter <- sourceFromDestination light_node i ;;
         disconnect other_filter light_node i ;;;
         connect other_filter light_node (i - 1)
       else ret tt) ;;;
      shift_filters remaining' (S i) lightfilter light_node index
  end.

(** The body of the loop over the plugs a null filter feeds. *)
Definition detach_filter (lightfilter : string) (plug : string * nat) : M unit :=
  w <- get_world ;;
  let light_node := plug.1 in
  let index := plug.2 in
  shift_filters (num_filter w light_node) 0 lightfilter light_node index.

(** [try: pm.delete(f.getParent()) except AttributeError: pm.delete(f)] for
    a filter that still exists. *)
Definition delete_filter (lightfilter : string) : M unit :=
  w <- get_world ;;
  if objExists w lightfilter then
    match parents w !! lightfilter with
    | Some transform => pm_delete transform
    | None => pm_delete lightfilter
    end
  else ret tt.

Definition deleteSafelyLightFilter_body (self : Toolkit) (ai_filter : string)
    : M (option (list string)) :=
  if decide (ai_filter ∈ ["aiLightDecay"; "aiLightBlocker"]) then
    lightfilters <- getUnusedLightFilters self ai_filter ;;
    match lightfilters with
    | None => ret None
    | Some lightfilters =>
        null <- dict_list lightfilters "null" ;;
        for_each null (λ lightfilter,
          w <- get_world ;;
          let lights := destinationFromSource w lightfilter in
          for_each lights (detach_filter lightfilter)) ;;;
        disconnected <- dict_list lightfilters "disconnected" ;;
        null <- dict_list lightfilters "null" ;;
        let deleted_filters := disconnected ++ null in
        for_each deleted_filters delete_filter ;;;
        logger INFO ("Safely deleted " +:+ ai_filter +:+ " : " +:+ show_list deleted_filters) ;;;
        ret (Some deleted_filters)
    end
  else
    logger ERROR "'aiLightDecay' or 'aiLightBlocker'" ;;;
    ret None.

Definition deleteSafelyLightFilter (self : Toolkit) (ai_filter : string)
    : M (option (list string)) :=
  _wrapperUndoChunck (deleteSafelyLightFilter_body self ai_filter).

(** The scan [i = 0; while connectionInfo(aiFilters[i], id=True): i += 1] of
    [linkLightFilterToLights].  [fuel] bounds the number of turns; one more
    than the number of connections of the scene is enough
    ([first_free_index_free], [first_free_index_least]). *)
Fixpoint first_free_index (fuel i : nat) (w : World) (lgt : string) : nat :=
  match fuel with
  | O => i
  | S fuel' => if isDestination w lgt i then first_free_index fuel' (S i) w lgt else i
  end.

(** The body of the loop over [lights_selected]. *)
Definition link_filter (filtr transform_filter lgt : string) : M unit :=
  w <- get_world ;;
  if decide ((filtr ∉ inputs w lgt) ∧ (transform_filter ∉ inputs w lgt)) then
    let i := first_free_index (S (size (aiFilters w))) 0 w lgt in
    connect filtr lgt i
  else ret tt.

(** The loop that sorts the selection into lights and filters.
    [selected.getShape().name()] fails on a transform with no shape. *)
Fixpoint sort_selection (self : Toolkit) (w : World) (filter_ : string) (sel : list string)
    (lights_selected filter_selected : list string)
    : outcome (list string * list string) :=
  match sel with
  | [] => Return (lights_selected, filter_selected)
  | selected :: sel' =>
      if decide (nodeType w selected = "transform") then
        match getShape w selected with
        | None => Raise AttributeError
        | Some shape =>
            if decide (nodeType w shape ∈ lgt_types self) then
              sort_selection self w filter_ sel' (lights_selected ++ [shape]) filter_selected
            else if decide (nodeType w shape = filter_) then
              sort_selection self w filter_ sel' lights_selected (filter_selected ++ [shape])
            else sort_selection self w filter_ sel' lights_selected filter_selected
        end
      else
        if decide (nodeType w selected ∈ lgt_types self) then
          sort_selection self w filter_ sel' (lights_selected ++ [selected]) filter_selected
        else if decide (nodeType w selected = filter_) then
          sort_selection self w filter_ sel' lights_selected (filter_selected ++ [selected])
        else sort_selection self w filter_ sel' lights_selected filter_selected
  end.

Definition linkLightFilterToLights_body (self : Toolkit) (filter_ : string)
    : M (option (list string)) :=
  if decide (filter_ ∈ ["aiLightDecay"; "aiLightBlocker"; "aiGobo"]) then
    w <- get_world ;;
    match sort_selection self w filter_ (selection w) [] [] with
    | Raise e => raise e
    | Return ([], _) =>
        logger WARNING "No lights found." ;;;
        ret None
    | Return (lights_selected, filter_selected) =>
        filter_selected <- (if decide (filter_selected = []) then
                              f <- createNode filter_ ;; ret [f]
                            else ret filter_selected) ;;
        for_each filter_selected (λ filtr,
          w <- get_world ;;
          let transform_filter := default filtr (parents w !! filtr) in
          for_each lights_selected (link_filter filtr transform_filter)) ;;;
        logger INFO ("filter : " +:+ show_list filter_selected +:+ " ") ;;;
        ret (Some filter_selected)
    end
  else
    logger ERROR "'aiLightBlocker', 'aiLightDecay', 'aiGobo'" ;;;
    ret None.

Definition linkLightFilterToLights (self : Toolkit) (filter_ : string)
    : M (option (list string)) :=
  _wrapperUndoChunck (linkLightFilterToLights_body self filter_).

(** ** Light linking and sets *)

(** [node.members(True)] *)
Definition set_members (w : World) (node : string) : list string :=
  default [] (objectSets w !! node).

(** [list.remove(x)]: the first occurrence goes. *)
Fixpoint list_remove_first (x : string) (l : list string) : list string :=
  match l with
  | [] => []
  | y :: l' => if decide (x = y) then l' else y :: list_remove_first x l'
  end.

(** The loop
    [for node in selected: if objectSet: set_children.extend(..); selected.remove(node)]
    as Python runs it: the list iterator holds an index [i] into the list
    object, which the body shrinks under it.  Every turn advances [i], so
    [length selected] turns of [fuel] are enough ([expand_sets_fuel]). *)
Fixpoint expand_sets (fuel i : nat) (w : World) (selected set_children : list string)
    : list string * list string :=
  match fuel with
  | O => (selected, set_children)
  | S fuel' =>
      match selected !! i with
      | None => (selected, set_children)
      | Some node =>
          if decide (nodeType w node = "objectSet") then
            expand_sets fuel' (S i) w (list_remove_first node selected)
                        (set_children ++ set_members w node)
          else expand_sets fuel' (S i) w selected set_children
      end
  end.

(** The part [makeLightLinks] and [breakLightLinks] share: the selection
    handed to the host command. *)
Definition select_for_links : M unit :=
  selected <- pm_selected ;;
  w <- get_world ;;
  let '(selected, set_children) := expand_sets (length selected) 0 w selected [] in
  pm_select selected ;;;
  pm_select_add set_children.

(** [pm.cmds.MakeLightLinks()] and [pm.cmds.BreakLightLinks()] act on the
    selection; the scene records the node list they were run on. *)
Definition MakeLightLinks : M unit :=
  w <- get_world ;; record (CmdMakeLightLinks (selection w)).

Definition BreakLightLinks : M unit :=
  w <- get_world ;; record (CmdBreakLightLinks (selection w)).

Definition makeLightLinks_body : M unit :=
  select_for_links ;;;
  MakeLightLinks ;;;
  logger INFO "lights linked".

Definition makeLightLinks : M (option unit) := _wrapperSelected makeLightLinks_body.

Definition breakLightLinks_body : M unit :=
  select_for_links ;;;
  BreakLightLinks ;;;
  logger INFO "lights breaked".

Definition breakLightLinks : M (option unit) := _wrapperSelected breakLightLinks_body.

(** [breakAllLinks]; it has no decorator.  [for light in lights] is a
    [TypeError] when the classifier answered [None], and the function
    returns the last light of the loop. *)
Definition breakAllLinks (self : Toolkit) : M string :=
  lights <- _onlyLightsFromSelection self false false ;;
  match lights with
  | None => raise TypeError
  | Some lights =>
      for_each lights (λ light,
        w <- get_world ;;
        let object_linked := default [] (lightlinks w !! light) in
        record (CmdLightlinkBreak light object_linked) ;;;
        modify (with_lightlinks (alter (λ l, list_difference l object_linked) light))) ;;;
      logger INFO (show_list lights +:+ " breaked from all") ;;;
      match last lights with
      | Some light => ret light
      | None => raise UnboundLocalError
      end
  end.

(** [name.split("_")[0]] *)
Fixpoint before_underscore (s : string) : string :=
  match s with
  | EmptyString => EmptyString
  | String c s' => if decide (c = "_"%char) then EmptyString
                   else String c (before_underscore s')
  end.

(** A character of the class [[A-Za-z0-9_]]. *)
Definition is_word_char (c : ascii) : bool :=
  let n := nat_of_ascii c in
  ((65 <=? n) && (n <=? 90)) || ((97 <=? n) && (n <=? 122))
  || ((48 <=? n) && (n <=? 57)) || (n =? 95).

(** [re.search(r'[A-Za-z0-9_]+(_SETS)', s) is not None]: some ["_SETS"]
    comes right after a character of the class. *)
Fixpoint search_SETS (after_word : bool) (s : string) : bool :=
  match s with
  | EmptyString => false
  | String c s' =>
      (after_word && String.prefix "_SETS" s) || search_SETS (is_word_char c) s'
  end.

(** [pm.sets(n=name)] with nothing selected: a new, empty set. *)
Definition pm_sets (name : string) : M string :=
  w <- get_world ;;
  let name' := unique_name w name in
  record (CmdSets name') ;;;
  modify (with_nodes (insert name' "objectSet")) ;;;
  modify (with_objectSets (insert name' (selection w))) ;;;
  ret name'.

(** [set_.addMembers(l)] and [pm.sets(root, fe=element)] *)
Definition set_addMembers (set_ : string) (l : list string) : M unit :=
  record (CmdAddMembers set_ l) ;;;
  modify (with_objectSets (alter (λ m, m ++ l) set_)).

Definition sets_forceElement (root element : string) : M unit :=
  record (CmdSetsForceElement root element) ;;;
  modify (with_objectSets (alter (λ m, m ++ [element]) root)).

(** [createSet], the function under its decorator.  [prompt] is the user in
    front of the dialog: from the proposed name to the button pressed and
    the text typed. *)
Definition createSet_body (self : Toolkit) (prompt : string → string * string)
    : M (option string) :=
  let include_type := ["mesh"; "aiStandIn"; "pgYetiMaya"] in
  selected <- pm_selected ;;
  match last selected with
  | None => raise IndexError
  | Some last_selected =>
      let pre_setname := before_underscore last_selected in
      w <- get_world ;;
      let shapes :=
        flat_map (λ node, filter (λ n, nodeType w n ∈ include_type) (getChildren_ad w node))
                 selected in
      transforms <- getParents shapes ;;
      if decide (transforms = []) then
        logger WARNING "Invalid selection" ;;;
        ret None
      else
        let '(result, text) := prompt pre_setname in
        if decide (result = "OK") then
          let input_ := text in
          w <- get_world ;;
          root_set <- (if objExists w "root_SETS" then ret "root_SETS"
                       else pm_select_clear ;;; pm_sets "root_SETS") ;;
          let input_ := if search_SETS false input_ then input_ else input_ +:+ "_SET" in
          pm_select_clear ;;;
          set_ <- pm_sets input_ ;;
          set_addMembers set_ transforms ;;;
          sets_forceElement root_set set_ ;;;
          pm_select selected ;;;
          logger INFO set_ ;;;
          ret (Some set_)
        else
          logger WARNING "Set need a name" ;;;
          ret None
  end.

Definition createSet (self : Toolkit) (prompt : string → string * string)
    : M (option string) :=
  _wrapperUndoChunck (createSet_body self prompt).

(** ** The words of the specification about the classifier *)

(** A node qualifies when its node type, or the node type of its shape when
    it is a transform, is one of the light types. *)
Definition qualifies (self : Toolkit) (w : World) (n : string) : bool :=
  bool_decide (nodeType w n ∈ lgt_types self)
  || (bool_decide (nodeType w n = "transform")
      && match getShape w n with
         | Some shape => bool_decide (nodeType w shape ∈ lgt_types self)
         | None => false
         end).

(** The classifier as the specification words it: exactly the nodes looked
    at that qualify. *)
Definition spec_onlyLights (self : Toolkit) (all_hierachy : bool) (w : World) : list string :=
  filter (λ n, qualifies self w n = true) (candidates all_hierachy w).

(** The shape a node stands for: itself, or its shape when it is a
    transform. *)
Definition shape_of (w : World) (n : string) : option string :=
  if decide (nodeType w n = "transform") then getShape w n else Some n.

(** What the classifier puts in its list for a qualifying node [n]: the
    light shape with [get_shapes], else the parent of that shape. *)
Definition stands_for (get_shapes : bool) (w : World) (n x : string) : Prop :=
  ∃ shape, shape_of w n = Some shape
           ∧ if get_shapes then x = shape else parents w !! shape = Some x.

(** ** Operations as sequences of host commands *)

(** A computation is [tidy] when, run inside an open chunk, it touches the
    undo state through its host commands only: the commands join the open
    chunk, and the nesting and the finished steps are as before. *)
Definition tidy {A} (m : M A) : Prop :=
  ∀ w, (0 < undoDepth w)%nat →
       ∃ cmds, undoDepth (m w).2 = undoDepth w
               ∧ undoOpen (m w).2 = undoOpen w ++ cmds
               ∧ undoQueue (m w).2 = undoQueue w.

(** The host commands a tidy computation issues from [w], once a chunk has
    been opened. *)
Definition commands_of {A} (m : M A) (w : World) : list Cmd :=
  drop (length (undoOpen w)) (undoOpen (m (undoInfo_openChunk w).2).2).

(** ** The words of the specification about the batch editor *)

(** The value an attribute gets from the value [cur] it has. *)
Definition new_value (mode : string) (v cur : Q) : Q :=
  if decide (mode = "absolute") then v else (v + cur)%Q.

(** The warnings of a batch: one for each node that lacks the attribute. *)
Definition missing_warnings (a : string) (targets : list string)
    (values : gmap (string * string) Q) : list (level * string) :=
  omap (λ n, match values !! (n, a) with
             | Some _ => None
             | None => Some (WARNING, n +:+ "." +:+ a +:+ " doesn't exist")
             end) targets.

(** The nodes a batch runs on: the light shapes for a light attribute, and
    for any other attribute the transform of every selected node (the node
    itself, or its parent when it is not a transform). *)
Definition batch_targets (self : Toolkit) (w : World) (lights targets : list string) : Prop :=
  if decide (comboBox_multiAttr self ∈ lgt_attrs self) then targets = lights
  else Forall2 (λ selected t,
                  if decide (nodeType w selected ≠ "transform")
                  then parents w !! selected = Some t else t = selected)
               (selection w) targets.

(** ** The words of the specification about unused filters *)

(** A filter is null when it does nothing to the light: a blocker with
    density zero, a decay with both attenuations off. *)
Definition zero_attr (w : World) (x a : string) : bool :=
  match attrs w !! (x, a) with
  | Some v => Qeq_bool v 0
  | None => false
  end.

Definition null_filter (w : World) (ai_filter x : string) : bool :=
  if decide (ai_filter = "aiLightBlocker") then zero_attr w x "density"
  else zero_attr w x "useNearAtten" && zero_attr w x "useFarAtten".

(** The attributes the test reads are there. *)
Definition has_filter_attrs (w : World) (ai_filter x : string) : Prop :=
  if decide (ai_filter = "aiLightBlocker") then is_Some (attrs w !! (x, "density"))
  else is_Some (attrs w !! (x, "useNearAtten")) ∧ is_Some (attrs w !! (x, "useFarAtten")).

#[export] Instance has_filter_attrs_dec w ai_filter x :
  Decision (has_filter_attrs w ai_filter x).
Proof. unfold has_filter_attrs. destruct (decide _); apply _. Defined.

Definition disconnected_filters (w : World) (ai_filter : string) : list string :=
  filter (λ x, outputs w x = []) (ls w ai_filter).

Definition null_filters (w : World) (ai_filter : string) : list string :=
  filter (λ x, outputs w x ≠ [] ∧ null_filter w ai_filter x = true) (ls w ai_filter).

(** ** The words of the specification about filter links *)

(** The filter feeds at most one index of the light. *)
Definition connected_once (w : World) (f l : string) : Prop :=
  ∀ i j, aiFilters w !! (l, i) = Some f → aiFilters w !! (l, j) = Some f → i = j.

(** ** The words of the specification about re-indexing *)

(** The filter at index [j] of a light when the loop of
    [deleteSafelyLightFilter] is about to run turn [i], for a light whose
    connections were the list [fs] and whose index [k] is being freed: up
    to turn [k] nothing has moved; later the filters before [i] have moved
    down by one and index [i - 1] is free. *)
Definition shifting (fs : list string) (k i j : nat) : option string :=
  if decide (i ≤ k) then fs !! j
  else if decide (j < i - 1) then delete k fs !! j
  else if decide (j = i - 1) then None
  else fs !! j.

(** ** Scenes along a run *)

(** The scene after an undoable command has been recorded, after a chunk
    has been opened, and after one has been closed: only the undo state
    moves. *)
Definition recorded (c : Cmd) (w : World) : World := (record c w).2.
Definition opened (w : World) : World := (undoInfo_openChunk w).2.
Definition closed (w : World) : World := (undoInfo_closeChunk w).2.
Arguments recorded : simpl never.
Arguments opened : simpl never.
Arguments closed : simpl never.

(** The scene after [pm.delete(n)]. *)
Definition deleted (n : string) (w : World) : World := (pm_delete n w).2.
Arguments deleted : simpl never.

(** The scene after the body of [restoreLights]. *)
Definition restored (self : Toolkit) (w : World) : World := (restoreLights_body self w).2.
Arguments restored : simpl never.

(** ** A small scene used by the examples

    [key] and [fill] (transforms carrying a point and a spot light), [rim]
    under the group [rig], and a cube.  The shapes of [key] and [fill] have
    an [intensity]; the shape of [rim] has none. *)
Definition studio : World :=
  mkWorld
    (list_to_map [("key", "transform"); ("keyShape", "pointLight");
                  ("fill", "transform"); ("fillShape", "spotLight");
                  ("rig", "transform"); ("rim", "transform"); ("rimShape", "areaLight");
                  ("cube", "transform"); ("cubeShape", "mesh")])
    (list_to_map [("key", "keyShape"); ("fill", "fillShape"); ("rim", "rimShape");
                  ("cube", "cubeShape")])
    (list_to_map [("keyShape", "key"); ("fillShape", "fill"); ("rimShape", "rim");
                  ("rim", "rig"); ("cubeShape", "cube")])
    (list_to_map [("key", ["keyShape"]); ("fill", ["fillShape"]); ("rig", ["rim"; "rimShape"]);
                  ("rim", ["rimShape"]); ("cube", ["cubeShape"])])
    []
    ∅
    (list_to_map [(("keyShape", "intensity"), 1%Q); (("fillShape", "intensity"), 2%Q);
                  (("key", "translateX"), 0%Q); (("fill", "translateX"), 3%Q)])
    ∅ ∅ ∅ ∅ ∅ 0 [] [] [].

Definition panel : Toolkit := mkToolkit true false "intensity" (1 # 2)%Q.


(** [key], the cube and [fill] selected in the outliner. *)
Definition studio_three_selected : World := with_selection ["key"; "cube"; "fill"] studio.

(** The shape of [key] picked in the outliner, and not its transform. *)
Definition studio_shape_selected : World := with_selection ["keyShape"] studio.

(** [key] alone selected, and the scene after [soloLights] on it. *)
Definition studio_key_selected : World := with_selection ["key"] studio.

Definition studio_soloed : World := (soloLights panel studio_key_selected).2.

(** [key] selected twice over: its transform and its shape. *)
Definition studio_key_twice : World := with_selection ["key"; "keyShape"] studio.

(** The three lights selected by their transforms. *)
Definition studio_lights_selected : World := with_selection ["key"; "fill"; "rim"] studio.

(** The studio with four blockers: [blkA] (density 0) and [blkB] (density
    1/2) feed [key], [blkD] (density 0) feeds [key] and [fill], and [blkC]
    feeds nothing. *)
Definition stage : World :=
  with_aiFilters
    (λ _, list_to_map [(("keyShape", 0), "blkAShape"); (("keyShape", 1), "blkBShape");
                       (("keyShape", 2), "blkDShape"); (("fillShape", 0), "blkDShape")])
    (with_attrs
       (λ a, list_to_map [(("blkAShape", "density"), 0%Q); (("blkBShape", "density"), (1 # 2)%Q);
                          (("blkCShape", "density"), 1%Q); (("blkDShape", "density"), 0%Q)] ∪ a)
       (with_dag
          (λ s, list_to_map [("blkA", "blkAShape"); ("blkB", "blkBShape");
                             ("blkC", "blkCShape"); ("blkD", "blkDShape")] ∪ s)
          (λ p, list_to_map [("blkAShape", "blkA"); ("blkBShape", "blkB");
                             ("blkCShape", "blkC"); ("blkDShape", "blkD")] ∪ p)
          (λ h, list_to_map [("blkA", ["blkAShape"]); ("blkB", ["blkBShape"]);
                             ("blkC", ["blkCShape"]); ("blkD", ["blkDShape"])] ∪ h)
          (with_nodes
             (λ n, list_to_map [("blkA", "transform"); ("blkAShape", "aiLightBlocker");
                                ("blkB", "transform"); ("blkBShape", "aiLightBlocker");
                                ("blkC", "transform"); ("blkCShape", "aiLightBlocker");
                                ("blkD", "transform"); ("blkDShape", "aiLightBlocker")] ∪ n)
             studio))).

(** The studio with two sets, both selected: the lights and the geometry. *)
Definition studio_sets_selected : World :=
  with_selection ["lights_SET"; "geo_SET"]
    (with_objectSets
       (λ _, list_to_map [("lights_SET", ["key"; "fill"]); ("geo_SET", ["cube"])])
       (with_nodes
          (λ n, list_to_map [("lights_SET", "objectSet"); ("geo_SET", "objectSet")] ∪ n)
          studio)).

(** [key], [fill] and the free blocker [blkC] selected. *)
Definition stage_link_selected : World := with_selection ["key"; "fill"; "blkC"] stage.

(** The stage with a gap in the connections of [key]: index 0 is free, the
    null blocker [blkA] feeds index 1 and [blkB] index 2. *)
Definition stage_sparse : World :=
  with_aiFilters
    (λ _, list_to_map [(("keyShape", 1), "blkAShape"); (("keyShape", 2), "blkBShape")])
    stage.

(** ** The loop over a list that shrinks, in closed form *)

(** What the loop of [makeLightLinks] comes to on a selection with no node
    twice: a set is expanded and removed, and the node after it is stepped
    over, kept as it is whatever its type. *)
Fixpoint skip_expand (w : World) (l : list string) : list string * list string :=
  match l with
  | [] => ([], [])
  | x :: rest =>
      if decide (nodeType w x = "objectSet") then
        match rest with
        | [] => ([], set_members w x)
        | y :: rest' =>
            let '(s, c) := skip_expand w rest' in (y :: s, set_members w x ++ c)
        end
      else let '(s, c) := skip_expand w rest in (x :: s, c)
  end.

(** No set comes right after another set. *)
Fixpoint no_adjacent_sets (w : World) (l : list string) : Prop :=
  match l with
  | x :: rest =>
      match rest with
      | y :: _ => ¬ (nodeType w x = "objectSet" ∧ nodeType w y = "objectSet")
      | [] => True
      end ∧ no_adjacent_sets w rest
  | [] => True
  end.


(** ** Undo steps outside a chunk *)

(** Every undo step holds one host command: the commands were issued with
    no chunk open. *)
Definition one_command_each (steps : list (list Cmd)) : Prop :=
  Forall (λ s, length s = 1) steps.

(** The selection [makeLightLinks] and [breakLightLinks] run the host
    command on. *)
Definition linked_selection (w : World) : list string :=
  let sc := expand_sets (length (selection w)) 0 w (selection w) [] in
  sc.1 ++ list_difference sc.2 sc.1.

(** ** The muted layer after [muteLights] *)

(** The layer named "mutedLights" once [lights] have been muted: the layer
    of the scene with the lights added, or a new hidden layer of colour 21
    holding them. *)
Definition muted_after (w : World) (lights : list string) : Layer :=
  match layers w !! muted_layer_name with
  | Some y => mkLayer (members y ++ lights) (visibility y) (color y)
  | None => mkLayer lights 0 21
  end.

(** The lights of the scene, as [_getAllLights] answers them: the shape of a
    light type, or its parent. *)
Definition scene_light (self : Toolkit) (get_shapes : bool) (w : World) (x : string) : Prop :=
  ∃ shape, nodeType w shape ∈ lgt_types self
           ∧ if get_shapes then x = shape else parents w !! shape = Some x.


(** ** Sorting the selection into lights and filters *)

(** The filter shape a selected node stands for in
    [linkLightFilterToLights]: the node, or its shape when it is a
    transform, when that is of the asked filter type and not a light. *)
Definition filter_shape (self : Toolkit) (w : World) (filter_ node : string) : option string :=
  match shape_of w node with
  | Some s =>
      if decide ((nodeType w s ∉ lgt_types self) ∧ nodeType w s = filter_) then Some s else None
  | None => None
  end.

(** Every selected transform has a shape. *)
Definition shaped (w : World) (sel : list string) : Prop :=
  Forall (λ n, nodeType w n = "transform" → is_Some (getShape w n)) sel.

#[export] Instance shaped_dec w sel : Decision (shaped w sel).
Proof. unfold shaped. apply _. Defined.

(** From [w] to [w'] connections into [aiFilters] have only been added,
    each from a filter of [fs] to a light of [ls]; nodes, DAG, other
    connections and log are the same. *)
Definition links_added (fs ls : list string) (w w' : World) : Prop :=
  aiFilters w ⊆ aiFilters w'
  ∧ (∀ l i f, aiFilters w' !! (l, i) = Some f →
              aiFilters w !! (l, i) = Some f ∨ (l ∈ ls ∧ f ∈ fs))
  ∧ nodes w' = nodes w ∧ parents w' = parents w
  ∧ otherInputs w' = otherInputs w ∧ log w' = log w.


(** ** The attributes the selected lights share *)

(** The inner loop of [getMultiAttributesLights] for one attribute:
    [attr_exist] counts the lights met so far that have the attribute, and
    the test that appends the attribute sits inside the loop, after the
    count. *)
Fixpoint count_attribute (w : World) (attr_ : string) (num_lights : nat)
    (lights : list string) (attr_exist : nat) (attributes_kept : list string) : list string :=
  match lights with
  | [] => attributes_kept
  | light :: rest =>
      let attr_exist := if attrExists w light attr_ then S attr_exist else attr_exist in
      let attributes_kept :=
        if decide (attr_exist = num_lights) then attributes_kept ++ [attr_]
        else attributes_kept in
      count_attribute w attr_ num_lights rest attr_exist attributes_kept
  end.

(** The items of [comboBox_multiAttr] after it has been cleared and filled
    again; [None] is the separator. *)
Definition comboBox_items (attributes_kept : list string) : list (option string) :=
  let items := Some <$> attributes_kept in
  let number_element := length items in
  (if decide (number_element = 0) then items else items ++ [None])
  ++ (Some <$> transform_attrs).

(** [getMultiAttributesLights]; [items] is what the combo box holds when
    the function is called, and the function answers what it holds
    afterwards along with its return value. *)
Definition getMultiAttributesLights (self : Toolkit) (items : list (option string))
    : M (option (list string) * list (option string)) :=
  lights <- _onlyLightsFromSelection self false false ;;
  match lights with
  | None | Some [] => ret (None, items)
  | Some lights =>
      w <- get_world ;;
      let num_lights := length lights in
      let attributes_kept :=
        fold_left (λ kept attr_, count_attribute w attr_ num_lights lights 0 kept)
                  (lgt_attrs self) [] in
      logger INFO "Attributes filtered" ;;;
      ret (Some attributes_kept, comboBox_items attributes_kept)
  end.

(** ** Copying the attributes of the first light *)

(** [transfertLightAttrs], the function under its decorator. *)
Definition transfertLightAttrs_body (self : Toolkit) : M (option bool) :=
  lights <- _onlyLightsFromSelection self true false ;;
  match lights with
  | None | Some [] => ret None
  | Some (driver :: slaves) =>
      for_each (lgt_attrs self) (λ attr_,
        w <- get_world ;;
        if attrExists w driver attr_ then
          copy_attr <- getAttr driver attr_ ;;
          for_each slaves (λ slave,
            w <- get_world ;;
            if attrExists w slave attr_ then setAttr slave attr_ copy_attr else ret tt)
        else ret tt) ;;;
      pm_select slaves ;;;
      logger INFO (driver +:+ " attributes transfered to " +:+ show_list slaves) ;;;
      ret (Some true)
  end.

Definition transfertLightAttrs (self : Toolkit) : M (option bool) :=
  _wrapperUndoChunck (transfertLightAttrs_body self).

(** The attribute [b] of node [n] is one [transfertLightAttrs] copies from
    [driver]: a light attribute that both have, on one of the [slaves]. *)
Definition copied (self : Toolkit) (w : World) (driver : string) (slaves : list string)
    (n b : string) : Prop :=
  b ∈ lgt_attrs self ∧ n ∈ slaves
  ∧ is_Some (attrs w !! (driver, b)) ∧ is_Some (attrs w !! (n, b)).

#[export] Instance copied_dec self w driver slaves n b :
  Decision (copied self w driver slaves n b).
Proof. unfold copied. apply _. Defined.


(** ** The set [createSet] makes *)

(** The shapes [createSet] gathers under the selected nodes, and the name it
    gives the set from the text typed in the dialog. *)
Definition set_shapes (w : World) : list string :=
  flat_map (λ node, filter (λ n, nodeType w n ∈ ["mesh"; "aiStandIn"; "pgYetiMaya"])
                           (getChildren_ad w node))
           (selection w).

Definition set_name (text : string) : string :=
  if search_SETS false text then text else text +:+ "_SET".


(** ** Copying the light filters of the first light *)

(** The [while is_connected] scan of [transfertLightFilters] over the
    [aiFilters] of the driver: the sources of the indices 0, 1, ... up to
    the first index with no connection, which is what [driver_connection]
    holds under the keys ["aiFilters[0]"], ["aiFilters[1]"], ...  [fuel]
    bounds the number of turns. *)
Fixpoint scan_connections (fuel i : nat) (w : World) (lgt : string) : list string :=
  match fuel with
  | O => []
  | S fuel' =>
      match aiFilters w !! (lgt, i) with
      | Some src => src :: scan_connections fuel' (S i) w lgt
      | None => []
      end
  end.

(** The [while is_connected] loop that disconnects the filters of a slave
    from index 0 up to the first index with no connection. *)
Fixpoint unplug_filters (fuel i : nat) (slave : string) : M unit :=
  match fuel with
  | O => ret tt
  | S fuel' =>
      w <- get_world ;;
      if isDestination w slave i then
        slave_connection <- sourceFromDestination slave i ;;
        disconnect slave_connection slave i ;;;
        unplug_filters fuel' (S i) slave
      else ret tt
  end.

(** [for key, value in driver_connection.items(): value.message >> slave.key],
    the entries taken in the order they were put in. *)
Fixpoint plug_filters (i : nat) (driver_connection : list string) (slave : string) : M unit :=
  match driver_connection with
  | [] => ret tt
  | value :: rest => connect value slave i ;;; plug_filters (S i) rest slave
  end.

(** [transfertLightFilters], the function under its decorator.  The warning
    is logged with its ["%s"] as written: the message is not given the name
    of the light. *)
Definition transfertLightFilters_body (self : Toolkit) : M (option (list string)) :=
  lights <- _onlyLightsFromSelection self true false ;;
  match lights with
  | None | Some [] => ret None
  | Some (driver :: slaves) =>
      w <- get_world ;;
      let driver_connection := scan_connections (S (size (aiFilters w))) 0 w driver in
      if decide (driver_connection = []) then
        logger WARNING "%s don't have any light filters" ;;;
        ret None
      else
        for_each slaves (λ slave,
          w <- get_world ;;
          unplug_filters (S (size (aiFilters w))) 0 slave ;;;
          plug_filters 0 driver_connection slave) ;;;
        pm_select slaves ;;;
        logger INFO (driver +:+ " light filters transfered to " +:+ show_list slaves) ;;;
        ret (Some driver_connection)
  end.

Definition transfertLightFilters (self : Toolkit) : M (option (list string)) :=
  _wrapperUndoChunck (transfertLightFilters_body self).

(** The connections into [aiFilters] of the light are the list [fs], from
    index 0 on and with no gap. *)
Definition filters_are (w : World) (light : string) (fs : list string) : Prop :=
  ∀ j, aiFilters w !! (light, j) = fs !! j.


(** ** What an operation leaves alone *)

(** From [w] to [w'] the nodes, the DAG, the selection and the connections
    other than those into [aiFilters] are the same. *)
Definition graph_kept (w w' : World) : Prop :=
  nodes w' = nodes w ∧ shapes w' = shapes w ∧ parents w' = parents w
  ∧ hierarchy w' = hierarchy w ∧ selection w' = selection w
  ∧ otherInputs w' = otherInputs w ∧ otherOutputs w' = otherOutputs w.




(** ** Getting a node or creating it *)

(** [pm.group(em=True, n=name)] and [pm.createNode(type, n=name, ss=True)]
    for a name that is free: the new node has the name asked for. *)
Definition pm_group_empty (name : string) : M string :=
  w <- get_world ;;
  let name' := unique_name w name in
  record (CmdCreateNode "transform" name') ;;;
  modify (with_nodes (insert name' "transform")) ;;;
  ret name'.

Definition createNode_named (type name : string) : M string :=
  w <- get_world ;;
  let name' := unique_name w name in
  record (CmdCreateNode type name') ;;;
  modify (with_nodes (insert name' type)) ;;;
  ret name'.

Definition _eitherCreateGetNode (node_type node_name : string) : M string :=
  w <- get_world ;;
  if objExists w node_name then ret node_name
  else if decide (node_type = "grp") then pm_group_empty node_name
  else createNode_named node_type node_name.


(** ** The scene after the unused filters are deleted *)

(** Every connection into [aiFilters] is told by [F]: the filters of a
    light are the list [F light], from index 0 on and with no gap. *)
Definition filter_runs (w : World) (F : string → list string) : Prop :=
  ∀ l j, aiFilters w !! (l, j) = F l !! j.

(** The nodes that go when the filters [fs] are deleted through their
    parent transforms. *)
Definition gone_with (w : World) (fs : list string) : list string :=
  fs ++ omap (λ f, parents w !! f) fs.

(** The filter shape [f] sits alone under a transform. *)
Definition under_transform (w : World) (f : string) : Prop :=
  ∃ t, parents w !! f = Some t ∧ nodes w !! t = Some "transform"
       ∧ hierarchy w !! t = Some [f].

(** The scene [w] is [w1] with the filters [fs] deleted through their
    transforms: these nodes are gone from the nodes and from the DAG, and
    the connections into [aiFilters] are those of [w1]. *)
Definition after_deleting (w1 : World) (fs : list string) (w : World) : Prop :=
  aiFilters w = aiFilters w1
  ∧ (∀ x, nodes w !! x = if decide (x ∈ gone_with w1 fs) then None else nodes w1 !! x)
  ∧ (∀ x, parents w !! x = if decide (x ∈ gone_with w1 fs) then None else parents w1 !! x)
  ∧ (∀ x, hierarchy w !! x
          = if decide (x ∈ gone_with w1 fs) then None else hierarchy w1 !! x).

(** The filters of the lights of [stage], light by light. *)
Definition stage_filters (l : string) : list string :=
  if decide (l = "keyShape") then ["blkAShape"; "blkBShape"; "blkDShape"]
  else if decide (l = "fillShape") then ["blkDShape"]
  else [].

(** * Properties *)

(** ** Running computations *)

Lemma bind_Return {A B} (m : M A) (k : A → M B) w a w' :
  m w = (Return a, w') → bind m k w = k a w'.
Proof. intros H. unfold bind. by rewrite H. Qed.

Lemma bind_Raise {A B} (m : M A) (k : A → M B) w e w' :
  m w = (Raise e, w') → bind m k w = (Raise e, w').
Proof. intros H. unfold bind. by rewrite H. Qed.

Lemma bind_get_world {B} (k : World → M B) w : bind get_world k w = k w w.
Proof. reflexivity. Qed.

Lemma bind_ret {A B} (a : A) (k : A → M B) w : bind (ret a) k w = k a w.
Proof. reflexivity. Qed.

Lemma bind_raise {A B} e (k : A → M B) w : bind (raise e) k w = (Raise e, w).
Proof. reflexivity. Qed.

Lemma bind_modify {B} f (k : unit → M B) w : bind (modify f) k w = k tt (f w).
Proof. reflexivity. Qed.

Lemma bind_logger {B} lv msg (k : unit → M B) w :
  bind (logger lv msg) k w = k tt (with_log (λ l, l ++ [(lv, msg)]) w).
Proof. reflexivity. Qed.

Lemma bind_pm_selected {B} (k : list string → M B) w :
  bind pm_selected k w = k (selection w) w.
Proof. reflexivity. Qed.

Lemma bind_assoc {A B C} (m : M A) (f : A → M B) (g : B → M C) w :
  bind (bind m f) g w = bind m (λ x, bind (f x) g) w.
Proof. unfold bind. by destruct (m w) as [[a|e] w']. Qed.

Create Rewrite HintDb run.
#[export] Hint Rewrite @bind_get_world @bind_ret @bind_raise @bind_modify @bind_logger
  @bind_pm_selected : run.

(** One step of a computation at a time. *)
Ltac run := autorewrite with run.

Lemma bind_record {B} c (k : unit → M B) w : bind (record c) k w = k tt (recorded c w).
Proof. reflexivity. Qed.

Section recorded.
Variables (c : Cmd) (w : World).
Local Ltac go := unfold recorded, record, modify; simpl; by destruct (undoDepth w).

Lemma recorded_nodes : nodes (recorded c w) = nodes w. Proof. go. Qed.
Lemma recorded_shapes : shapes (recorded c w) = shapes w. Proof. go. Qed.
Lemma recorded_parents : parents (recorded c w) = parents w. Proof. go. Qed.
Lemma recorded_hierarchy : hierarchy (recorded c w) = hierarchy w. Proof. go. Qed.
Lemma recorded_selection : selection (recorded c w) = selection w. Proof. go. Qed.
Lemma recorded_layers : layers (recorded c w) = layers w. Proof. go. Qed.
Lemma recorded_attrs : attrs (recorded c w) = attrs w. Proof. go. Qed.
Lemma recorded_aiFilters : aiFilters (recorded c w) = aiFilters w. Proof. go. Qed.
Lemma recorded_otherOutputs : otherOutputs (recorded c w) = otherOutputs w. Proof. go. Qed.
Lemma recorded_otherInputs : otherInputs (recorded c w) = otherInputs w. Proof. go. Qed.
Lemma recorded_objectSets : objectSets (recorded c w) = objectSets w. Proof. go. Qed.
Lemma recorded_lightlinks : lightlinks (recorded c w) = lightlinks w. Proof. go. Qed.
Lemma recorded_log : log (recorded c w) = log w. Proof. go. Qed.
End recorded.

#[export] Hint Rewrite @bind_record recorded_nodes recorded_shapes recorded_parents
  recorded_hierarchy recorded_selection recorded_layers recorded_attrs recorded_aiFilters
  recorded_otherOutputs recorded_otherInputs recorded_objectSets recorded_lightlinks
  recorded_log : run.

Lemma wrapperUndoChunck_run {A B} (function : M A) w :
  _wrapperUndoChunck (B := B) function w
  = (match (function (opened w)).1 with
     | Return _ => Return None
     | Raise e => Raise e
     end,
     closed (function (opened w)).2).
Proof.
  unfold _wrapperUndoChunck, bind, try_finally, opened, closed. simpl.
  by destruct (function _) as [[a|e] w1].
Qed.

Lemma wrapperSelected_run {A B} (function : M A) w :
  _wrapperSelected (B := B) function w
  = (match (function w).1 with
     | Return _ => Return None
     | Raise e => Raise e
     end,
     with_selection (selection w) (recorded (CmdSelect (selection w)) (function w).2)).
Proof.
  unfold _wrapperSelected, bind, try_finally, pm_select. simpl.
  by destruct (function _) as [[a|e] w1].
Qed.

Section opened_closed.
Variable w : World.
Local Ltac go :=
  unfold opened, closed, undoInfo_openChunk, undoInfo_closeChunk, modify; simpl;
  by destruct (undoDepth w) as [|[|?]].

Lemma opened_nodes : nodes (opened w) = nodes w. Proof. go. Qed.
Lemma opened_shapes : shapes (opened w) = shapes w. Proof. go. Qed.
Lemma opened_parents : parents (opened w) = parents w. Proof. go. Qed.
Lemma opened_hierarchy : hierarchy (opened w) = hierarchy w. Proof. go. Qed.
Lemma opened_selection : selection (opened w) = selection w. Proof. go. Qed.
Lemma opened_layers : layers (opened w) = layers w. Proof. go. Qed.
Lemma opened_attrs : attrs (opened w) = attrs w. Proof. go. Qed.
Lemma opened_aiFilters : aiFilters (opened w) = aiFilters w. Proof. go. Qed.
Lemma opened_otherOutputs : otherOutputs (opened w) = otherOutputs w. Proof. go. Qed.
Lemma opened_otherInputs : otherInputs (opened w) = otherInputs w. Proof. go. Qed.
Lemma opened_objectSets : objectSets (opened w) = objectSets w. Proof. go. Qed.
Lemma opened_lightlinks : lightlinks (opened w) = lightlinks w. Proof. go. Qed.
Lemma opened_log : log (opened w) = log w. Proof. go. Qed.

Lemma closed_nodes : nodes (closed w) = nodes w. Proof. go. Qed.
Lemma closed_shapes : shapes (closed w) = shapes w. Proof. go. Qed.
Lemma closed_parents : parents (closed w) = parents w. Proof. go. Qed.
Lemma closed_hierarchy : hierarchy (closed w) = hierarchy w. Proof. go. Qed.
Lemma closed_selection : selection (closed w) = selection w. Proof. go. Qed.
Lemma closed_layers : layers (closed w) = layers w. Proof. go. Qed.
Lemma closed_attrs : attrs (closed w) = attrs w. Proof. go. Qed.
Lemma closed_aiFilters : aiFilters (closed w) = aiFilters w. Proof. go. Qed.
Lemma closed_otherOutputs : otherOutputs (closed w) = otherOutputs w. Proof. go. Qed.
Lemma closed_otherInputs : otherInputs (closed w) = otherInputs w. Proof. go. Qed.
Lemma closed_objectSets : objectSets (closed w) = objectSets w. Proof. go. Qed.
Lemma closed_lightlinks : lightlinks (closed w) = lightlinks w. Proof. go. Qed.
Lemma closed_log : log (closed w) = log w. Proof. go. Qed.
End opened_closed.

#[export] Hint Rewrite opened_nodes opened_shapes opened_parents opened_hierarchy
  opened_selection opened_layers opened_attrs opened_aiFilters opened_otherOutputs
  opened_otherInputs opened_objectSets opened_lightlinks opened_log
  closed_nodes closed_shapes closed_parents closed_hierarchy
  closed_selection closed_layers closed_attrs closed_aiFilters closed_otherOutputs
  closed_otherInputs closed_objectSets closed_lightlinks closed_log : run.

Lemma objExists_true w n : objExists w n = true ↔ is_Some (nodes w !! n).
Proof. unfold objExists. apply bool_decide_eq_true. Qed.

Lemma objExists_false w n : objExists w n = false ↔ nodes w !! n = None.
Proof. unfold objExists. rewrite bool_decide_eq_false. symmetry. apply eq_None_not_Some. Qed.

(** *** Deleting a node *)

Lemma pm_delete_run n w :
  objExists w n = true → pm_delete n w = (Return tt, deleted n w).
Proof. intros H. unfold deleted, pm_delete. run. by rewrite H. Qed.

Lemma pm_delete_absent n w :
  objExists w n = false → pm_delete n w = (Raise MayaNodeError, w).
Proof. intros H. unfold pm_delete. run. by rewrite H. Qed.

Lemma deleted_nodes n w :
  objExists w n = true →
  nodes (deleted n w) = filter (λ kv, kv.1 ∉ n :: getChildren_ad w n) (nodes w).
Proof.
  intros H. unfold deleted, pm_delete. run. rewrite H. run. simpl.
  by rewrite recorded_nodes.
Qed.

Lemma deleted_layers n w :
  objExists w n = true →
  layers (deleted n w) = filter (λ kv, kv.1 ∉ n :: getChildren_ad w n) (layers w).
Proof.
  intros H. unfold deleted, pm_delete. run. rewrite H. run. simpl.
  by rewrite recorded_layers.
Qed.

Lemma deleted_aiFilters n w :
  objExists w n = true →
  aiFilters (deleted n w)
  = filter (λ kv, (kv.1.1 ∉ n :: getChildren_ad w n) ∧ (kv.2 ∉ n :: getChildren_ad w n))
           (aiFilters w).
Proof.
  intros H. unfold deleted, pm_delete. run. rewrite H. run. simpl.
  by rewrite recorded_aiFilters.
Qed.

Lemma deleted_nodes_gone n w :
  objExists w n = true → nodes (deleted n w) !! n = None.
Proof.
  intros H. rewrite deleted_nodes by done.
  apply map_lookup_filter_None. right. intros t _ Hn. apply Hn. simpl. by left.
Qed.

Lemma deleted_nodes_None n w x :
  objExists w n = true → nodes w !! x = None → nodes (deleted n w) !! x = None.
Proof.
  intros H Hx. rewrite deleted_nodes by done.
  apply map_lookup_filter_None. by left.
Qed.

Lemma deleted_layers_gone n w :
  objExists w n = true → layers (deleted n w) !! n = None.
Proof.
  intros H. rewrite deleted_layers by done.
  apply map_lookup_filter_None. right. intros t _ Hn. apply Hn. simpl. by left.
Qed.

Lemma deleted_layers_None n w x :
  objExists w n = true → layers w !! x = None → layers (deleted n w) !! x = None.
Proof.
  intros H Hx. rewrite deleted_layers by done.
  apply map_lookup_filter_None. by left.
Qed.

(** ** The selection classifier *)

Example classify_transforms :
  (_onlyLightsFromSelection panel false false (with_selection ["key"; "cube"; "fill"] studio)).1
  = Return (Some ["key"; "fill"]).
Proof. vm_compute. reflexivity. Qed.

Example classify_hierarchy :
  (_onlyLightsFromSelection panel false true (with_selection ["rig"; "key"] studio)).1
  = Return (Some ["rim"; "key"]).
Proof. vm_compute. reflexivity. Qed.

Example classify_nothing :
  _onlyLightsFromSelection panel false false (with_selection ["cube"] studio)
  = (Return None,
     with_log (λ _, [(WARNING, "No lights selected")]) (with_selection ["cube"] studio)).
Proof. vm_compute. reflexivity. Qed.

Lemma transform_not_light self : "transform" ∉ lgt_types self.
Proof. unfold lgt_types. destruct (mtoa_loaded self); compute_done. Qed.

Lemma light_shape_spec self w n :
  light_shape self w n = if qualifies self w n then shape_of w n else None.
Proof.
  unfold light_shape, qualifies, shape_of.
  pose proof (transform_not_light self) as Hnot.
  destruct (decide (nodeType w n = "transform")) as [Ht|Ht].
  - rewrite (bool_decide_eq_false_2 (nodeType w n ∈ lgt_types self)) by (by rewrite Ht).
    rewrite bool_decide_eq_true_2 by done. simpl.
    destruct (getShape w n) as [shape|]; [|done].
    destruct (decide (nodeType w shape ∈ lgt_types self)).
    + by rewrite bool_decide_eq_true_2.
    + by rewrite bool_decide_eq_false_2.
  - rewrite (bool_decide_eq_false_2 (nodeType w n = "transform")) by done.
    rewrite orb_false_r.
    destruct (decide (nodeType w n ∈ lgt_types self)).
    + by rewrite bool_decide_eq_true_2.
    + by rewrite bool_decide_eq_false_2.
Qed.

Lemma qualifies_has_shape self w n :
  qualifies self w n = true → is_Some (shape_of w n).
Proof.
  unfold qualifies, shape_of. intros H.
  destruct (decide (nodeType w n = "transform")) as [Ht|Ht]; [|by eexists].
  rewrite (bool_decide_eq_false_2 (nodeType w n ∈ lgt_types self)) in H
    by (rewrite Ht; apply transform_not_light).
  simpl in H. apply andb_true_iff in H as [_ H].
  destruct (getShape w n); [by eexists | done].
Qed.

(** The shapes the loop gathers, read off the qualifying nodes. *)
Lemma omap_light_shape self w l :
  Forall2 (λ n shape, shape_of w n = Some shape)
          (filter (λ n, qualifies self w n = true) l)
          (omap (light_shape self w) l).
Proof.
  induction l as [|n l IH]; simpl; [constructor|].
  rewrite light_shape_spec. rewrite filter_cons.
  destruct (qualifies self w n) eqn:Hq.
  - rewrite decide_True by done.
    destruct (qualifies_has_shape self w n Hq) as [shape Hs].
    rewrite Hs. by constructor.
  - rewrite decide_False by done. done.
Qed.

Lemma getParents_ok w lights :
  Forall (λ shape, is_Some (parents w !! shape)) lights →
  ∃ ps, getParents lights w = (Return ps, w)
        ∧ Forall2 (λ shape p, parents w !! shape = Some p) lights ps.
Proof.
  induction 1 as [|shape lights [p Hp] _ (ps & Hps & IH)]; simpl.
  - exists []. split; [done | constructor].
  - exists (p :: ps). split; [|by constructor].
    unfold bind at 1, getParent. rewrite Hp.
    unfold bind at 1. rewrite Hps. done.
Qed.




(** ** The undo chunk wrapper *)

Section tidy.
Context {A B : Type}.

Lemma tidy_ret (a : A) : tidy (ret a).
Proof. intros w _. exists []. by rewrite app_nil_r. Qed.

Lemma tidy_raise e : tidy (raise (A := A) e).
Proof. intros w _. exists []. by rewrite app_nil_r. Qed.

Lemma tidy_bind (m : M A) (k : A → M B) :
  tidy m → (∀ a, tidy (k a)) → tidy (bind m k).
Proof.
  intros Hm Hk w Hw. destruct (Hm w Hw) as (c1 & Hd & Ho & Hq).
  unfold bind. destruct (m w) as [[a|e] w1]; simpl in *.
  - destruct (Hk a w1) as (c2 & Hd2 & Ho2 & Hq2); [lia|].
    exists (c1 ++ c2). rewrite Hd2, Ho2, Hq2, Hd, Ho, Hq. by rewrite app_assoc.
  - by exists c1.
Qed.

Lemma tidy_try_finally (body : M A) (fin : M unit) :
  tidy body → tidy fin → tidy (try_finally body fin).
Proof.
  intros Hb Hf w Hw. destruct (Hb w Hw) as (c1 & Hd & Ho & Hq).
  unfold try_finally. destruct (body w) as [r w1]; simpl in *.
  destruct (Hf w1) as (c2 & Hd2 & Ho2 & Hq2); [lia|].
  exists (c1 ++ c2).
  destruct (fin w1) as [[[]|e] w2]; simpl in *;
    rewrite Hd2, Ho2, Hq2, Hd, Ho, Hq; by rewrite app_assoc.
Qed.
End tidy.

Lemma tidy_modify f :
  (∀ w, undoDepth (f w) = undoDepth w ∧ undoOpen (f w) = undoOpen w
        ∧ undoQueue (f w) = undoQueue w) →
  tidy (modify f).
Proof. intros Hf w _. exists []. rewrite app_nil_r. apply Hf. Qed.

Lemma tidy_get_world : tidy get_world.
Proof. intros w _. exists []. by rewrite app_nil_r. Qed.

Lemma tidy_pm_selected : tidy pm_selected.
Proof. intros w _. exists []. by rewrite app_nil_r. Qed.

Lemma tidy_logger lv msg : tidy (logger lv msg).
Proof. by apply tidy_modify. Qed.

Lemma tidy_record c : tidy (record c).
Proof.
  intros w Hw. exists [c]. unfold record, modify. simpl.
  destruct (undoDepth w) eqn:E; [lia|]. by rewrite <- E.
Qed.

Lemma tidy_getParent n : tidy (getParent n).
Proof. intros w _. exists []. rewrite app_nil_r. unfold getParent. by destruct (_ !! _). Qed.

Lemma tidy_getAttr n a : tidy (getAttr n a).
Proof. intros w _. exists []. rewrite app_nil_r. unfold getAttr. by destruct (_ !! _). Qed.

Lemma tidy_sourceFromDestination l i : tidy (sourceFromDestination l i).
Proof.
  intros w _. exists []. rewrite app_nil_r. unfold sourceFromDestination.
  by destruct (_ !! _).
Qed.

Lemma tidy_for_each {A} (l : list A) (body : A → M unit) :
  (∀ x, tidy (body x)) → tidy (for_each l body).
Proof.
  intros Hb. induction l as [|x l IH]; simpl; [apply tidy_ret|].
  apply tidy_bind; [apply Hb | intros _; apply IH].
Qed.

(** Opening and closing a chunk inside an open chunk only moves the
    nesting. *)
Lemma tidy_wrapperUndoChunck {A B} (function : M A) :
  tidy function → tidy (_wrapperUndoChunck (B := B) function).
Proof.
  intros Hf w Hw. unfold _wrapperUndoChunck, bind, try_finally.
  simpl. unfold undoInfo_openChunk, undoInfo_closeChunk, modify.
  destruct (Hf (with_undo (S (undoDepth w)) (undoOpen w) (undoQueue w) w))
    as (c & Hd & Ho & Hq); [simpl; lia|].
  destruct (function _) as [[a|e] w1]; simpl in *;
    exists c; rewrite Hd; destruct (undoDepth w) eqn:E; try lia; simpl; auto.
Qed.

(** Tidiness follows the shape of the code. *)
Create HintDb tidy discriminated.

Ltac tidy_step :=
  lazymatch goal with
  | |- tidy (ret _) => simple apply @tidy_ret
  | |- tidy (raise _) => simple apply @tidy_raise
  | |- tidy get_world => simple apply tidy_get_world
  | |- tidy pm_selected => simple apply tidy_pm_selected
  | |- tidy (logger _ _) => simple apply tidy_logger
  | |- tidy (record _) => simple apply tidy_record
  | |- tidy (getParent _) => simple apply tidy_getParent
  | |- tidy (getAttr _ _) => simple apply tidy_getAttr
  | |- tidy (sourceFromDestination _ _) => simple apply tidy_sourceFromDestination
  | |- tidy (_wrapperUndoChunck _) => simple apply @tidy_wrapperUndoChunck
  | |- tidy (try_finally _ _) => simple apply @tidy_try_finally
  | |- tidy (for_each _ _) => simple apply @tidy_for_each; intros ?
  | |- tidy (modify _) => simple apply tidy_modify; intros ?; done
  | |- tidy (bind _ _) => simple apply @tidy_bind; [|intros ?]
  | |- tidy (if ?b then _ else _) => destruct b
  | |- tidy (match ?x with _ => _ end) => destruct x
  | |- tidy _ => solve [auto with tidy nocore]
  end.

Ltac tidy := repeat tidy_step.

Lemma tidy_pm_select l : tidy (pm_select l).
Proof. unfold pm_select. tidy. Qed.

Lemma tidy_pm_select_add l : tidy (pm_select_add l).
Proof. unfold pm_select_add. tidy. Qed.

Lemma tidy_pm_delete n : tidy (pm_delete n).
Proof. unfold pm_delete. tidy. Qed.

Lemma tidy_createDisplayLayer n : tidy (createDisplayLayer n).
Proof. unfold createDisplayLayer. tidy. Qed.

Lemma tidy_addMembers layer l : tidy (addMembers layer l).
Proof. unfold addMembers. tidy. Qed.

Lemma tidy_color_set layer v : tidy (color_set layer v).
Proof. unfold color_set. tidy. Qed.

Lemma tidy_visibility_set layer v : tidy (visibility_set layer v).
Proof. unfold visibility_set. tidy. Qed.

Lemma tidy_getParents l : tidy (getParents l).
Proof. induction l; simpl; tidy. Qed.

#[export] Hint Resolve tidy_pm_select tidy_pm_select_add tidy_pm_delete
  tidy_createDisplayLayer tidy_addMembers tidy_color_set tidy_visibility_set
  tidy_getParents : tidy.

Lemma tidy_onlyLightsFromSelection self gs ah : tidy (_onlyLightsFromSelection self gs ah).
Proof. unfold _onlyLightsFromSelection. tidy. Qed.

Lemma tidy_getAllLights self gs : tidy (_getAllLights self gs).
Proof. unfold _getAllLights. tidy. Qed.

#[export] Hint Resolve tidy_onlyLightsFromSelection tidy_getAllLights : tidy.

Lemma tidy_wrapperSelected {A B} (function : M A) :
  tidy function → tidy (_wrapperSelected (B := B) function).
Proof. intros Hf. unfold _wrapperSelected. tidy. Qed.

Lemma tidy_restoreLights_body self : tidy (restoreLights_body self).
Proof. unfold restoreLights_body. tidy. Qed.

Lemma tidy_restoreLights self : tidy (restoreLights self).
Proof. apply tidy_wrapperUndoChunck, tidy_restoreLights_body. Qed.

#[export] Hint Resolve tidy_restoreLights_body tidy_restoreLights : tidy.

Lemma tidy_soloLights_body self : tidy (soloLights_body self).
Proof. unfold soloLights_body, pm_select_clear. tidy. Qed.

Lemma tidy_muteLights_body self : tidy (muteLights_body self).
Proof. unfold muteLights_body, pm_select_clear. tidy. Qed.

(** C8.  Whatever the wrapped operation does with host commands, and
    whether it returns or raises, the wrapper leaves the nesting of undo
    chunks as it found it: the chunk it opens before the call is closed in
    the [finally] clause, and an exception of the operation goes on to the
    caller after the chunk is closed.  Called with no chunk open, it turns
    the commands of the operation into exactly one undo step. *)
Theorem wrapperUndoChunck_one_undo_step {A B} (function : M A) (w : World) :
  tidy function →
  (_wrapperUndoChunck (B := B) function w).1
  = match (function (opened w)).1 with
    | Return _ => Return None
    | Raise e => Raise e
    end
  ∧ undoDepth (_wrapperUndoChunck (B := B) function w).2 = undoDepth w
  ∧ (undoDepth w = 0 →
     undoOpen (_wrapperUndoChunck (B := B) function w).2 = []
     ∧ undoQueue (_wrapperUndoChunck (B := B) function w).2
       = undoQueue w ++ [undoOpen w ++ commands_of function w]).
Proof.
  intros Hf. unfold commands_of, opened.
  unfold _wrapperUndoChunck, bind, try_finally.
  simpl. unfold undoInfo_openChunk, undoInfo_closeChunk, modify. simpl.
  destruct (Hf (with_undo (S (undoDepth w)) (undoOpen w) (undoQueue w) w))
    as (c & Hd & Ho & Hq); [simpl; lia|].
  simpl in *.
  destruct (function _) as [[a|e] w1]; simpl in *; rewrite Hd;
    (split; [done|]); (split; [by destruct (undoDepth w)|]);
    intros ->; simpl; rewrite Ho, Hq, drop_app_length; done.
Qed.

Lemma wrapperUndoChunck_one_undo_step_witness :
  tidy (restoreLights_body panel)
  ∧ ((_wrapperUndoChunck (B := bool) (restoreLights_body panel) studio_soloed).1
     = match (restoreLights_body panel (opened studio_soloed)).1 with
       | Return _ => Return None
       | Raise e => Raise e
       end
     ∧ undoDepth (_wrapperUndoChunck (B := bool) (restoreLights_body panel) studio_soloed).2
       = undoDepth studio_soloed
     ∧ (undoDepth studio_soloed = 0 →
        undoOpen (_wrapperUndoChunck (B := bool) (restoreLights_body panel) studio_soloed).2
        = []
        ∧ undoQueue (_wrapperUndoChunck (B := bool) (restoreLights_body panel) studio_soloed).2
          = undoQueue studio_soloed
            ++ [undoOpen studio_soloed ++ commands_of (restoreLights_body panel) studio_soloed])).
Proof.
  split; [apply tidy_restoreLights_body|].
  apply wrapperUndoChunck_one_undo_step, tidy_restoreLights_body.
Defined.

(** The two deletions of [restoreLights] make one undo step. *)
Example restoreLights_undo_step :
  commands_of (restoreLights_body panel) studio_soloed
  = [CmdDelete "displayedLights"; CmdDelete "mutedLights"]
  ∧ undoQueue (restoreLights panel studio_soloed).2
    = undoQueue studio_soloed ++ [[CmdDelete "displayedLights"; CmdDelete "mutedLights"]].
Proof. split; vm_compute; reflexivity. Qed.

(** [soloLights] calls [restoreLights] inside its own chunk: still one step. *)
Example soloLights_undo_step :
  undoQueue studio_soloed
  = [[CmdSelect [];
      CmdCreateDisplayLayer "mutedLights";
      CmdAddMembers "mutedLights" (members (default (mkLayer [] 0 0)
                                              (layers studio_soloed !! "mutedLights")));
      CmdLayerSet "mutedLights" "color" 21; CmdLayerSet "mutedLights" "visibility" 0;
      CmdCreateDisplayLayer "displayedLights"; CmdAddMembers "displayedLights" ["key"];
      CmdLayerSet "displayedLights" "color" 22;
      CmdSelect ["key"]]]
  ∧ undoDepth studio_soloed = 0.
Proof. split; vm_compute; reflexivity. Qed.

(** An operation that raises leaves no chunk open. *)
Example createSet_raises_chunk_closed :
  (createSet panel (λ name, ("OK", name)) studio).1 = Raise IndexError
  ∧ undoDepth (createSet panel (λ name, ("OK", name)) studio).2 = 0
  ∧ undoQueue (createSet panel (λ name, ("OK", name)) studio).2 = [[]].
Proof. repeat split; vm_compute; reflexivity. Qed.

(** ** The display layers *)

Lemma bind_pm_delete {B} n (k : unit → M B) w :
  objExists w n = true → bind (pm_delete n) k w = k tt (deleted n w).
Proof. intros H. unfold bind. by rewrite pm_delete_run. Qed.

(** What [restoreLights] computes before its decorator drops it, and the
    two names after it. *)
Lemma restoreLights_body_run self w :
  restoreLights_body self w
  = (Return (objExists w displayed_layer_name || objExists w muted_layer_name),
     restored self w)
  ∧ nodes (restored self w) !! displayed_layer_name = None
  ∧ nodes (restored self w) !! muted_layer_name = None.
Proof.
  unfold restored, restoreLights_body. run.
  destruct (objExists w displayed_layer_name) eqn:Hd.
  - rewrite bind_assoc, bind_pm_delete by done. run.
    destruct (objExists (deleted displayed_layer_name w) muted_layer_name) eqn:Hm.
    + rewrite bind_assoc, bind_pm_delete by done. run. simpl.
      repeat split.
      * apply deleted_nodes_None; [done|]. by apply deleted_nodes_gone.
      * by apply deleted_nodes_gone.
    + run. simpl. repeat split.
      * by apply deleted_nodes_gone.
      * by apply objExists_false.
  - run. destruct (objExists w muted_layer_name) eqn:Hm.
    + rewrite bind_assoc, bind_pm_delete by done. run. simpl.
      repeat split.
      * apply deleted_nodes_None; [done|]. by apply objExists_false.
      * by apply deleted_nodes_gone.
    + run. simpl. repeat split; by apply objExists_false.
Qed.

Lemma restoreLights_run self w :
  restoreLights self w = (Return None, closed (restored self (opened w))).
Proof.
  unfold restoreLights. rewrite wrapperUndoChunck_run.
  destruct (restoreLights_body_run self (opened w)) as (-> & _). done.
Qed.

Lemma getParents_world l w : (getParents l w).2 = w.
Proof.
  induction l as [|x l IH]; simpl; [done|].
  unfold bind at 1, getParent. destruct (parents w !! x); [|done].
  unfold bind at 1. destruct (getParents l w) as [[ps|e] w'] eqn:E; simpl in *; by subst.
Qed.

Lemma getParents_inv l w ps :
  (getParents l w).1 = Return ps →
  Forall2 (λ shape p, parents w !! shape = Some p) l ps.
Proof.
  revert ps. induction l as [|x l IH]; simpl; intros ps H.
  - injection H as <-. constructor.
  - unfold bind at 1, getParent in H. destruct (parents w !! x) as [p|] eqn:Hp; [|done].
    unfold bind at 1 in H. pose proof (getParents_world l w) as Hw.
    destruct (getParents l w) as [[ps'|e] w'] eqn:E; simpl in *; [|done].
    injection H as <-. constructor; [done|]. by apply IH.
Qed.

Lemma onlyLightsFromSelection_Some self gs ah w lights :
  (_onlyLightsFromSelection self gs ah w).1 = Return (Some lights) →
  _onlyLightsFromSelection self gs ah w
  = (Return (Some lights),
     with_log (λ l, l ++ [(DEBUG, "_onlyLightsFromSelection : " +:+ show_list lights)]) w).
Proof.
  unfold _onlyLightsFromSelection. run.
  destruct (decide _) as [|_]; [done|].
  destruct gs.
  - run. simpl. intros H. injection H as H. subst. reflexivity.
  - pose proof (getParents_world (omap (light_shape self w) (candidates ah w)) w) as Hw.
    destruct (getParents _ w) as [[ps|e] w'] eqn:E; simpl in Hw; subst w'.
    + rewrite !(bind_Return _ _ _ _ _ E). run. simpl.
      intros H. injection H as H. subst. reflexivity.
    + by rewrite !(bind_Raise _ _ _ _ _ E).
Qed.

Lemma getAllLights_Some self gs w lights :
  (_getAllLights self gs w).1 = Return (Some lights) →
  _getAllLights self gs w
  = (Return (Some lights),
     with_log (λ l, l ++ [(DEBUG, "_getAllLights : " +:+ show_list lights)]) w).
Proof.
  unfold _getAllLights. run.
  destruct (decide _) as [|_]; [done|].
  destruct gs.
  - run. simpl. intros H. injection H as H. subst. reflexivity.
  - pose proof (getParents_world (flat_map (ls w) (lgt_types self)) w) as Hw.
    destruct (getParents _ w) as [[ps|e] w'] eqn:E; simpl in Hw; subst w'.
    + rewrite !(bind_Return _ _ _ _ _ E). run. simpl.
      intros H. injection H as H. subst. reflexivity.
    + by rewrite !(bind_Raise _ _ _ _ _ E).
Qed.

Lemma unique_name_free w name : nodes w !! name = None → unique_name w name = name.
Proof. intros H. unfold unique_name. by rewrite (proj2 (objExists_false w name) H). Qed.

Lemma createDisplayLayer_run name w :
  nodes w !! name = None →
  createDisplayLayer name w
  = (Return name,
     with_layers (insert name (mkLayer (selection w) 1 0))
       (with_nodes (insert name "displayLayer") (recorded (CmdCreateDisplayLayer name) w))).
Proof. intros H. unfold createDisplayLayer. run. by rewrite unique_name_free. Qed.

Lemma addMembers_run layer l w y :
  layers w !! layer = Some y →
  addMembers layer l w
  = (Return tt,
     with_layers (alter (λ y, mkLayer (members y ++ l) (visibility y) (color y)) layer)
       (recorded (CmdAddMembers layer l) w)).
Proof. intros H. unfold addMembers. run. by rewrite H. Qed.

Lemma pm_select_run l w :
  pm_select l w = (Return tt, with_selection l (recorded (CmdSelect l) w)).
Proof. reflexivity. Qed.

Lemma color_set_run layer v w :
  color_set layer v w
  = (Return tt,
     with_layers (alter (λ y, mkLayer (members y) (visibility y) v) layer)
       (recorded (CmdLayerSet layer "color" v) w)).
Proof. reflexivity. Qed.

Lemma visibility_set_run layer v w :
  visibility_set layer v w
  = (Return tt,
     with_layers (alter (λ y, mkLayer (members y) v (color y)) layer)
       (recorded (CmdLayerSet layer "visibility" v) w)).
Proof. reflexivity. Qed.

Lemma bind_pm_select {B} l (k : unit → M B) w :
  bind (pm_select l) k w = k tt (with_selection l (recorded (CmdSelect l) w)).
Proof. reflexivity. Qed.

Lemma bind_color_set {B} layer v (k : unit → M B) w :
  bind (color_set layer v) k w
  = k tt (with_layers (alter (λ y, mkLayer (members y) (visibility y) v) layer)
            (recorded (CmdLayerSet layer "color" v) w)).
Proof. reflexivity. Qed.

Lemma bind_visibility_set {B} layer v (k : unit → M B) w :
  bind (visibility_set layer v) k w
  = k tt (with_layers (alter (λ y, mkLayer (members y) v (color y)) layer)
            (recorded (CmdLayerSet layer "visibility" v) w)).
Proof. reflexivity. Qed.

#[export] Hint Rewrite @bind_pm_select @bind_color_set @bind_visibility_set : run.

(** Reading a field through the layers of updates of a run. *)
Ltac fields :=
  repeat (progress
    (cbn [nodes shapes parents hierarchy selection layers attrs aiFilters otherOutputs
          otherInputs objectSets lightlinks undoDepth undoOpen undoQueue log
          with_nodes with_dag with_selection with_layers with_attrs with_aiFilters
          with_others with_objectSets with_lightlinks with_undo with_log fst snd];
     autorewrite with run)).

Lemma restoreLights_names_free self w :
  nodes (restoreLights self w).2 !! displayed_layer_name = None
  ∧ nodes (restoreLights self w).2 !! muted_layer_name = None.
Proof.
  rewrite restoreLights_run. simpl. rewrite closed_nodes.
  by destruct (restoreLights_body_run self (opened w)) as (_ & ? & ?).
Qed.


Lemma getParents_pair l w : getParents l w = ((getParents l w).1, w).
Proof. rewrite <- (getParents_world l w) at 3. by destruct (getParents l w). Qed.

Lemma getParents_parents l w w2 :
  parents w2 = parents w → (getParents l w2).1 = (getParents l w).1.
Proof.
  intros Hp. induction l as [|x l IH]; [done|].
  cbn [getParents]. unfold bind at 1 3, getParent. rewrite Hp.
  destruct (parents w !! x) as [p|]; [|done].
  unfold bind at 1 2. rewrite (getParents_pair l w), (getParents_pair l w2), IH.
  by destruct (getParents l w).1.
Qed.

Lemma getParents_with_log f l w :
  (getParents l (with_log f w)).1 = (getParents l w).1.
Proof. by apply getParents_parents. Qed.

Lemma getAllLights_with_log self gs f w :
  (_getAllLights self gs (with_log f w)).1 = (_getAllLights self gs w).1.
Proof.
  unfold _getAllLights. rewrite !bind_get_world.
  change (ls (with_log f w)) with (ls w).
  destruct (decide _); [done|]. destruct gs; [done|].
  unfold bind at 1 3.
  rewrite (getParents_pair _ w), (getParents_pair _ (with_log f w)), getParents_with_log.
  by destruct (getParents _ w).1.
Qed.

(** *** What the layer commands do to the nodes, the layers and the
    selection *)

Lemma pm_select_spec l w :
  ∃ w', pm_select l w = (Return tt, w')
        ∧ nodes w' = nodes w ∧ layers w' = layers w ∧ selection w' = l.
Proof.
  eexists. split; [apply pm_select_run|].
  cbn [nodes layers selection with_selection]. by rewrite recorded_nodes, recorded_layers.
Qed.

Lemma createDisplayLayer_spec name w :
  nodes w !! name = None →
  ∃ w', createDisplayLayer name w = (Return name, w')
        ∧ nodes w' = <[name := "displayLayer"]> (nodes w)
        ∧ layers w' = <[name := mkLayer (selection w) 1 0]> (layers w)
        ∧ selection w' = selection w.
Proof.
  intros H. eexists. split; [by apply createDisplayLayer_run|].
  cbn [nodes layers selection with_layers with_nodes].
  by rewrite recorded_nodes, recorded_layers, recorded_selection.
Qed.

Lemma addMembers_spec layer l w y :
  layers w !! layer = Some y →
  ∃ w', addMembers layer l w = (Return tt, w')
        ∧ nodes w' = nodes w
        ∧ layers w' = <[layer := mkLayer (members y ++ l) (visibility y) (color y)]> (layers w)
        ∧ selection w' = selection w.
Proof.
  intros H. eexists. split; [by eapply addMembers_run|].
  cbn [nodes layers selection with_layers].
  rewrite recorded_nodes, recorded_layers, recorded_selection.
  repeat split. apply map_eq. intros n.
  destruct (decide (n = layer)) as [->|Hn].
  - by rewrite lookup_alter_eq, lookup_insert_eq, H.
  - by rewrite lookup_alter_ne, lookup_insert_ne.
Qed.

Lemma color_set_spec layer v w y :
  layers w !! layer = Some y →
  ∃ w', color_set layer v w = (Return tt, w')
        ∧ nodes w' = nodes w
        ∧ layers w' = <[layer := mkLayer (members y) (visibility y) v]> (layers w)
        ∧ selection w' = selection w.
Proof.
  intros H. eexists. split; [apply color_set_run|].
  cbn [nodes layers selection with_layers].
  rewrite recorded_nodes, recorded_layers, recorded_selection.
  repeat split. apply map_eq. intros n.
  destruct (decide (n = layer)) as [->|Hn].
  - by rewrite lookup_alter_eq, lookup_insert_eq, H.
  - by rewrite lookup_alter_ne, lookup_insert_ne.
Qed.

Lemma visibility_set_spec layer v w y :
  layers w !! layer = Some y →
  ∃ w', visibility_set layer v w = (Return tt, w')
        ∧ nodes w' = nodes w
        ∧ layers w' = <[layer := mkLayer (members y) v (color y)]> (layers w)
        ∧ selection w' = selection w.
Proof.
  intros H. eexists. split; [apply visibility_set_run|].
  cbn [nodes layers selection with_layers].
  rewrite recorded_nodes, recorded_layers, recorded_selection.
  repeat split. apply map_eq. intros n.
  destruct (decide (n = layer)) as [->|Hn].
  - by rewrite lookup_alter_eq, lookup_insert_eq, H.
  - by rewrite lookup_alter_ne, lookup_insert_ne.
Qed.

(** A new layer named [name], made with nothing selected, given members
    and its two attributes. *)
Lemma new_layer_spec name l c v w :
  nodes w !! name = None → selection w = [] →
  ∃ w', (layer <- createDisplayLayer name ;;
         addMembers layer l ;;; color_set layer c ;;; visibility_set layer v) w
        = (Return tt, w')
        ∧ nodes w' = <[name := "displayLayer"]> (nodes w)
        ∧ layers w' = <[name := mkLayer l v c]> (layers w)
        ∧ selection w' = [].
Proof.
  intros Hfree Hsel.
  destruct (createDisplayLayer_spec name w Hfree) as (w1 & R1 & N1 & L1 & S1).
  destruct (addMembers_spec name l w1 (mkLayer [] 1 0)) as (w2 & R2 & N2 & L2 & S2).
  { by rewrite L1, Hsel, lookup_insert_eq. }
  destruct (color_set_spec name c w2 (mkLayer l 1 0)) as (w3 & R3 & N3 & L3 & S3).
  { by rewrite L2, lookup_insert_eq. }
  destruct (visibility_set_spec name v w3 (mkLayer l 1 c)) as (w4 & R4 & N4 & L4 & S4).
  { by rewrite L3, lookup_insert_eq. }
  exists w4. split.
  - rewrite (bind_Return _ _ _ _ _ R1), (bind_Return _ _ _ _ _ R2),
      (bind_Return _ _ _ _ _ R3). exact R4.
  - rewrite N4, N3, N2, N1, L4, L3, L2, L1, S4, S3, S2, S1, Hsel.
    by rewrite !insert_insert_eq.
Qed.

(** The layers [soloLights] leaves, from the lights it reads once the old
    layers are gone. *)
Lemma soloLights_body_layers self w S L :
  (_onlyLightsFromSelection self false (hierarchy_isChecked self)
     (restoreLights self w).2).1 = Return (Some S) →
  S ≠ [] →
  (_getAllLights self false (restoreLights self w).2).1 = Return (Some L) →
  (soloLights_body self w).1 = Return (Some S)
  ∧ layers (soloLights_body self w).2
    = <[displayed_layer_name := mkLayer S 1 22]>
        (<[muted_layer_name :=
             mkLayer (elements ((list_to_set L : gset string) ∖ list_to_set S)) 0 21]>
           (layers (restoreLights self w).2)).
Proof.
  intros HS Hne HL.
  destruct (restoreLights_names_free self w) as [Hd Hm].
  unfold soloLights_body.
  rewrite (bind_Return _ _ _ _ _ (restoreLights_run self w)).
  rewrite restoreLights_run in HS, HL, Hd, Hm |- *. cbn [snd] in HS, HL, Hd, Hm |- *.
  set (w1 := closed (restored self (opened w))) in *.
  rewrite (bind_Return _ _ _ _ _ (onlyLightsFromSelection_Some _ _ _ _ _ HS)).
  destruct S as [|s S]; [done|].
  set (displayed := s :: S) in *.
  set (w2 := with_log _ w1).
  assert ((_getAllLights self false w2).1 = Return (Some L)) as HL2
    by (unfold w2; by rewrite getAllLights_with_log).
  rewrite (bind_Return _ _ _ _ _ (getAllLights_Some _ _ _ _ HL2)).
  set (w3 := with_log _ w2).
  rewrite bind_ret. unfold pm_select_clear.
  set (muted := elements _).
  destruct (pm_select_spec [] w3) as (w4 & R4 & N4 & L4 & S4).
  rewrite (bind_Return _ _ _ _ _ R4).
  destruct (createDisplayLayer_spec muted_layer_name w4) as (w5 & R5 & N5 & L5 & S5).
  { by rewrite N4. }
  rewrite (bind_Return _ _ _ _ _ R5).
  destruct (addMembers_spec muted_layer_name muted w5 (mkLayer [] 1 0))
    as (w6 & R6 & N6 & L6 & S6).
  { by rewrite L5, S4, lookup_insert_eq. }
  rewrite (bind_Return _ _ _ _ _ R6).
  destruct (color_set_spec muted_layer_name 21 w6 (mkLayer muted 1 0))
    as (w7 & R7 & N7 & L7 & S7).
  { by rewrite L6, lookup_insert_eq. }
  rewrite (bind_Return _ _ _ _ _ R7).
  destruct (visibility_set_spec muted_layer_name 0 w7 (mkLayer muted 1 21))
    as (w8 & R8 & N8 & L8 & S8).
  { by rewrite L7, lookup_insert_eq. }
  rewrite (bind_Return _ _ _ _ _ R8).
  destruct (createDisplayLayer_spec displayed_layer_name w8) as (w9 & R9 & N9 & L9 & S9).
  { rewrite N8, N7, N6, N5, lookup_insert_ne by done. by rewrite N4. }
  rewrite (bind_Return _ _ _ _ _ R9).
  destruct (addMembers_spec displayed_layer_name displayed w9 (mkLayer [] 1 0))
    as (w10 & R10 & N10 & L10 & S10).
  { by rewrite L9, S8, S7, S6, S5, S4, lookup_insert_eq. }
  rewrite (bind_Return _ _ _ _ _ R10).
  destruct (color_set_spec displayed_layer_name 22 w10 (mkLayer displayed 1 0))
    as (w11 & R11 & N11 & L11 & S11).
  { by rewrite L10, lookup_insert_eq. }
  rewrite (bind_Return _ _ _ _ _ R11).
  rewrite bind_logger. unfold ret. cbn [fst snd layers with_log].
  split; [done|].
  rewrite L11, L10, L9, L8, L7, L6, L5, L4.
  by rewrite !insert_insert_eq.
Qed.

Lemma onlyLightsFromSelection_inv self ah w S :
  (_onlyLightsFromSelection self false ah w).1 = Return (Some S) →
  Forall2 (λ shape p, parents w !! shape = Some p)
          (omap (light_shape self w) (candidates ah w)) S.
Proof.
  unfold _onlyLightsFromSelection. run. destruct (decide _); [done|].
  intros H. apply getParents_inv.
  pose proof (getParents_world (omap (light_shape self w) (candidates ah w)) w) as Hw.
  destruct (getParents _ w) as [[ps|e] w'] eqn:E; simpl in Hw; subst w'.
  - rewrite (bind_Return _ _ _ _ _ E) in H. simpl in H. by injection H as ->.
  - by rewrite (bind_Raise _ _ _ _ _ E) in H.
Qed.

Lemma getAllLights_inv self w L :
  (_getAllLights self false w).1 = Return (Some L) →
  Forall2 (λ shape p, parents w !! shape = Some p) (flat_map (ls w) (lgt_types self)) L.
Proof.
  unfold _getAllLights. run. destruct (decide _); [done|].
  intros H. apply getParents_inv.
  pose proof (getParents_world (flat_map (ls w) (lgt_types self)) w) as Hw.
  destruct (getParents _ w) as [[ps|e] w'] eqn:E; simpl in Hw; subst w'.
  - rewrite (bind_Return _ _ _ _ _ E) in H. simpl in H. by injection H as ->.
  - by rewrite (bind_Raise _ _ _ _ _ E) in H.
Qed.

Lemma light_shape_type self w n shape :
  light_shape self w n = Some shape → nodeType w shape ∈ lgt_types self.
Proof.
  unfold light_shape. intros H.
  destruct (decide (nodeType w n = "transform")).
  - destruct (getShape w n) as [s|]; [|done].
    destruct (decide (nodeType w s ∈ lgt_types self)); by simplify_eq.
  - destruct (decide (nodeType w n ∈ lgt_types self)); by simplify_eq.
Qed.

Lemma empty_not_light self : "" ∉ lgt_types self.
Proof. unfold lgt_types. destruct (mtoa_loaded self); compute_done. Qed.

(** [pm.ls(type=t)] lists every node of type [t]. *)
Lemma elem_of_ls w t x : x ∈ ls w t ↔ nodes w !! x = Some t.
Proof.
  unfold ls. rewrite list_elem_of_fmap. split.
  - intros ([k v] & -> & H). apply elem_of_map_to_list in H.
    apply map_lookup_filter_Some in H as [H Ht]. simpl in *. by subst.
  - intros H. exists (x, t). split; [done|].
    apply elem_of_map_to_list. by apply map_lookup_filter_Some.
Qed.

Lemma light_in_all_lights self w shape :
  nodeType w shape ∈ lgt_types self → shape ∈ flat_map (ls w) (lgt_types self).
Proof.
  intros H. apply list_elem_of_In, in_flat_map.
  exists (nodeType w shape). split; [by apply list_elem_of_In|].
  apply list_elem_of_In, elem_of_ls. unfold nodeType in *.
  destruct (nodes w !! shape) as [t|]; [done|].
  by apply empty_not_light in H.
Qed.

(** The lights the classifier answers are among the lights of the scene. *)
Lemma selected_lights_among_all self ah w S L :
  (_onlyLightsFromSelection self false ah w).1 = Return (Some S) →
  (_getAllLights self false w).1 = Return (Some L) →
  ∀ x, x ∈ S → x ∈ L.
Proof.
  intros HS HL x Hx.
  apply onlyLightsFromSelection_inv in HS. apply getAllLights_inv in HL.
  apply list_elem_of_lookup in Hx as [i Hi].
  destruct (Forall2_lookup_r _ _ _ _ _ HS Hi) as (shape & Hshape & Hp).
  assert (shape ∈ flat_map (ls w) (lgt_types self)) as Hin.
  { apply list_elem_of_lookup_2 in Hshape. apply list_elem_of_omap in Hshape as (n & _ & Hn).
    eapply light_in_all_lights, light_shape_type, Hn. }
  apply list_elem_of_lookup in Hin as [j Hj].
  destruct (Forall2_lookup_l _ _ _ _ _ HL Hj) as (p & Hpj & Hp').
  rewrite Hp in Hp'. injection Hp' as <-. by eapply list_elem_of_lookup_2.
Qed.

Lemma soloLights_run_layers self w :
  layers (soloLights self w).2 = layers (soloLights_body self (opened w)).2.
Proof.
  unfold soloLights. rewrite wrapperUndoChunck_run, wrapperSelected_run. by fields.
Qed.

(** C3.  [soloLights] first deletes what is named as the two layers; let
    [S], not empty, be the lights the classifier then answers for the
    selection and [L] the lights [_getAllLights] finds in the scene.  After
    [soloLights] the layer "displayedLights" holds exactly [S], the layer
    "mutedLights" has visibility 0 and holds exactly the lights of [L] not
    in [S]; no light is in both and together they hold [L]. *)
Theorem soloLights_layers self w S L :
  (_onlyLightsFromSelection self false (hierarchy_isChecked self)
     (restoreLights self (opened w)).2).1 = Return (Some S) →
  S ≠ [] →
  (_getAllLights self false (restoreLights self (opened w)).2).1 = Return (Some L) →
  ∃ displayed muted,
    layers (soloLights self w).2 !! displayed_layer_name = Some displayed
    ∧ layers (soloLights self w).2 !! muted_layer_name = Some muted
    ∧ members displayed = S
    ∧ visibility muted = 0%Z
    ∧ (∀ x, x ∈ members muted ↔ x ∈ L ∧ x ∉ S)
    ∧ (∀ x, ¬ (x ∈ members displayed ∧ x ∈ members muted))
    ∧ (∀ x, x ∈ members displayed ∨ x ∈ members muted ↔ x ∈ L).
Proof.
  intros HS Hne HL.
  pose proof (selected_lights_among_all _ _ _ _ _ HS HL) as Hsub.
  destruct (soloLights_body_layers self (opened w) S L HS Hne HL) as [_ Hlayers].
  rewrite soloLights_run_layers, Hlayers.
  eexists _, _. split; [apply lookup_insert_eq|].
  split; [rewrite lookup_insert_ne by done; apply lookup_insert_eq|].
  simpl. split; [done|]. split; [done|].
  assert (∀ x, x ∈ elements ((list_to_set L : gset string) ∖ list_to_set S)
               ↔ x ∈ L ∧ x ∉ S) as Hmuted.
  { intros x. rewrite elem_of_elements, elem_of_difference, !elem_of_list_to_set. done. }
  split; [exact Hmuted|]. split.
  - intros x [Hx Hm]. apply Hmuted in Hm as [_ Hm]. done.
  - intros x. rewrite Hmuted. split.
    + intros [Hx|[Hx _]]; auto.
    + intros Hx. destruct (decide (x ∈ S)); auto.
Qed.

Lemma soloLights_layers_witness :
  ((_onlyLightsFromSelection panel false (hierarchy_isChecked panel)
      (restoreLights panel (opened studio_key_selected)).2).1 = Return (Some ["key"])
   ∧ ["key"] ≠ []
   ∧ (_getAllLights panel false (restoreLights panel (opened studio_key_selected)).2).1
     = Return (Some ["key"; "fill"; "rim"]))
  ∧ ∃ displayed muted,
      layers (soloLights panel studio_key_selected).2 !! displayed_layer_name = Some displayed
      ∧ layers (soloLights panel studio_key_selected).2 !! muted_layer_name = Some muted
      ∧ members displayed = ["key"]
      ∧ visibility muted = 0%Z
      ∧ (∀ x, x ∈ members muted ↔ x ∈ ["key"; "fill"; "rim"] ∧ x ∉ ["key"])
      ∧ (∀ x, ¬ (x ∈ members displayed ∧ x ∈ members muted))
      ∧ (∀ x, x ∈ members displayed ∨ x ∈ members muted ↔ x ∈ ["key"; "fill"; "rim"]).
Proof.
  assert ((_onlyLightsFromSelection panel false (hierarchy_isChecked panel)
             (restoreLights panel (opened studio_key_selected)).2).1 = Return (Some ["key"]))
    as HS by (vm_compute; reflexivity).
  assert (["key"] ≠ ([] : list string)) as Hne by discriminate.
  assert ((_getAllLights panel false (restoreLights panel (opened studio_key_selected)).2).1
          = Return (Some ["key"; "fill"; "rim"])) as HL by (vm_compute; reflexivity).
  split; [by repeat split|].
  exact (soloLights_layers panel studio_key_selected ["key"] ["key"; "fill"; "rim"] HS Hne HL).
Defined.

Example soloLights_studio :
  layers studio_soloed !! "displayedLights" = Some (mkLayer ["key"] 1 22)
  ∧ layers studio_soloed !! "mutedLights" = Some (mkLayer ["fill"; "rim"] 0 21)
  ∧ (soloLights panel studio_key_selected).1 = Return None.
Proof. repeat split; vm_compute; reflexivity. Qed.

(** C4: the return value.  The body of [restoreLights] computes [True]
    exactly when one of the two names was taken, but the method the panel
    calls is the decorated one, and [_wrapperUndoChunck] returns nothing:
    with both layers in the scene the call deletes them and returns [None],
    not [True]. *)
Theorem restoreLights_returns_None_not_True :
  objExists studio_soloed displayed_layer_name = true
  ∧ objExists studio_soloed muted_layer_name = true
  ∧ (restoreLights_body panel (opened studio_soloed)).1 = Return true
  ∧ (restoreLights panel studio_soloed).1 = Return None
  ∧ layers (restoreLights panel studio_soloed).2 = ∅.
Proof. repeat split; vm_compute; reflexivity. Qed.

(** The same on every scene: the decorated [restoreLights] always answers
    [None], and its body the disjunction. *)
Lemma restoreLights_always_None self w :
  (restoreLights self w).1 = Return None
  ∧ (restoreLights_body self w).1
    = Return (objExists w displayed_layer_name || objExists w muted_layer_name).
Proof.
  rewrite restoreLights_run. split; [done|].
  by destruct (restoreLights_body_run self w) as (-> & _).
Qed.

(** [muteLights] with a muted layer in the scene: the lights join it, and
    the scene has the same layers as before. *)
Lemma muteLights_body_existing self w lights y :
  (_onlyLightsFromSelection self false (hierarchy_isChecked self) w).1
  = Return (Some lights) →
  lights ≠ [] →
  objExists w muted_layer_name = true →
  layers w !! muted_layer_name = Some y →
  (muteLights_body self w).1 = Return (Some lights)
  ∧ layers (muteLights_body self w).2
    = <[muted_layer_name := mkLayer (members y ++ lights) (visibility y) (color y)]> (layers w).
Proof.
  intros HS Hne Hex Hy. unfold muteLights_body.
  rewrite (bind_Return _ _ _ _ _ (onlyLightsFromSelection_Some _ _ _ _ _ HS)).
  destruct lights as [|s S]; [done|].
  set (lights := s :: S) in *. set (w1 := with_log _ w).
  rewrite bind_get_world.
  change (objExists w1 muted_layer_name) with (objExists w muted_layer_name).
  rewrite Hex.
  destruct (addMembers_spec muted_layer_name lights w1 y Hy) as (w2 & R2 & N2 & L2 & S2).
  rewrite (bind_Return _ _ _ _ _ R2), bind_logger. unfold ret. cbn [fst snd layers with_log].
  split; [done|]. by rewrite L2.
Qed.

(** [muteLights] with no node named as the muted layer: one layer of that
    very name is made, hidden, with the lights. *)
Lemma muteLights_body_fresh self w lights :
  (_onlyLightsFromSelection self false (hierarchy_isChecked self) w).1
  = Return (Some lights) →
  lights ≠ [] →
  objExists w muted_layer_name = false →
  (muteLights_body self w).1 = Return (Some lights)
  ∧ layers (muteLights_body self w).2
    = <[muted_layer_name := mkLayer lights 0 21]> (layers w).
Proof.
  intros HS Hne Hex. unfold muteLights_body.
  rewrite (bind_Return _ _ _ _ _ (onlyLightsFromSelection_Some _ _ _ _ _ HS)).
  destruct lights as [|s S]; [done|].
  set (lights := s :: S) in *. set (w1 := with_log _ w).
  rewrite bind_get_world.
  change (objExists w1 muted_layer_name) with (objExists w muted_layer_name).
  rewrite Hex. unfold pm_select_clear.
  destruct (pm_select_spec [] w1) as (w2 & R2 & N2 & L2 & S2).
  destruct (new_layer_spec muted_layer_name lights 21 0 w2) as (w3 & R3 & N3 & L3 & S3).
  { rewrite N2. by apply objExists_false. }
  { done. }
  erewrite (bind_Return (bind (pm_select []) _));
    [|rewrite (bind_Return _ _ _ _ _ R2); exact R3].
  rewrite bind_logger. unfold ret. cbn [fst snd layers with_log].
  split; [done|]. by rewrite L3, L2.
Qed.

(** ** The attribute batch editor *)

Example increment_intensity :
  let w' := (setMultiAttributesLights panel "relative" studio_lights_selected).2 in
  attrs w' !! ("keyShape", "intensity") = Some ((1 # 2) + 1)%Q
  ∧ attrs w' !! ("fillShape", "intensity") = Some ((1 # 2) + 2)%Q
  ∧ attrs w' !! ("rimShape", "intensity") = None
  ∧ log w' = [(DEBUG, "_onlyLightsFromSelection : [keyShape, fillShape, rimShape]");
              (WARNING, "rimShape.intensity doesn't exist");
              (INFO, "'Multi set attributes' success")].
Proof. repeat split; vm_compute; reflexivity. Qed.

Example set_translateX :
  let w' := (setMultiAttributesLights (mkToolkit true false "translateX" 5) "absolute"
               studio_lights_selected).2 in
  attrs w' !! ("key", "translateX") = Some 5%Q
  ∧ attrs w' !! ("fill", "translateX") = Some 5%Q
  ∧ attrs w' !! ("keyShape", "intensity") = Some 1%Q.
Proof. repeat split; vm_compute; reflexivity. Qed.

(** One turn of the loops of [setMultiAttributesLights]. *)
Lemma set_or_increment_run mode n a v w :
  mode ∈ ["absolute"; "relative"] →
  ∃ w', set_or_increment mode n a v w = (Return tt, w')
        ∧ nodes w' = nodes w ∧ parents w' = parents w
        ∧ attrs w' = match attrs w !! (n, a) with
                     | Some cur => <[(n, a) := new_value mode v cur]> (attrs w)
                     | None => attrs w
                     end
        ∧ log w' = log w ++ missing_warnings a [n] (attrs w).
Proof.
  intros Hmode. unfold set_or_increment, missing_warnings, new_value. run.
  unfold attrExists. simpl.
  destruct (attrs w !! (n, a)) as [cur|] eqn:Hcur.
  - rewrite bool_decide_eq_true_2 by by eexists.
    destruct (decide (mode = "absolute")) as [->|Habs].
    + unfold setAttr. run. unfold attrExists. rewrite Hcur.
      rewrite bool_decide_eq_true_2 by by eexists. run.
      eexists. split; [done|]. fields. by rewrite app_nil_r.
    + assert (mode = "relative") as ->.
      { apply elem_of_cons in Hmode as [?|Hmode]; [done|].
        by apply list_elem_of_singleton in Hmode. }
      rewrite decide_True by done.
      unfold getAttr at 1. unfold bind at 1. rewrite Hcur.
      unfold setAttr. run. unfold attrExists. rewrite Hcur.
      rewrite bool_decide_eq_true_2 by by eexists. run.
      eexists. split; [done|]. fields. by rewrite app_nil_r.
  - rewrite bool_decide_eq_false_2 by (by intros [? ?]).
    eexists. split; [done|]. by fields.
Qed.

(** A batch over nodes that are all different: every node that has the
    attribute gets its new value from the value it had, nothing else
    changes, and the nodes without it are warned about in order.  [body]
    is what the loop runs on an item; it comes to [set_or_increment] on the
    node the item resolves to as long as the nodes and the DAG are the
    ones of [w0], which the updates do not touch. *)
Lemma batch_run mode a v w0 (body : string → M unit) items targets :
  mode ∈ ["absolute"; "relative"] →
  Forall2 (λ item t, ∀ w, nodes w = nodes w0 → parents w = parents w0 →
                          body item w = set_or_increment mode t a v w) items targets →
  NoDup targets →
  ∀ w, nodes w = nodes w0 → parents w = parents w0 →
  ∃ w', for_each items body w = (Return tt, w')
        ∧ nodes w' = nodes w ∧ parents w' = parents w
        ∧ (∀ n b, attrs w' !! (n, b)
                  = if decide (b = a ∧ n ∈ targets)
                    then new_value mode v <$> attrs w !! (n, a)
                    else attrs w !! (n, b))
        ∧ log w' = log w ++ missing_warnings a targets (attrs w).
Proof.
  intros Hmode Hbody. induction Hbody as [|item t items targets Hit _ IH];
    intros Hnd w Hn Hp.
  - exists w. simpl. repeat split; try done.
    + intros n b. rewrite decide_False; [done|]. intros [_ H]. by apply not_elem_of_nil in H.
    + by rewrite app_nil_r.
  - apply NoDup_cons in Hnd as [Hnotin Hnd]. simpl.
    destruct (set_or_increment_run mode t a v w Hmode) as (w1 & Hrun & Hn1 & Hp1 & Ha1 & Hl1).
    rewrite <- Hit in Hrun by done.
    rewrite (bind_Return _ _ _ _ _ Hrun).
    destruct (IH Hnd w1) as (w' & Hrun' & Hn' & Hp' & Ha' & Hl'); [congruence..|].
    exists w'. split; [done|]. split; [congruence|]. split; [congruence|]. split.
    + intros n b. rewrite Ha'. rewrite Ha1.
      destruct (decide (b = a ∧ n ∈ targets)) as [[-> Hin]|Hnot].
      * rewrite decide_True by (split; [done|by right]).
        assert (n ≠ t) by (intros ->; done).
        destruct (attrs w !! (t, a)); [|done].
        rewrite lookup_insert_ne by congruence. done.
      * destruct (decide (b = a ∧ n ∈ t :: targets)) as [[-> Hin]|Hnot'].
        -- apply elem_of_cons in Hin as [->|Hin]; [|by destruct Hnot].
           destruct (attrs w !! (t, a)) as [cur|] eqn:Hcur; [|by rewrite Hcur].
           by rewrite lookup_insert_eq.
        -- destruct (attrs w !! (t, a)); [|done].
           rewrite lookup_insert_ne; [done|].
           intros [= -> ->]. apply Hnot'. split; [done|by left].
    + rewrite Hl', Hl1. rewrite <- app_assoc. f_equal.
      unfold missing_warnings. simpl. rewrite Ha1.
      destruct (attrs w !! (t, a)) as [cur|] eqn:Hcur; simpl; [|done].
      clear -Hnotin. induction targets as [|x xs IHx]; simpl; [done|].
      apply not_elem_of_cons in Hnotin as [Hx Hxs].
      rewrite lookup_insert_ne by congruence.
      destruct (attrs w !! (x, a)); [by apply IHx|]. f_equal. by apply IHx.
Qed.


Lemma onlyLightsFromSelection_nonempty self ah w lights :
  (_onlyLightsFromSelection self true ah w).1 = Return (Some lights) → lights ≠ [].
Proof.
  unfold _onlyLightsFromSelection. rewrite bind_get_world.
  destruct (decide _) as [|Hne]; [done|].
  rewrite bind_ret, bind_logger. unfold ret. cbn [fst]. intros H. injection H as <-. done.
Qed.

Lemma setMultiAttributesLights_run self mode w :
  setMultiAttributesLights self mode w
  = (Return None, closed (setMultiAttributesLights_body self mode (opened w)).2)
  ∨ ∃ e, (setMultiAttributesLights_body self mode (opened w)).1 = Raise e.
Proof.
  unfold setMultiAttributesLights. rewrite wrapperUndoChunck_run.
  destruct (setMultiAttributesLights_body self mode (opened w)).1; [by left|right; by eexists].
Qed.

(** The two loops of the body, on a scene [w1] whose nodes, DAG and
    selection are those of [w]. *)
Lemma setMultiAttributesLights_loop self mode w w1 lights targets :
  mode ∈ ["absolute"; "relative"] →
  nodes w1 = nodes w → parents w1 = parents w → selection w1 = selection w →
  batch_targets self w lights targets →
  NoDup targets →
  ∃ w', (if decide (comboBox_multiAttr self ∈ lgt_attrs self) then
           for_each lights (λ light, set_or_increment mode light (comboBox_multiAttr self)
                                       (doubleSpinBox_multiAttr self))
         else
           selected <- pm_selected ;;
           for_each selected (λ selected,
             w <- get_world ;;
             selected <- (if decide (nodeType w selected ≠ "transform")
                          then getParent selected else ret selected) ;;
             set_or_increment mode selected (comboBox_multiAttr self)
               (doubleSpinBox_multiAttr self))) w1
        = (Return tt, w')
        ∧ (∀ n b, attrs w' !! (n, b)
                  = if decide (b = comboBox_multiAttr self ∧ n ∈ targets)
                    then new_value mode (doubleSpinBox_multiAttr self)
                           <$> attrs w1 !! (n, comboBox_multiAttr self)
                    else attrs w1 !! (n, b))
        ∧ log w' = log w1 ++ missing_warnings (comboBox_multiAttr self) targets (attrs w1).
Proof.
  intros Hmode Hn Hp Hs Ht Hnd. unfold batch_targets in Ht.
  destruct (decide (comboBox_multiAttr self ∈ lgt_attrs self)) as [Ha|Ha].
  - subst targets.
    destruct (batch_run mode (comboBox_multiAttr self) (doubleSpinBox_multiAttr self) w1
                (λ light, set_or_increment mode light (comboBox_multiAttr self)
                            (doubleSpinBox_multiAttr self)) lights lights Hmode)
      with (w := w1) as (w' & R & _ & _ & A & L); try done.
    { clear. induction lights; constructor; auto. }
    by exists w'.
  - rewrite bind_pm_selected, Hs.
    edestruct (batch_run mode (comboBox_multiAttr self) (doubleSpinBox_multiAttr self) w1)
      with (w := w1) as (w' & R & _ & _ & A & L); [exact Hmode| |exact Hnd|done|done|].
    2: { exists w'. split; [exact R|]. by split. }
    eapply Forall2_impl; [exact Ht|].
    intros item t Hit w2 Hn2 Hp2. cbv beta in *.
    rewrite bind_get_world.
    assert (nodeType w2 item = nodeType w item) as ->
      by (unfold nodeType; by rewrite Hn2, Hn).
    destruct (decide (nodeType w item ≠ "transform")).
    + unfold bind at 1, getParent. by rewrite Hp2, Hp, Hit.
    + rewrite bind_ret. by subst.
Qed.




(** ** Unused light filters *)

Example unused_blockers :
  (getUnusedLightFilters panel "aiLightBlocker" stage).1
  = Return (Some (<["disconnected" := PyList (disconnected_filters stage "aiLightBlocker")]>
                  (<["null" := PyList (null_filters stage "aiLightBlocker")]>
                   (<["type" := PyStr "aiLightBlocker"]> ∅))))
  ∧ disconnected_filters stage "aiLightBlocker" = ["blkCShape"]
  ∧ null_filters stage "aiLightBlocker" ≡ₚ ["blkAShape"; "blkDShape"]
  ∧ (getUnusedLightFilters panel "aiLightDecay" stage).1 = Return None.
Proof.
  split; [vm_compute; reflexivity|]. split; [vm_compute; reflexivity|].
  split; [|vm_compute; reflexivity].
  vm_compute. first [reflexivity | apply perm_swap].
Qed.

Lemma filterM_pure (p : string → M bool) (q : string → bool) l w :
  Forall (λ x, p x w = (Return (q x), w)) l →
  filterM p l w = (Return (filter (λ x, q x = true) l), w).
Proof.
  induction 1 as [|x l Hx _ IH]; [done|].
  cbn [filterM]. rewrite (bind_Return _ _ _ _ _ Hx), (bind_Return _ _ _ _ _ IH).
  rewrite filter_cons. unfold ret. by destruct (q x).
Qed.

Lemma filter_filter_and {A} (P Q : A → Prop) `{∀ x, Decision (P x)} `{∀ x, Decision (Q x)}
    (l : list A) :
  filter Q (filter P l) = filter (λ x, P x ∧ Q x) l.
Proof.
  induction l as [|x l IH]; [done|]. rewrite !filter_cons.
  destruct (decide (P x)).
  - rewrite filter_cons. destruct (decide (Q x)).
    + rewrite decide_True by done. by rewrite IH.
    + rewrite decide_False by tauto. done.
  - rewrite decide_False by tauto. done.
Qed.

Lemma null_test_blocker w x :
  is_Some (attrs w !! (x, "density")) →
  (d <- getAttr x "density" ;; ret (py_not d)) w = (Return (zero_attr w x "density"), w).
Proof.
  intros [d Hd]. unfold bind, getAttr, zero_attr. by rewrite Hd.
Qed.

Lemma null_test_decay w x :
  is_Some (attrs w !! (x, "useNearAtten")) → is_Some (attrs w !! (x, "useFarAtten")) →
  (near <- getAttr x "useNearAtten" ;;
   if py_not near then far <- getAttr x "useFarAtten" ;; ret (py_not far) else ret false) w
  = (Return (zero_attr w x "useNearAtten" && zero_attr w x "useFarAtten"), w).
Proof.
  intros [n Hn] [f Hf]. unfold bind at 1, getAttr at 1, zero_attr. rewrite Hn, Hf.
  unfold py_not. destruct (Qeq_bool n 0); [|done].
  unfold bind, getAttr. by rewrite Hf.
Qed.

(** C6, as amended.  With the attributes of the test on every connected
    filter, [getUnusedLightFilters] answers [None] with a warning when the
    scene has no filter of the type, [None] when no filter of the type is
    disconnected or null, and otherwise the dict with the disconnected
    filters under "disconnected", the null ones under "null" and the filter
    type under "type"; no filter is in both lists. *)
Theorem getUnusedLightFilters_classifies self ai_filter w :
  ai_filter ∈ ["aiLightBlocker"; "aiLightDecay"] →
  Forall (has_filter_attrs w ai_filter)
         (filter (λ x, outputs w x ≠ []) (ls w ai_filter)) →
  (∀ x, x ∈ disconnected_filters w ai_filter ↔ x ∈ ls w ai_filter ∧ outputs w x = [])
  ∧ (∀ x, x ∈ null_filters w ai_filter
          ↔ x ∈ ls w ai_filter ∧ outputs w x ≠ [] ∧ null_filter w ai_filter x = true)
  ∧ (∀ x, ¬ (x ∈ disconnected_filters w ai_filter ∧ x ∈ null_filters w ai_filter))
  ∧ getUnusedLightFilters self ai_filter w
    = if decide (ls w ai_filter = []) then
        (Return None, with_log (λ l, l ++ [(WARNING, "No " +:+ ai_filter +:+ " found")]) w)
      else if decide (disconnected_filters w ai_filter = [] ∧ null_filters w ai_filter = [])
      then (Return None, with_log (λ l, l ++ [(INFO, "All filters is used.")]) w)
      else (Return (Some (<["disconnected" := PyList (disconnected_filters w ai_filter)]>
                          (<["null" := PyList (null_filters w ai_filter)]>
                           (<["type" := PyStr ai_filter]> ∅)))),
            w).
Proof.
  intros Hf Hattrs.
  assert (∀ x, x ∈ disconnected_filters w ai_filter ↔ x ∈ ls w ai_filter ∧ outputs w x = [])
    as Hdisc.
  { intros x. unfold disconnected_filters. rewrite list_elem_of_filter. tauto. }
  assert (∀ x, x ∈ null_filters w ai_filter
               ↔ x ∈ ls w ai_filter ∧ outputs w x ≠ [] ∧ null_filter w ai_filter x = true)
    as Hnull.
  { intros x. unfold null_filters. rewrite list_elem_of_filter. tauto. }
  split; [exact Hdisc|]. split; [exact Hnull|]. split.
  { intros x [H1 H2]. apply Hdisc in H1 as [_ H1]. apply Hnull in H2 as (_ & H2 & _). done. }
  unfold getUnusedLightFilters.
  rewrite decide_True by (rewrite !elem_of_cons in Hf |- *; tauto).
  rewrite bind_get_world.
  destruct (decide (ls w ai_filter = [])) as [Hnil|Hnil]; [by rewrite bind_logger|].
  fold (disconnected_filters w ai_filter).
  set (connected := filter (λ x, outputs w x ≠ []) (ls w ai_filter)) in *.
  assert (filter (λ x, null_filter w ai_filter x = true) connected = null_filters w ai_filter)
    as Hnf by apply filter_filter_and.
  destruct (decide (ai_filter = "aiLightBlocker")) as [->|Hnb].
  - rewrite decide_False by done.
    erewrite bind_Return.
    2: { apply (filterM_pure _ (λ x, zero_attr w x "density")).
         eapply Forall_impl; [exact Hattrs|]. intros x Hx. by apply null_test_blocker. }
    rewrite bind_ret. rewrite app_nil_r.
    change (filter (λ x, zero_attr w x "density" = true) connected)
      with (filter (λ x, null_filter w "aiLightBlocker" x = true) connected).
    rewrite Hnf. by destruct (decide _).
  - assert (ai_filter = "aiLightDecay") as ->.
    { rewrite !elem_of_cons in Hf. destruct Hf as [?|[?|Hf]]; [done..|].
      by apply not_elem_of_nil in Hf. }
    rewrite decide_True by done. rewrite bind_ret.
    erewrite bind_Return.
    2: { apply (filterM_pure _ (λ x, zero_attr w x "useNearAtten"
                                     && zero_attr w x "useFarAtten")).
         eapply Forall_impl; [exact Hattrs|]. intros x [Hn Hfar].
         by apply null_test_decay. }
    cbn [app].
    change (filter (λ x, zero_attr w x "useNearAtten" && zero_attr w x "useFarAtten" = true)
              connected)
      with (filter (λ x, null_filter w "aiLightDecay" x = true) connected).
    rewrite Hnf. by destruct (decide _).
Qed.

Lemma getUnusedLightFilters_classifies_witness :
  ("aiLightBlocker" ∈ ["aiLightBlocker"; "aiLightDecay"]
   ∧ Forall (has_filter_attrs stage "aiLightBlocker")
            (filter (λ x, outputs stage x ≠ []) (ls stage "aiLightBlocker")))
  ∧ ((∀ x, x ∈ disconnected_filters stage "aiLightBlocker"
           ↔ x ∈ ls stage "aiLightBlocker" ∧ outputs stage x = [])
     ∧ (∀ x, x ∈ null_filters stage "aiLightBlocker"
             ↔ x ∈ ls stage "aiLightBlocker" ∧ outputs stage x ≠ []
               ∧ null_filter stage "aiLightBlocker" x = true)
     ∧ (∀ x, ¬ (x ∈ disconnected_filters stage "aiLightBlocker"
                ∧ x ∈ null_filters stage "aiLightBlocker"))
     ∧ getUnusedLightFilters panel "aiLightBlocker" stage
       = if decide (ls stage "aiLightBlocker" = []) then
           (Return None,
            with_log (λ l, l ++ [(WARNING, "No " +:+ "aiLightBlocker" +:+ " found")]) stage)
         else if decide (disconnected_filters stage "aiLightBlocker" = []
                         ∧ null_filters stage "aiLightBlocker" = [])
         then (Return None, with_log (λ l, l ++ [(INFO, "All filters is used.")]) stage)
         else (Return (Some (<["disconnected" :=
                                 PyList (disconnected_filters stage "aiLightBlocker")]>
                             (<["null" := PyList (null_filters stage "aiLightBlocker")]>
                              (<["type" := PyStr "aiLightBlocker"]> ∅)))),
               stage)).
Proof.
  assert ("aiLightBlocker" ∈ ["aiLightBlocker"; "aiLightDecay"]) as Hf by left.
  assert (Forall (has_filter_attrs stage "aiLightBlocker")
                 (filter (λ x, outputs stage x ≠ []) (ls stage "aiLightBlocker"))) as Ha.
  { apply (bool_decide_unpack _). vm_compute. exact I. }
  split; [by split|].
  exact (getUnusedLightFilters_classifies panel "aiLightBlocker" stage Hf Ha).
Defined.

(** C6, as the claim words it, fails: the dict is not made of the two lists
    alone, it has the filter type under a third key. *)
Lemma getUnusedLightFilters_dict_has_type :
  ¬ (∀ self ai_filter w d,
       ai_filter ∈ ["aiLightBlocker"; "aiLightDecay"] →
       (getUnusedLightFilters self ai_filter w).1 = Return (Some d) →
       ∀ key, is_Some (d !! key) → key = "disconnected" ∨ key = "null").
Proof.
  intros H.
  destruct (H panel "aiLightBlocker" stage
              (<["disconnected" := PyList (disconnected_filters stage "aiLightBlocker")]>
               (<["null" := PyList (null_filters stage "aiLightBlocker")]>
                (<["type" := PyStr "aiLightBlocker"]> ∅)))) with "type" as [E|E].
  - left.
  - vm_compute. reflexivity.
  - by eexists.
  - discriminate.
  - discriminate.
Qed.

(** ** Missing guards *)

(** [breakAllLinks] with no light among the nodes it looks at: the
    classifier answers [None] and the loop over it is a [TypeError]. *)
Lemma breakAllLinks_no_light self w :
  spec_onlyLights self false w = [] →
  breakAllLinks self w
  = (Raise TypeError, with_log (λ l, l ++ [(WARNING, "No lights selected")]) w).
Proof.
  intros Hnil.
  pose proof (omap_light_shape self w (candidates false w)) as Hshapes.
  unfold spec_onlyLights in Hnil. rewrite Hnil in Hshapes.
  apply Forall2_nil_inv_l in Hshapes.
  unfold breakAllLinks, _onlyLightsFromSelection.
  rewrite bind_assoc, bind_get_world, decide_True by done.
  by rewrite bind_assoc, bind_logger.
Qed.

(** C2: the two operations the claim names.  [createSet] with nothing
    selected raises [IndexError] (it reads the last selected node before any
    test), and [breakAllLinks] with nothing selected, or with only a cube
    selected, raises [TypeError] (it loops over the [None] of the
    classifier); neither logs and returns. *)
Theorem createSet_breakAllLinks_raise self prompt w :
  createSet self prompt (with_selection [] w)
  = (Raise IndexError, closed (opened (with_selection [] w)))
  ∧ breakAllLinks self (with_selection [] w)
    = (Raise TypeError,
       with_log (λ l, l ++ [(WARNING, "No lights selected")]) (with_selection [] w))
  ∧ (breakAllLinks panel (with_selection ["cube"] studio)).1 = Raise TypeError.
Proof.
  split; [|split].
  - unfold createSet. rewrite wrapperUndoChunck_run.
    unfold createSet_body. rewrite bind_pm_selected, opened_selection. done.
  - by apply breakAllLinks_no_light.
  - vm_compute. reflexivity.
Qed.

(** ** Light linking *)


(** ** Linking a filter to lights *)

(** As many connected indices, as many connections. *)
Lemma connected_prefix_size (m : gmap (string * nat) string) l n :
  (∀ j, j < n → is_Some (m !! (l, j))) → n ≤ size m.
Proof.
  revert m. induction n as [|n IH]; intros m H; [lia|].
  destruct (H n) as [f Hf]; [lia|].
  rewrite <- (insert_delete_id m (l, n) f) by done.
  rewrite map_size_insert_None by apply lookup_delete_eq.
  apply le_n_S, IH. intros j Hj.
  rewrite lookup_delete_ne by (intros [= ?]; lia). apply H. lia.
Qed.

(** The scan stops on a free index, with only connected indices behind
    it, unless it runs out of fuel. *)
Lemma first_free_index_scan fuel i w lgt :
  let r := first_free_index fuel i w lgt in
  i ≤ r ∧ (∀ j, i ≤ j < r → is_Some (aiFilters w !! (lgt, j)))
  ∧ (aiFilters w !! (lgt, r) = None ∨ r = i + fuel).
Proof.
  revert i. induction fuel as [|fuel IH]; intros i; cbn [first_free_index].
  - split; [lia|]. split; [intros j ?; lia|]. right. lia.
  - unfold isDestination. destruct (aiFilters w !! (lgt, i)) as [f|] eqn:Hi.
    + rewrite bool_decide_eq_true_2 by by eexists.
      destruct (IH (S i)) as (Hle & Hall & Hr). split; [lia|]. split.
      * intros j Hj. destruct (decide (j = i)) as [->|]; [by eexists|]. apply Hall. lia.
      * destruct Hr as [Hr|Hr]; [by left|right; lia].
    + rewrite bool_decide_eq_false_2 by (by intros [? ?]).
      split; [lia|]. split; [intros j ?; lia|]. by left.
Qed.

(** With one turn more than the scene has connections the scan finds the
    lowest free index. *)
Lemma first_free_index_least w lgt :
  let i := first_free_index (S (size (aiFilters w))) 0 w lgt in
  aiFilters w !! (lgt, i) = None ∧ ∀ j, j < i → is_Some (aiFilters w !! (lgt, j)).
Proof.
  destruct (first_free_index_scan (S (size (aiFilters w))) 0 w lgt) as (_ & Hall & Hr).
  cbv zeta. split; [|intros j Hj; apply Hall; lia].
  destruct Hr as [Hr|Hr]; [done|]. exfalso.
  pose proof (connected_prefix_size (aiFilters w) lgt
                (first_free_index (S (size (aiFilters w))) 0 w lgt)) as Hsz.
  specialize (Hsz (λ j Hj, Hall j (conj (Nat.le_0_l j) Hj))). lia.
Qed.

(** A filter feeding an index of the light is among the inputs of the
    light. *)
Lemma elem_of_inputs w lgt f :
  f ∈ inputs w lgt
  ↔ (∃ i, aiFilters w !! (lgt, i) = Some f) ∨ f ∈ default [] (otherInputs w !! lgt).
Proof.
  unfold inputs. rewrite elem_of_app, list_elem_of_fmap. split.
  - intros [([[l i] v] & -> & H)|H]; [left|by right].
    apply elem_of_map_to_list, map_lookup_filter_Some in H as [H Hl].
    cbn in Hl. subst. by exists i.
  - intros [[i Hi]|H]; [left|by right].
    exists ((lgt, i), f). split; [done|].
    by apply elem_of_map_to_list, map_lookup_filter_Some.
Qed.

Lemma link_filter_linked filtr transform_filter lgt w :
  filtr ∈ inputs w lgt ∨ transform_filter ∈ inputs w lgt →
  link_filter filtr transform_filter lgt w = (Return tt, w).
Proof.
  intros H. unfold link_filter. rewrite bind_get_world.
  rewrite decide_False; [done|]. intros [? ?]. tauto.
Qed.

Lemma link_filter_fresh filtr transform_filter lgt w :
  (filtr ∉ inputs w lgt) ∧ (transform_filter ∉ inputs w lgt) →
  link_filter filtr transform_filter lgt w
  = (Return tt,
     with_aiFilters
       (insert (lgt, first_free_index (S (size (aiFilters w))) 0 w lgt) filtr)
       (recorded (CmdConnect filtr lgt (first_free_index (S (size (aiFilters w))) 0 w lgt))
          w)).
Proof.
  intros H. unfold link_filter. rewrite bind_get_world.
  rewrite decide_True by done. done.
Qed.

(** C10.  One pair of a filter and a light in [linkLightFilterToLights]:
    when the filter or its transform is among the inputs of the light, the
    scene is left as it is; otherwise the filter is connected to the lowest
    index of [aiFilters] that has no connection.  Either way a second run
    on the pair does nothing, and a filter that fed at most one index of a
    light still does. *)
Theorem link_filter_idempotent filtr transform_filter lgt w :
  (filtr ∈ inputs w lgt ∨ transform_filter ∈ inputs w lgt →
   link_filter filtr transform_filter lgt w = (Return tt, w))
  ∧ ((filtr ∉ inputs w lgt) ∧ (transform_filter ∉ inputs w lgt) →
     ∃ i, aiFilters w !! (lgt, i) = None
          ∧ (∀ j, j < i → is_Some (aiFilters w !! (lgt, j)))
          ∧ link_filter filtr transform_filter lgt w
            = (Return tt,
               with_aiFilters (insert (lgt, i) filtr) (recorded (CmdConnect filtr lgt i) w)))
  ∧ link_filter filtr transform_filter lgt (link_filter filtr transform_filter lgt w).2
    = (Return tt, (link_filter filtr transform_filter lgt w).2)
  ∧ (∀ f l, connected_once w f l
            → connected_once (link_filter filtr transform_filter lgt w).2 f l).
Proof.
  split; [apply link_filter_linked|]. split.
  { intros H. eexists. destruct (first_free_index_least w lgt) as [H1 H2].
    split; [exact H1|]. split; [exact H2|]. by apply link_filter_fresh. }
  destruct (decide ((filtr ∉ inputs w lgt) ∧ (transform_filter ∉ inputs w lgt)))
    as [Hfresh|Hlinked].
  - rewrite (link_filter_fresh _ _ _ _ Hfresh). cbn [snd].
    destruct (first_free_index_least w lgt) as [Hfree _].
    set (i := first_free_index _ _ _ _) in *. split.
    + apply link_filter_linked. left. apply elem_of_inputs. left. exists i.
      cbn [aiFilters with_aiFilters]. by rewrite lookup_insert_eq.
    + intros f l Honce a b. cbn [aiFilters with_aiFilters].
      rewrite recorded_aiFilters.
      destruct Hfresh as [Hf _].
      assert (∀ k, aiFilters w !! (lgt, k) ≠ Some filtr) as Hno.
      { intros k Hk. apply Hf, elem_of_inputs. left. by exists k. }
      destruct (decide ((lgt, i) = (l, a))) as [Ea|Ea],
               (decide ((lgt, i) = (l, b))) as [Eb|Eb].
      * congruence.
      * rewrite Ea at 1. rewrite lookup_insert_eq, lookup_insert_ne by done.
        intros [= <-] Hb. injection Ea as <- <-. by destruct (Hno b).
      * rewrite Eb at 2. rewrite lookup_insert_ne, lookup_insert_eq by done.
        intros Ha [= <-]. injection Eb as <- <-. by destruct (Hno a).
      * rewrite !lookup_insert_ne by done. apply Honce.
  - assert (filtr ∈ inputs w lgt ∨ transform_filter ∈ inputs w lgt) as H.
    { destruct (decide (filtr ∈ inputs w lgt)); [by left|].
      destruct (decide (transform_filter ∈ inputs w lgt)); [by right|]. tauto. }
    rewrite (link_filter_linked _ _ _ _ H). cbn [snd].
    split; [by apply link_filter_linked|]. done.
Qed.

Lemma link_filter_idempotent_witness :
  (("blkAShape" ∈ inputs stage "keyShape" ∨ "blkA" ∈ inputs stage "keyShape")
   ∧ link_filter "blkAShape" "blkA" "keyShape" stage = (Return tt, stage))
  ∧ ((("blkCShape" ∉ inputs stage "keyShape") ∧ ("blkC" ∉ inputs stage "keyShape"))
     ∧ ∃ i, aiFilters stage !! ("keyShape", i) = None
            ∧ (∀ j, j < i → is_Some (aiFilters stage !! ("keyShape", j)))
            ∧ link_filter "blkCShape" "blkC" "keyShape" stage
              = (Return tt,
                 with_aiFilters (insert ("keyShape", i) "blkCShape")
                   (recorded (CmdConnect "blkCShape" "keyShape" i) stage)))
  ∧ (connected_once stage "blkCShape" "keyShape"
     ∧ connected_once (link_filter "blkCShape" "blkC" "keyShape" stage).2
         "blkCShape" "keyShape").
Proof.
  assert (inputs stage "keyShape" = ["blkDShape"; "blkAShape"; "blkBShape"]) as Hin
    by (vm_compute; reflexivity).
  assert ("blkAShape" ∈ inputs stage "keyShape" ∨ "blkA" ∈ inputs stage "keyShape") as H1
    by (left; rewrite Hin; right; left).
  assert (("blkCShape" ∉ inputs stage "keyShape") ∧ ("blkC" ∉ inputs stage "keyShape")) as H2
    by (rewrite Hin; split; compute_done).
  assert (connected_once stage "blkCShape" "keyShape") as H3.
  { intros i j Hi _. exfalso. apply (proj1 H2), elem_of_inputs. left. by exists i. }
  split; [|split].
  - split; [exact H1|].
    exact (proj1 (link_filter_idempotent "blkAShape" "blkA" "keyShape" stage) H1).
  - split; [exact H2|].
    exact (proj1 (proj2 (link_filter_idempotent "blkCShape" "blkC" "keyShape" stage)) H2).
  - split; [exact H3|].
    exact (proj2 (proj2 (proj2 (link_filter_idempotent "blkCShape" "blkC" "keyShape" stage)))
             _ _ H3).
Defined.

Example link_blocker_to_two_lights :
  let w' := (linkLightFilterToLights panel "aiLightBlocker" stage_link_selected).2 in
  aiFilters w' !! ("keyShape", 3) = Some "blkCShape"
  ∧ aiFilters w' !! ("fillShape", 1) = Some "blkCShape"
  ∧ size (aiFilters w') = 6
  ∧ map_to_list (aiFilters (linkLightFilterToLights panel "aiLightBlocker" w').2)
    = map_to_list (aiFilters w').
Proof. cbv zeta. split_and!; vm_compute; reflexivity. Qed.

(** ** Deleting unused filters *)

Lemma disconnect_spec src light i w :
  aiFilters w !! (light, i) = Some src →
  ∃ w', disconnect src light i w = (Return tt, w')
        ∧ aiFilters w' = delete (light, i) (aiFilters w)
        ∧ nodes w' = nodes w ∧ parents w' = parents w ∧ hierarchy w' = hierarchy w.
Proof.
  intros H. unfold disconnect. rewrite bind_get_world, decide_True by done.
  rewrite bind_record. eexists. split; [reflexivity|].
  cbn [aiFilters nodes parents hierarchy with_aiFilters].
  by rewrite recorded_aiFilters, recorded_nodes, recorded_parents, recorded_hierarchy.
Qed.

Lemma disconnect_absent src light i w :
  aiFilters w !! (light, i) ≠ Some src →
  disconnect src light i w = (Raise RuntimeError, w).
Proof. intros H. unfold disconnect. by rewrite bind_get_world, decide_False. Qed.

Lemma connect_spec src light i w :
  ∃ w', connect src light i w = (Return tt, w')
        ∧ aiFilters w' = <[(light, i) := src]> (aiFilters w)
        ∧ nodes w' = nodes w ∧ parents w' = parents w ∧ hierarchy w' = hierarchy w.
Proof.
  unfold connect. rewrite bind_record. eexists. split; [reflexivity|].
  cbn [aiFilters nodes parents hierarchy with_aiFilters].
  by rewrite recorded_aiFilters, recorded_nodes, recorded_parents, recorded_hierarchy.
Qed.

(** A map whose keys are the first [n] indices of one light has [n]
    entries. *)
Lemma dense_size (m : gmap (string * nat) string) l n :
  (∀ k, is_Some (m !! k) ↔ ∃ j, k = (l, j) ∧ j < n) → size m = n.
Proof.
  revert m. induction n as [|n IH]; intros m H.
  - apply map_size_empty_iff, map_empty. intros k. apply eq_None_not_Some.
    intros Hk. apply H in Hk as (j & _ & Hj). lia.
  - destruct (proj2 (H (l, n))) as [f Hf]; [exists n; split; [done|lia]|].
    rewrite <- (insert_delete_id m (l, n) f) by done.
    rewrite map_size_insert_None by apply lookup_delete_eq.
    f_equal. apply IH. intros k. destruct (decide (k = (l, n))) as [->|Hk].
    + rewrite lookup_delete_eq. split; [by intros [? ?]|].
      intros (j & [= <-] & Hj). lia.
    + rewrite lookup_delete_ne by done. rewrite H. split.
      * intros (j & -> & Hj). exists j. split; [done|].
        assert (j ≠ n) by congruence. lia.
      * intros (j & -> & Hj). exists j. split; [done|lia].
Qed.

(** On a light whose connections are the list [fs] from index 0 on,
    [num_filter] is the length of the list. *)
Lemma num_filter_dense w light fs :
  (∀ j, aiFilters w !! (light, j) = fs !! j) → num_filter w light = length fs.
Proof.
  intros H. unfold num_filter. apply (dense_size _ light). intros [l j]. split.
  - intros [f Hf]. apply map_lookup_filter_Some in Hf as [Hf Hl]. cbn in Hl. subst l.
    exists j. split; [done|]. rewrite H in Hf. by eapply lookup_lt_Some.
  - intros (j' & [= -> ->] & Hj). apply lookup_lt_is_Some_2 in Hj as [f Hf].
    exists f. apply map_lookup_filter_Some. by rewrite H.
Qed.

Lemma shifting_done fs k j : k < length fs → shifting fs k (length fs) j = delete k fs !! j.
Proof.
  intros Hk. unfold shifting. rewrite decide_False by lia.
  destruct (decide (j < length fs - 1)); [done|].
  assert (delete k fs !! j = None) as ->
    by (apply lookup_ge_None; rewrite length_delete by (by apply lookup_lt_is_Some_2); lia).
  destruct (decide (j = length fs - 1)); [done|].
  apply lookup_ge_None. lia.
Qed.

(** The loop on a light whose connections are a list from index 0 on. *)
Lemma shift_filters_dense fs k f light remaining :
  fs !! k = Some f →
  ∀ i w, i + remaining = length fs →
  (∀ j, aiFilters w !! (light, j) = shifting fs k i j) →
  ∃ w', shift_filters remaining i f light k w = (Return tt, w')
        ∧ (∀ j, aiFilters w' !! (light, j) = shifting fs k (length fs) j)
        ∧ (∀ l j, l ≠ light → aiFilters w' !! (l, j) = aiFilters w !! (l, j))
        ∧ nodes w' = nodes w ∧ parents w' = parents w ∧ hierarchy w' = hierarchy w.
Proof.
  intros Hk. pose proof (lookup_lt_Some _ _ _ Hk) as Hlen.
  induction remaining as [|r IH]; intros i w Hi Inv.
  - exists w. cbn [shift_filters]. replace (length fs) with i by lia. by repeat split.
  - cbn [shift_filters].
    destruct (decide (i = k)) as [->|Hik].
    + (* the turn that frees index [k] *)
      destruct (disconnect_spec f light k w) as (w1 & R1 & A1 & N1 & P1 & H1).
      { rewrite Inv. unfold shifting. by rewrite decide_True. }
      rewrite (bind_Return _ _ _ _ _ R1).
      rewrite decide_False by lia. rewrite bind_ret.
      destruct (IH (S k) w1) as (w' & R & A & F & N & P & H); [lia| |].
      { intros j. rewrite A1.
        destruct (decide (j = k)) as [->|Hj].
        - rewrite lookup_delete_eq. unfold shifting.
          rewrite !decide_False by lia. by rewrite decide_True by lia.
        - rewrite lookup_delete_ne by congruence. rewrite Inv. unfold shifting.
          rewrite decide_True by done. rewrite decide_False by lia.
          destruct (decide (j < S k - 1)); [by rewrite list_lookup_delete_lt by lia|].
          by rewrite decide_False by lia. }
      exists w'. split; [exact R|]. split; [exact A|]. split.
      { intros l j Hl. rewrite F, A1 by done. by rewrite lookup_delete_ne by congruence. }
      repeat split; congruence.
    + rewrite bind_ret.
      destruct (decide (k < i)) as [Hlt|Hge].
      * (* a turn that moves the filter at [i] down to [i - 1] *)
        assert (is_Some (fs !! i)) as [g Hg] by (apply lookup_lt_is_Some_2; lia).
        assert (aiFilters w !! (light, i) = Some g) as Hsrc.
        { rewrite Inv. unfold shifting. by rewrite !decide_False by lia. }
        assert (sourceFromDestination light i w = (Return g, w)) as R0
          by (unfold sourceFromDestination; by rewrite Hsrc).
        destruct (disconnect_spec g light i w Hsrc) as (w1 & R1 & A1 & N1 & P1 & H1).
        destruct (connect_spec g light (i - 1) w1) as (w2 & R2 & A2 & N2 & P2 & H2).
        erewrite (bind_Return (bind (sourceFromDestination light i) _));
          [|rewrite (bind_Return _ _ _ _ _ R0), (bind_Return _ _ _ _ _ R1); exact R2].
        destruct (IH (S i) w2) as (w' & R & A & F & N & P & H); [lia| |].
        { intros j. rewrite A2, A1.
          destruct (decide (j = i - 1)) as [->|Hj1].
          - rewrite lookup_insert_eq. unfold shifting. rewrite decide_False by lia.
            rewrite decide_True by lia.
            rewrite list_lookup_delete_ge by lia. by replace (S (i - 1)) with i by lia.
          - rewrite lookup_insert_ne by (intros [= ?]; lia).
            destruct (decide (j = i)) as [->|Hj2].
            + rewrite lookup_delete_eq. unfold shifting.
              rewrite !decide_False by lia. by rewrite decide_True by lia.
            + rewrite lookup_delete_ne by congruence. rewrite Inv. unfold shifting.
              rewrite !(decide_False (P := _ ≤ k)) by lia.
              destruct (decide (j < i - 1)); [by rewrite decide_True by lia|].
              rewrite !decide_False by lia. done. }
        exists w'. split; [exact R|]. split; [exact A|]. split.
        { intros l j Hl. rewrite F, A2, A1 by done.
          rewrite lookup_insert_ne, lookup_delete_ne by congruence. done. }
        repeat split; congruence.
      * (* a turn before index [k]: nothing moves *)
        rewrite bind_ret.
        destruct (IH (S i) w) as (w' & R & A & F & N & P & H); [lia| |].
        { intros j. rewrite Inv. unfold shifting. by rewrite !decide_True by lia. }
        exists w'. by repeat split.
Qed.

Lemma delete_filter_gone f w :
  match parents w !! f with
  | Some t => objExists w f = true → objExists w t = true ∧ f ∈ getChildren_ad w t
  | None => True
  end →
  ∃ w', delete_filter f w = (Return tt, w') ∧ nodes w' !! f = None.
Proof.
  intros H. unfold delete_filter. rewrite bind_get_world.
  destruct (objExists w f) eqn:Hf; [|exists w; split; [done|by apply objExists_false]].
  destruct (parents w !! f) as [t|].
  - destruct (H eq_refl) as [Ht Hin]. exists (deleted t w).
    split; [by apply pm_delete_run|]. rewrite deleted_nodes by done.
    apply map_lookup_filter_None. right. intros ty _ Hn. apply Hn. cbn. by right.
  - exists (deleted f w). split; [by apply pm_delete_run|]. by apply deleted_nodes_gone.
Qed.




Example delete_unused_blockers :
  let w' := (deleteSafelyLightFilter panel "aiLightBlocker" stage).2 in
  map_to_list (aiFilters w') = [(("keyShape", 0), "blkBShape")]
  ∧ nodes w' !! "blkAShape" = None ∧ nodes w' !! "blkCShape" = None
  ∧ nodes w' !! "blkDShape" = None ∧ nodes w' !! "blkD" = None
  ∧ nodes w' !! "blkBShape" = Some "aiLightBlocker".
Proof. cbv zeta. split_and!; vm_compute; reflexivity. Qed.

(** ** The loop over the selection in [makeLightLinks] *)

Lemma list_remove_first_middle x (kept rest : list string) :
  x ∉ kept → list_remove_first x (kept ++ x :: rest) = kept ++ rest.
Proof.
  induction kept as [|y kept IH]; intros Hx; cbn [list_remove_first app].
  - by rewrite decide_True.
  - apply not_elem_of_cons in Hx as [Hxy Hx]. rewrite decide_False by done.
    by rewrite IH.
Qed.

(** The loop with the iterator at the end of [kept]. *)
Lemma expand_sets_skip w fuel :
  ∀ kept rest ch,
    NoDup (kept ++ rest) → length rest ≤ fuel →
    expand_sets fuel (length kept) w (kept ++ rest) ch
    = (kept ++ (skip_expand w rest).1, ch ++ (skip_expand w rest).2).
Proof.
  induction fuel as [fuel IH] using lt_wf_ind. intros kept rest ch Hnd Hfuel.
  destruct rest as [|x rest].
  - cbn [skip_expand fst snd]. rewrite !app_nil_r.
    destruct fuel; cbn [expand_sets]; [done|]. by rewrite lookup_ge_None_2.
  - destruct fuel as [|fuel]; [cbn in Hfuel; lia|]. cbn [expand_sets].
    rewrite lookup_app_r, Nat.sub_diag by done. cbn [lookup list_lookup].
    assert (x ∉ kept) as Hx.
    { apply NoDup_app in Hnd as (_ & Hd & _). intros Hin. apply (Hd _ Hin). left. }
    cbn [skip_expand].
    destruct (decide (nodeType w x = "objectSet")) as [Hset|Hset].
    + rewrite list_remove_first_middle by done.
      destruct rest as [|y rest].
      * cbn [fst snd]. rewrite !app_nil_r.
        destruct fuel; cbn [expand_sets]; [done|]. by rewrite lookup_ge_None_2 by lia.
      * replace (kept ++ y :: rest) with ((kept ++ [y]) ++ rest) by by rewrite <- app_assoc.
        replace (S (length kept)) with (length (kept ++ [y]))
          by (rewrite length_app; cbn; lia).
        destruct fuel as [|fuel]; [cbn in Hfuel; lia|].
        assert (expand_sets (S fuel) (length (kept ++ [y])) w ((kept ++ [y]) ++ rest)
                  (ch ++ set_members w x)
                = ((kept ++ [y]) ++ (skip_expand w rest).1,
                   (ch ++ set_members w x) ++ (skip_expand w rest).2)) as ->.
        { apply IH; [lia| |cbn in Hfuel; lia].
          rewrite <- app_assoc. cbn.
          apply NoDup_app in Hnd as (Hk & Hd & Hr). apply NoDup_cons in Hr as [_ Hr].
          apply NoDup_app. split; [done|]. split; [|done].
          intros z Hz Hin. apply (Hd z Hz). by right. }
        destruct (skip_expand w rest) as [s c]. cbn [fst snd].
        by rewrite <- !app_assoc.
    + replace (kept ++ x :: rest) with ((kept ++ [x]) ++ rest) by by rewrite <- app_assoc.
      replace (S (length kept)) with (length (kept ++ [x]))
        by (rewrite length_app; cbn; lia).
      rewrite IH; [|lia|by rewrite <- app_assoc|cbn in Hfuel; lia].
      destruct (skip_expand w rest) as [s c]. cbn [fst snd].
      by rewrite <- !app_assoc.
Qed.

(** X1.  On a selection with no node twice, the loop of [makeLightLinks]
    and [breakLightLinks] ends within [length selected] turns and comes to
    [skip_expand]: each set met is expanded and removed, and the node that
    follows a set is never looked at. *)
Theorem expand_sets_closed_form w selected fuel :
  NoDup selected → length selected ≤ fuel →
  expand_sets fuel 0 w selected [] = skip_expand w selected.
Proof.
  intros Hnd Hfuel.
  pose proof (expand_sets_skip w fuel [] selected [] Hnd Hfuel) as H.
  cbn [length app] in H. rewrite H.
  by destruct (skip_expand w selected).
Qed.

Lemma expand_sets_closed_form_witness :
  (NoDup ["lights_SET"; "key"; "geo_SET"] ∧ length ["lights_SET"; "key"; "geo_SET"] ≤ 5)
  ∧ expand_sets 5 0 studio_sets_selected ["lights_SET"; "key"; "geo_SET"] []
    = skip_expand studio_sets_selected ["lights_SET"; "key"; "geo_SET"].
Proof.
  assert (NoDup ["lights_SET"; "key"; "geo_SET"]) as Hnd
    by (apply (bool_decide_unpack _); vm_compute; exact I).
  assert (length ["lights_SET"; "key"; "geo_SET"] ≤ 5) as Hlen by (cbn; lia).
  split; [by split|].
  exact (expand_sets_closed_form studio_sets_selected _ 5 Hnd Hlen).
Defined.

Lemma skip_expand_set w x y rest :
  nodeType w x = "objectSet" →
  skip_expand w (x :: y :: rest)
  = (y :: (skip_expand w rest).1, set_members w x ++ (skip_expand w rest).2).
Proof.
  intros Hx. change (skip_expand w (x :: y :: rest))
    with (if decide (nodeType w x = "objectSet")
          then let '(s, c) := skip_expand w rest in (y :: s, set_members w x ++ c)
          else let '(s, c) := skip_expand w (y :: rest) in (x :: s, c)).
  rewrite decide_True by done. by destruct (skip_expand w rest).
Qed.

Lemma skip_expand_other w x rest :
  nodeType w x ≠ "objectSet" →
  skip_expand w (x :: rest)
  = (x :: (skip_expand w rest).1, (skip_expand w rest).2).
Proof.
  intros Hx. change (skip_expand w (x :: rest))
    with (if decide (nodeType w x = "objectSet")
          then match rest with
               | [] => ([], set_members w x)
               | y :: rest' =>
                   let '(s, c) := skip_expand w rest' in (y :: s, set_members w x ++ c)
               end
          else let '(s, c) := skip_expand w rest in (x :: s, c)).
  rewrite decide_False by done. by destruct (skip_expand w rest).
Qed.

Lemma skip_expand_no_adjacent w l :
  no_adjacent_sets w l →
  skip_expand w l
  = (filter (λ x, nodeType w x ≠ "objectSet") l,
     flat_map (set_members w) (filter (λ x, nodeType w x = "objectSet") l)).
Proof.
  induction l as [l IH] using (induction_ltof1 _ length). unfold ltof in IH.
  destruct l as [|x [|y rest]]; intros Hadj.
  - done.
  - rewrite !filter_cons, !filter_nil. cbn [skip_expand].
    destruct (decide (nodeType w x = "objectSet")).
    + rewrite decide_False by tauto. cbn. by rewrite app_nil_r.
    + rewrite decide_True by done. done.
  - destruct Hadj as [Hxy Hadj].
    rewrite (filter_cons _ x), (filter_cons (λ x, nodeType w x = "objectSet") x).
    destruct (decide (nodeType w x = "objectSet")) as [Hx|Hx].
    + rewrite decide_False by tauto.
      assert (nodeType w y ≠ "objectSet") as Hy by tauto.
      rewrite (filter_cons _ y), (filter_cons (λ x, nodeType w x = "objectSet") y).
      rewrite decide_True, decide_False by done.
      rewrite skip_expand_set by done.
      rewrite (IH rest); [done|cbn; lia|]. by destruct Hadj.
    + rewrite decide_True by done.
      rewrite skip_expand_other by done.
      rewrite (IH (y :: rest)); [done|cbn; lia|done].
Qed.

Lemma select_for_links_run w :
  select_for_links w
  = (Return tt,
     let sc := expand_sets (length (selection w)) 0 w (selection w) [] in
     with_selection (sc.1 ++ list_difference sc.2 sc.1)
       (recorded (CmdSelectAdd sc.2)
          (with_selection sc.1 (recorded (CmdSelect sc.1) w)))).
Proof.
  unfold select_for_links. rewrite bind_pm_selected, bind_get_world.
  destruct (expand_sets _ _ _ _ _) as [s c]. cbn [fst snd].
  rewrite bind_pm_select. unfold pm_select_add. rewrite bind_record.
  unfold modify. cbn [selection with_selection]. by rewrite recorded_selection.
Qed.

(** X2.  When no node is selected twice and no set comes right after
    another set, the selection put together for the host linking commands
    is the selected nodes that are not sets, followed by the members of the
    selected sets that are not among them: every set has been expanded and
    none is handed over. *)
Theorem select_for_links_expands_all w :
  NoDup (selection w) → no_adjacent_sets w (selection w) →
  selection (select_for_links w).2
  = filter (λ x, nodeType w x ≠ "objectSet") (selection w)
    ++ list_difference
         (flat_map (set_members w)
            (filter (λ x, nodeType w x = "objectSet") (selection w)))
         (filter (λ x, nodeType w x ≠ "objectSet") (selection w))
  ∧ ∀ x, x ∈ selection (select_for_links w).2 →
         nodeType w x = "objectSet" →
         ∃ s, s ∈ selection w ∧ nodeType w s = "objectSet" ∧ x ∈ set_members w s.
Proof.
  intros Hnd Hadj. rewrite select_for_links_run. cbn [snd selection with_selection].
  pose proof (expand_sets_skip w _ [] _ [] Hnd (le_n _)) as Hloop.
  cbn [length app] in Hloop. rewrite Hloop.
  rewrite (skip_expand_no_adjacent w _ Hadj). cbn [fst snd].
  split; [done|]. intros x Hx Hset.
  apply elem_of_app in Hx as [Hx|Hx].
  - apply list_elem_of_filter in Hx as [Hx _]. done.
  - apply list_elem_of_difference in Hx as [Hx _].
    apply list_elem_of_In, in_flat_map in Hx as (s & Hs & Hx).
    apply list_elem_of_In, list_elem_of_filter in Hs as [Hs1 Hs2].
    exists s. split; [done|]. split; [done|]. by apply list_elem_of_In.
Qed.

Lemma select_for_links_expands_all_witness :
  (NoDup (selection (with_selection ["lights_SET"; "rim"; "geo_SET"] studio_sets_selected))
   ∧ no_adjacent_sets (with_selection ["lights_SET"; "rim"; "geo_SET"] studio_sets_selected)
       (selection (with_selection ["lights_SET"; "rim"; "geo_SET"] studio_sets_selected)))
  ∧ (selection
       (select_for_links
          (with_selection ["lights_SET"; "rim"; "geo_SET"] studio_sets_selected)).2
     = filter (λ x, nodeType (with_selection ["lights_SET"; "rim"; "geo_SET"]
                                studio_sets_selected) x ≠ "objectSet")
         (selection (with_selection ["lights_SET"; "rim"; "geo_SET"] studio_sets_selected))
       ++ list_difference
            (flat_map (set_members (with_selection ["lights_SET"; "rim"; "geo_SET"]
                                      studio_sets_selected))
               (filter (λ x, nodeType (with_selection ["lights_SET"; "rim"; "geo_SET"]
                                         studio_sets_selected) x = "objectSet")
                  (selection (with_selection ["lights_SET"; "rim"; "geo_SET"]
                                studio_sets_selected))))
            (filter (λ x, nodeType (with_selection ["lights_SET"; "rim"; "geo_SET"]
                                      studio_sets_selected) x ≠ "objectSet")
               (selection (with_selection ["lights_SET"; "rim"; "geo_SET"]
                             studio_sets_selected)))
     ∧ ∀ x, x ∈ selection
                  (select_for_links
                     (with_selection ["lights_SET"; "rim"; "geo_SET"]
                        studio_sets_selected)).2 →
            nodeType (with_selection ["lights_SET"; "rim"; "geo_SET"] studio_sets_selected) x
            = "objectSet" →
            ∃ s, s ∈ selection (with_selection ["lights_SET"; "rim"; "geo_SET"]
                                  studio_sets_selected)
                 ∧ nodeType (with_selection ["lights_SET"; "rim"; "geo_SET"]
                               studio_sets_selected) s = "objectSet"
                 ∧ x ∈ set_members (with_selection ["lights_SET"; "rim"; "geo_SET"]
                                      studio_sets_selected) s).
Proof.
  assert (NoDup (selection (with_selection ["lights_SET"; "rim"; "geo_SET"]
                              studio_sets_selected))) as Hnd
    by (apply (bool_decide_unpack _); vm_compute; exact I).
  assert (no_adjacent_sets (with_selection ["lights_SET"; "rim"; "geo_SET"]
                              studio_sets_selected)
            (selection (with_selection ["lights_SET"; "rim"; "geo_SET"]
                          studio_sets_selected))) as Hadj.
  { cbn [no_adjacent_sets selection with_selection]. split_and!; try done.
    - intros [_ H]. vm_compute in H. discriminate.
    - intros [H _]. vm_compute in H. discriminate. }
  split; [by split|].
  exact (select_for_links_expands_all _ Hnd Hadj).
Defined.

(** ** Queries leave the scene alone *)

Lemma with_log_nil w : with_log (λ l, l ++ []) w = w.
Proof. destruct w. unfold with_log. cbn. by rewrite app_nil_r. Qed.

Lemma getAttr_world n a w : (getAttr n a w).2 = w.
Proof. unfold getAttr. by destruct (attrs w !! (n, a)). Qed.

Lemma filterM_world (p : string → M bool) l w :
  (∀ x, (p x w).2 = w) → (filterM p l w).2 = w.
Proof.
  intros Hp. induction l as [|x l IH]; [done|].
  cbn [filterM]. unfold bind at 1. specialize (Hp x).
  destruct (p x w) as [[b|e] w1]; cbn in Hp; subst w1; [|done].
  unfold bind at 1. destruct (filterM p l w) as [[r|e] w1]; cbn in IH; subst w1; done.
Qed.

Lemma onlyLightsFromSelection_only_logs self gs ah w :
  ∃ msgs, (_onlyLightsFromSelection self gs ah w).2 = with_log (λ l, l ++ msgs) w.
Proof.
  unfold _onlyLightsFromSelection. run.
  destruct (decide _) as [|_]; [run; by eexists|].
  destruct gs.
  - run. by eexists.
  - unfold bind at 1.
    rewrite (getParents_pair (omap (light_shape self w) (candidates ah w)) w).
    destruct (getParents _ w).1 as [ps|e]; [run; by eexists|].
    exists []. by rewrite with_log_nil.
Qed.

Lemma getAllLights_only_logs self gs w :
  ∃ msgs, (_getAllLights self gs w).2 = with_log (λ l, l ++ msgs) w.
Proof.
  unfold _getAllLights. run.
  destruct (decide _) as [|_]; [run; by eexists|].
  destruct gs.
  - run. by eexists.
  - unfold bind at 1.
    rewrite (getParents_pair (flat_map (ls w) (lgt_types self)) w).
    destruct (getParents _ w).1 as [ps|e]; [run; by eexists|].
    exists []. by rewrite with_log_nil.
Qed.

Lemma getUnusedLightFilters_only_logs self ai_filter w :
  ∃ msgs, (getUnusedLightFilters self ai_filter w).2 = with_log (λ l, l ++ msgs) w.
Proof.
  unfold getUnusedLightFilters.
  destruct (decide (ai_filter ∈ _)) as [_|_]; [|run; by eexists].
  
  run. destruct (decide (ls w ai_filter = [])) as [|_]; [run; by eexists|].
  set (connected := filter (λ lightfilter, outputs w lightfilter ≠ []) (ls w ai_filter)).
  set (blockers := if decide (ai_filter = "aiLightBlocker") then _ else _).
  assert ((blockers w).2 = w) as Hb.
  { unfold blockers. destruct (decide (ai_filter = "aiLightBlocker")) as [_|_]; [|reflexivity].
    apply filterM_world. intros x. unfold bind.
    pose proof (getAttr_world x "density" w) as H.
    destruct (getAttr x "density" w) as [[d|e'] w1]; exact H. }
  unfold bind at 1. destruct (blockers w) as [[bs|e] w1]; cbn in Hb; subst w1;
    [|exists []; by rewrite with_log_nil].
  set (decays := if decide (ai_filter = "aiLightDecay") then _ else _).
  assert ((decays w).2 = w) as Hd.
  { unfold decays. destruct (decide (ai_filter = "aiLightDecay")) as [_|_]; [|reflexivity].
    apply filterM_world. intros x. unfold bind at 1.
    pose proof (getAttr_world x "useNearAtten" w) as H.
    destruct (getAttr x "useNearAtten" w) as [[d|e'] w1]; cbn in H; subst w1; [|done].
    destruct (py_not d); [|done]. unfold bind.
    pose proof (getAttr_world x "useFarAtten" w) as H.
    destruct (getAttr x "useFarAtten" w) as [[d'|e'] w1]; exact H. }
  unfold bind at 1. destruct (decays w) as [[ds|e] w1]; cbn in Hd; subst w1;
    [|exists []; by rewrite with_log_nil].
  destruct (decide (_ ∧ _)) as [_|_]; run.
  - by eexists.
  - exists []. by rewrite with_log_nil.
Qed.

(** X3.  The queries of the toolkit read the scene and write to the logger
    only: after [_onlyLightsFromSelection], [_getAllLights] or
    [getUnusedLightFilters], whatever they answer and even when they raise,
    the scene is the one they were called on with log records added at the
    end; nodes, connections, selection and undo queue are untouched. *)
Theorem queries_only_log self w :
  (∀ get_shapes all_hierachy,
     ∃ msgs, (_onlyLightsFromSelection self get_shapes all_hierachy w).2
             = with_log (λ l, l ++ msgs) w)
  ∧ (∀ get_shapes,
       ∃ msgs, (_getAllLights self get_shapes w).2 = with_log (λ l, l ++ msgs) w)
  ∧ (∀ ai_filter,
       ∃ msgs, (getUnusedLightFilters self ai_filter w).2 = with_log (λ l, l ++ msgs) w).
Proof.
  split_and!.
  - intros. apply onlyLightsFromSelection_only_logs.
  - intros. apply getAllLights_only_logs.
  - intros. apply getUnusedLightFilters_only_logs.
Qed.

(** ** Light linking: selection and undo steps *)

Lemma recorded_undo c w :
  undoDepth w = 0 →
  undoDepth (recorded c w) = 0
  ∧ undoOpen (recorded c w) = undoOpen w
  ∧ undoQueue (recorded c w) = undoQueue w ++ [[c]].
Proof. intros H. unfold recorded, record, modify. cbn. by rewrite H. Qed.

Lemma link_body_run (host : M unit) (c : list string → Cmd) msg w :
  (∀ w', host w' = (Return tt, recorded (c (selection w')) w')) →
  undoDepth w = 0 →
  ∃ w', (select_for_links ;;; host ;;; logger INFO msg) w = (Return tt, w')
        ∧ undoDepth w' = 0
        ∧ log w' = log w ++ [(INFO, msg)]
        ∧ ∃ steps, undoQueue w' = undoQueue w ++ steps ++ [[c (linked_selection w)]]
                   ∧ one_command_each steps.
Proof.
  intros Hhost Hd.
  rewrite (bind_Return _ _ _ _ _ (select_for_links_run w)).
  set (sc := expand_sets _ _ _ _ _). cbv zeta.
  set (w1 := recorded (CmdSelect sc.1) w).
  set (w2 := recorded (CmdSelectAdd sc.2) (with_selection sc.1 w1)).
  set (w3 := with_selection _ w2).
  rewrite (bind_Return _ _ _ _ _ (Hhost w3)). unfold logger, modify.
  destruct (recorded_undo (CmdSelect sc.1) w Hd) as (D1 & O1 & Q1).
  destruct (recorded_undo (CmdSelectAdd sc.2) (with_selection sc.1 w1) D1) as (D2 & O2 & Q2).
  destruct (recorded_undo (c (selection w3)) w3 D2) as (D3 & O3 & Q3).
  eexists. split; [reflexivity|]. cbn [undoDepth undoQueue log with_log].
  split; [exact D3|]. split.
  - subst w3 w2 w1. rewrite recorded_log. cbn [log with_selection].
    rewrite recorded_log. cbn [log with_selection]. by rewrite recorded_log.
  - exists [[CmdSelect sc.1]; [CmdSelectAdd sc.2]]. split.
    + rewrite Q3. subst w3 w2 w1. cbn [undoQueue with_selection] in *.
      rewrite Q2, Q1. rewrite <- !app_assoc. done.
    + repeat constructor.
Qed.

Lemma MakeLightLinks_run w :
  MakeLightLinks w = (Return tt, recorded (CmdMakeLightLinks (selection w)) w).
Proof. unfold MakeLightLinks. by rewrite bind_get_world. Qed.

Lemma BreakLightLinks_run w :
  BreakLightLinks w = (Return tt, recorded (CmdBreakLightLinks (selection w)) w).
Proof. unfold BreakLightLinks. by rewrite bind_get_world. Qed.

Lemma link_wrapped (host : M unit) (c : list string → Cmd) msg w :
  (∀ w', host w' = (Return tt, recorded (c (selection w')) w')) →
  undoDepth w = 0 →
  let op := _wrapperSelected (B := unit) (select_for_links ;;; host ;;; logger INFO msg) in
  (op w).1 = Return None
  ∧ selection (op w).2 = selection w
  ∧ log (op w).2 = log w ++ [(INFO, msg)]
  ∧ ∃ steps, undoQueue (op w).2 = undoQueue w ++ steps
             ∧ one_command_each steps
             ∧ [c (linked_selection w)] ∈ steps
             ∧ last steps = Some [CmdSelect (selection w)].
Proof.
  intros Hhost Hd op. unfold op. rewrite wrapperSelected_run.
  destruct (link_body_run host c msg w Hhost Hd) as (w' & -> & D & Lg & steps & Q & Hone).
  cbn [fst snd selection with_selection log undoQueue].
  destruct (recorded_undo (CmdSelect (selection w)) w' D) as (_ & _ & Q').
  split; [done|]. split; [done|]. split; [by rewrite recorded_log|].
  exists (steps ++ [[c (linked_selection w)]; [CmdSelect (selection w)]]).
  split_and!.
  - rewrite Q', Q. rewrite <- !app_assoc. done.
  - apply Forall_app. split; [done|]. repeat constructor.
  - apply elem_of_app. right. left.
  - rewrite last_app. done.
Qed.



(** ** The classifier reads the scene graph only *)

Lemma omap_ext_eq {A B} (f g : A → option B) (l : list A) :
  (∀ x, f x = g x) → omap f l = omap g l.
Proof. intros H. induction l as [|x l IH]; [done|]. cbn. by rewrite H, IH. Qed.

Lemma light_shape_scene self w w2 n :
  nodes w2 = nodes w → shapes w2 = shapes w → light_shape self w2 n = light_shape self w n.
Proof. intros Hn Hs. unfold light_shape, nodeType, getShape. by rewrite Hn, Hs. Qed.

Lemma candidates_scene ah w w2 :
  nodes w2 = nodes w → hierarchy w2 = hierarchy w → selection w2 = selection w →
  candidates ah w2 = candidates ah w.
Proof.
  intros Hn Hh Hs. unfold candidates, nodeType, getChildren_ad. by rewrite Hn, Hh, Hs.
Qed.

Lemma onlyLightsFromSelection_scene self gs ah w w2 :
  nodes w2 = nodes w → shapes w2 = shapes w → parents w2 = parents w →
  hierarchy w2 = hierarchy w → selection w2 = selection w →
  (_onlyLightsFromSelection self gs ah w2).1 = (_onlyLightsFromSelection self gs ah w).1.
Proof.
  intros Hn Hs Hp Hh Hsel. unfold _onlyLightsFromSelection. rewrite !bind_get_world.
  rewrite (candidates_scene ah w w2 Hn Hh Hsel).
  rewrite (omap_ext_eq (light_shape self w2) (light_shape self w))
    by (intros; by apply light_shape_scene).
  destruct (decide _); [done|]. destruct gs; [done|].
  unfold bind at 1 3.
  rewrite (getParents_pair _ w), (getParents_pair _ w2), (getParents_parents _ w w2 Hp).
  by destruct (getParents _ w).1.
Qed.

Lemma getParents_length l w ps :
  (getParents l w).1 = Return ps → length ps = length l.
Proof.
  intros H. apply getParents_inv in H. symmetry. by eapply Forall2_length.
Qed.

Lemma onlyLightsFromSelection_parents_nonempty self ah w lights :
  (_onlyLightsFromSelection self false ah w).1 = Return (Some lights) → lights ≠ [].
Proof.
  unfold _onlyLightsFromSelection. rewrite bind_get_world.
  destruct (decide _) as [|Hne]; [done|].
  unfold bind at 1. rewrite (getParents_pair _ w).
  destruct (getParents _ w).1 as [ps|e] eqn:E; [|done].
  rewrite bind_logger. unfold ret. cbn [fst]. intros H. injection H as <-.
  apply getParents_length in E. intros ->. cbn in E.
  by destruct (omap (light_shape self w) (candidates ah w)).
Qed.

(** ** Muting lights *)

Lemma muteLights_run self w :
  muteLights self w
  = (match (muteLights_body self (opened w)).1 with
     | Return _ => Return None
     | Raise e => Raise e
     end,
     closed (with_selection (selection w)
               (recorded (CmdSelect (selection w)) (muteLights_body self (opened w)).2))).
Proof.
  unfold muteLights. rewrite wrapperUndoChunck_run, wrapperSelected_run.
  rewrite opened_selection. cbn [fst snd]. by destruct (muteLights_body self (opened w)).1.
Qed.



(** ** Restoring twice *)

Lemma restoreLights_body_nothing self w :
  objExists w displayed_layer_name = false → objExists w muted_layer_name = false →
  restoreLights_body self w = (Return false, w).
Proof. intros Hd Hm. unfold restoreLights_body. run. rewrite Hd. run. rewrite Hm. by run. Qed.

Lemma deleted_log n w : log (deleted n w) = log w.
Proof.
  unfold deleted, pm_delete. rewrite bind_get_world.
  destruct (objExists w n); [|done]. run. cbn. by rewrite recorded_log.
Qed.

Lemma restored_log self w :
  log (restored self w)
  = log w ++ (if objExists w displayed_layer_name || objExists w muted_layer_name
              then [(INFO, "Lights visibilities restored.")] else []).
Proof.
  unfold restored, restoreLights_body. run.
  destruct (objExists w displayed_layer_name) eqn:Hd.
  - rewrite bind_assoc, bind_pm_delete by done. run.
    destruct (objExists (deleted displayed_layer_name w) muted_layer_name) eqn:Hm.
    + rewrite bind_assoc, bind_pm_delete by done. run. cbn. by rewrite !deleted_log.
    + run. cbn. by rewrite deleted_log.
  - run. destruct (objExists w muted_layer_name) eqn:Hm.
    + rewrite bind_assoc, bind_pm_delete by done. run. cbn. by rewrite deleted_log.
    + run. cbn. by rewrite app_nil_r.
Qed.

(** X6.  After [restoreLights] no node is named "displayedLights" or
    "mutedLights", and the call has logged its message exactly when one of
    the two names was taken.  A second call finds nothing to delete: it
    leaves the nodes, the layers, the selection, the attributes and the
    connections as they are and logs nothing. *)
Theorem restoreLights_twice self w :
  let w1 := (restoreLights self w).2 in
  let w2 := (restoreLights self w1).2 in
  objExists w1 displayed_layer_name = false
  ∧ objExists w1 muted_layer_name = false
  ∧ log w1 = log w ++ (if objExists w displayed_layer_name || objExists w muted_layer_name
                       then [(INFO, "Lights visibilities restored.")] else [])
  ∧ nodes w2 = nodes w1 ∧ layers w2 = layers w1 ∧ selection w2 = selection w1
  ∧ attrs w2 = attrs w1 ∧ aiFilters w2 = aiFilters w1 ∧ log w2 = log w1.
Proof.
  intros w1 w2.
  destruct (restoreLights_names_free self w) as [Hd Hm].
  apply objExists_false in Hd, Hm. fold w1 in Hd, Hm.
  split; [done|]. split; [done|]. split.
  - unfold w1. rewrite restoreLights_run. cbn [snd].
    rewrite closed_log, restored_log, opened_log.
    change (objExists (opened w)) with (objExists w). done.
  - unfold w2. rewrite restoreLights_run. cbn [snd]. unfold restored.
    rewrite restoreLights_body_nothing.
    + cbn [snd]. by autorewrite with run.
    + by rewrite <- Hd.
    + by rewrite <- Hm.
Qed.

(** ** All the lights of the scene *)

Lemma getParents_Raise l w e :
  (getParents l w).1 = Raise e →
  e = AttributeError ∧ ∃ x, x ∈ l ∧ parents w !! x = None.
Proof.
  induction l as [|x l IH]; [done|].
  cbn [getParents]. unfold bind at 1, getParent.
  destruct (parents w !! x) as [p|] eqn:Hp.
  - unfold bind at 1. rewrite (getParents_pair l w).
    destruct (getParents l w).1 as [ps|e'] eqn:E; [done|].
    cbn [fst]. intros H. injection H as ->.
    destruct (IH eq_refl) as (-> & y & Hy & Hpy).
    split; [done|]. exists y. split; [by right|done].
  - cbn [fst]. intros H. injection H as <-. split; [done|]. exists x. split; [by left|done].
Qed.

Lemma elem_of_all_lights self w x :
  x ∈ flat_map (ls w) (lgt_types self) ↔ nodeType w x ∈ lgt_types self.
Proof.
  split; [|apply light_in_all_lights].
  intros H. apply list_elem_of_In, in_flat_map in H as (t & Ht & Hx).
  apply list_elem_of_In, elem_of_ls in Hx. unfold nodeType. rewrite Hx.
  by apply list_elem_of_In.
Qed.

(** X7.  [_getAllLights] answers [None] only in a scene with no node of a
    light type; a list it answers is not empty and holds exactly the lights
    of the scene, the shapes of a light type with [get_shapes] and their
    parents without; and it raises only without [get_shapes], an
    [AttributeError] for a light shape with no parent. *)
Theorem getAllLights_all_lights self get_shapes w :
  match (_getAllLights self get_shapes w).1 with
  | Return None => ∀ x, nodeType w x ∉ lgt_types self
  | Return (Some lights) =>
      lights ≠ [] ∧ ∀ x, x ∈ lights ↔ scene_light self get_shapes w x
  | Raise e =>
      e = AttributeError ∧ get_shapes = false
      ∧ ∃ shape, nodeType w shape ∈ lgt_types self ∧ parents w !! shape = None
  end.
Proof.
  unfold _getAllLights. rewrite bind_get_world.
  destruct (decide (flat_map (ls w) (lgt_types self) = [])) as [Hnil|Hne].
  - rewrite bind_logger. unfold ret. cbn [fst].
    intros x Hx. apply elem_of_all_lights in Hx. rewrite Hnil in Hx. by apply elem_of_nil in Hx.
  - destruct get_shapes.
    + rewrite bind_ret, bind_logger. unfold ret. cbn [fst]. split; [done|].
      intros x. rewrite elem_of_all_lights. unfold scene_light. split.
      * intros Hx. by exists x.
      * by intros (shape & Hs & ->).
    + unfold bind at 1. rewrite (getParents_pair _ w).
      destruct (getParents _ w).1 as [ps|e] eqn:E.
      * rewrite bind_logger. unfold ret. cbn [fst].
        pose proof (getParents_length _ _ _ E) as Hlen.
        apply getParents_inv in E. split.
        { intros ->. destruct (flat_map (ls w) (lgt_types self)); [done|discriminate Hlen]. }
        intros x. unfold scene_light. split.
        -- intros Hx. apply list_elem_of_lookup in Hx as [i Hi].
           destruct (Forall2_lookup_r _ _ _ _ _ E Hi) as (shape & Hshape & Hp).
           exists shape. split; [|done].
           apply elem_of_all_lights. by eapply list_elem_of_lookup_2.
        -- intros (shape & Hs & Hp). apply elem_of_all_lights in Hs.
           apply list_elem_of_lookup in Hs as [i Hi].
           destruct (Forall2_lookup_l _ _ _ _ _ E Hi) as (p & Hpi & Hp').
           rewrite Hp in Hp'. injection Hp' as <-. by eapply list_elem_of_lookup_2.
      * cbn [fst]. apply getParents_Raise in E as (-> & x & Hx & Hp).
        split; [done|]. split; [done|]. exists x. split; [|done].
        by apply elem_of_all_lights.
Qed.

(** ** Breaking every link of the selected lights *)

Lemma list_difference_all (l k : list string) :
  (∀ x, x ∈ l → x ∈ k) → list_difference l k = [].
Proof.
  induction l as [|x l IH]; intros H; [done|].
  cbn [list_difference].
  destruct (decide_rel elem_of x k) as [_|Hn]; [|destruct Hn; apply H; by left].
  apply IH. intros y Hy. apply H. by right.
Qed.

Lemma break_links_loop (lights : list string) :
  ∀ w, ∃ w',
    for_each lights (λ light,
      w <- get_world ;;
      let object_linked := default [] (lightlinks w !! light) in
      record (CmdLightlinkBreak light object_linked) ;;;
      modify (with_lightlinks (alter (λ l, list_difference l object_linked) light))) w
    = (Return tt, w')
    ∧ (∀ x, lightlinks w' !! x
            = if decide (x ∈ lights) then (λ _, []) <$> lightlinks w !! x
              else lightlinks w !! x)
    ∧ nodes w' = nodes w ∧ selection w' = selection w ∧ log w' = log w.
Proof.
  induction lights as [|light lights IH]; intros w.
  - exists w. split; [done|]. split; [|done]. intros x. rewrite decide_False; [done|].
    apply not_elem_of_nil.
  - cbn [for_each]. rewrite bind_assoc, bind_get_world. cbv beta zeta.
    rewrite bind_assoc, bind_record. cbv beta. rewrite bind_modify. cbv beta.
    set (w1 := with_lightlinks _ _).
    destruct (IH w1) as (w' & R & L & N & S & Lg).
    exists w'. split; [exact R|].
    assert (∀ x, lightlinks w1 !! x
                 = if decide (x = light) then (λ _, []) <$> lightlinks w !! x
                   else lightlinks w !! x) as L1.
    { intros x. unfold w1. cbn [lightlinks with_lightlinks]. rewrite recorded_lightlinks.
      destruct (decide (x = light)) as [->|Hx].
      - rewrite lookup_alter_eq. destruct (lightlinks w !! light) as [l|]; [|done].
        cbn. by rewrite list_difference_all.
      - by rewrite lookup_alter_ne. }
    split; [|unfold w1 in N, S, Lg; cbn [nodes selection log with_lightlinks] in N, S, Lg;
             by rewrite N, S, Lg, recorded_nodes, recorded_selection, recorded_log].
    intros x. rewrite L, L1.
    destruct (decide (x = light)) as [->|Hx].
    + rewrite (decide_True (P := light ∈ light :: lights)) by by left.
      destruct (decide (light ∈ lights)); [|done].
      by destruct (lightlinks w !! light).
    + destruct (decide (x ∈ lights)) as [Hin|Hin].
      * rewrite decide_True by by right. done.
      * rewrite decide_False; [done|]. intros H. apply elem_of_cons in H as [?|?]; done.
Qed.

(** X8.  With lights answered by the classifier for the selection,
    [breakAllLinks] returns the last of them, not the list; every one of
    them that had light links has none left, the links of every other light
    are as they were, and nodes and selection are not touched. *)
Theorem breakAllLinks_unlinks self w lights :
  (_onlyLightsFromSelection self false false w).1 = Return (Some lights) →
  ∃ light, last lights = Some light
    ∧ (breakAllLinks self w).1 = Return light
    ∧ (∀ x, lightlinks (breakAllLinks self w).2 !! x
            = if decide (x ∈ lights) then (λ _, []) <$> lightlinks w !! x
              else lightlinks w !! x)
    ∧ nodes (breakAllLinks self w).2 = nodes w
    ∧ selection (breakAllLinks self w).2 = selection w.
Proof.
  intros HS. pose proof (onlyLightsFromSelection_parents_nonempty _ _ _ _ HS) as Hne.
  destruct (last lights) as [light|] eqn:Hlast; [|by apply last_None in Hlast].
  exists light. split; [done|].
  unfold breakAllLinks.
  rewrite (bind_Return _ _ _ _ _ (onlyLightsFromSelection_Some _ _ _ _ _ HS)).
  set (w1 := with_log _ w).
  destruct (break_links_loop lights w1) as (w' & R & L & N & S & Lg).
  rewrite (bind_Return _ _ _ _ _ R), bind_logger, Hlast. unfold ret.
  cbn [fst snd lightlinks nodes selection with_log].
  split; [done|]. split; [exact L|]. by rewrite N, S.
Qed.

Lemma breakAllLinks_unlinks_witness :
  (_onlyLightsFromSelection panel false false
     (with_lightlinks (insert "key" ["cube"; "cubeShape"]) studio_three_selected)).1
  = Return (Some ["key"; "fill"])
  ∧ ∃ light, last ["key"; "fill"] = Some light
      ∧ (breakAllLinks panel
           (with_lightlinks (insert "key" ["cube"; "cubeShape"]) studio_three_selected)).1
        = Return light
      ∧ (∀ x, lightlinks
                (breakAllLinks panel
                   (with_lightlinks (insert "key" ["cube"; "cubeShape"])
                      studio_three_selected)).2 !! x
              = if decide (x ∈ ["key"; "fill"])
                then (λ _, []) <$>
                       lightlinks (with_lightlinks (insert "key" ["cube"; "cubeShape"])
                                     studio_three_selected) !! x
                else lightlinks (with_lightlinks (insert "key" ["cube"; "cubeShape"])
                                   studio_three_selected) !! x)
      ∧ nodes (breakAllLinks panel
                 (with_lightlinks (insert "key" ["cube"; "cubeShape"])
                    studio_three_selected)).2
        = nodes (with_lightlinks (insert "key" ["cube"; "cubeShape"]) studio_three_selected)
      ∧ selection (breakAllLinks panel
                     (with_lightlinks (insert "key" ["cube"; "cubeShape"])
                        studio_three_selected)).2
        = selection (with_lightlinks (insert "key" ["cube"; "cubeShape"])
                       studio_three_selected).
Proof.
  assert ((_onlyLightsFromSelection panel false false
             (with_lightlinks (insert "key" ["cube"; "cubeShape"]) studio_three_selected)).1
          = Return (Some ["key"; "fill"])) as HS by (vm_compute; reflexivity).
  split; [exact HS|].
  exact (breakAllLinks_unlinks panel _ ["key"; "fill"] HS).
Defined.

(** ** Linking filters to lights *)

Lemma sort_selection_scene self w w2 filter_ sel :
  nodes w2 = nodes w → shapes w2 = shapes w →
  ∀ ls fs, sort_selection self w2 filter_ sel ls fs = sort_selection self w filter_ sel ls fs.
Proof.
  intros Hn Hs. induction sel as [|x sel IH]; intros ls fs; [done|].
  cbn [sort_selection]. unfold nodeType, getShape. rewrite Hn, Hs.
  destruct (decide (default "" (nodes w !! x) = "transform")).
  - destruct (shapes w !! x) as [s|]; [|done].
    destruct (decide _); [apply IH|]. destruct (decide _); apply IH.
  - destruct (decide _); [apply IH|]. destruct (decide _); apply IH.
Qed.

Lemma omap_cons_eq {A B} (f : A → option B) x l :
  omap f (x :: l) = match f x with Some y => y :: omap f l | None => omap f l end.
Proof. reflexivity. Qed.

Lemma sort_selection_acc self w filter_ sel :
  ∀ ls fs,
    sort_selection self w filter_ sel ls fs
    = if decide (shaped w sel)
      then Return (ls ++ omap (light_shape self w) sel,
                   fs ++ omap (filter_shape self w filter_) sel)
      else Raise AttributeError.
Proof.
  induction sel as [|x sel IH]; intros ls fs.
  - cbn. rewrite decide_True by constructor. by rewrite !app_nil_r.
  - cbn [sort_selection]. rewrite !omap_cons_eq.
    destruct (decide (nodeType w x = "transform")) as [Ht|Ht].
    + destruct (getShape w x) as [s|] eqn:Hs.
      * assert (shaped w (x :: sel) ↔ shaped w sel) as Hiff.
        { unfold shaped. rewrite Forall_cons. split; [tauto|].
          intros H. split; [|done]. intros _. by eexists. }
        rewrite (decide_ext _ _ _ _ Hiff).
        assert (shape_of w x = Some s) as Hso by (unfold shape_of; by rewrite decide_True).
        unfold light_shape at 1, filter_shape at 1.
        rewrite Hso, (decide_True (P := nodeType w x = "transform")), Hs by done.
        destruct (decide (nodeType w s ∈ lgt_types self)) as [Hl|Hl].
        -- rewrite (decide_False (P := _ ∧ _)) by tauto. rewrite IH.
           destruct (decide (shaped w sel)); [|done]. by rewrite <- app_assoc.
        -- destruct (decide (nodeType w s = filter_)) as [Hf|Hf].
           ++ rewrite (decide_True (P := _ ∧ _)) by done. rewrite IH.
              destruct (decide (shaped w sel)); [|done]. by rewrite <- app_assoc.
           ++ rewrite (decide_False (P := _ ∧ _)) by tauto. apply IH.
      * rewrite decide_False; [done|]. unfold shaped. rewrite Forall_cons.
        intros [H _]. destruct (H Ht) as [? ?]. congruence.
    + assert (shaped w (x :: sel) ↔ shaped w sel) as Hiff.
      { unfold shaped. rewrite Forall_cons. split; [tauto|].
        intros H. split; [|done]. intros ?. done. }
      rewrite (decide_ext _ _ _ _ Hiff).
      assert (shape_of w x = Some x) as Hso by (unfold shape_of; by rewrite decide_False).
      unfold light_shape at 1, filter_shape at 1.
      rewrite Hso, (decide_False (P := nodeType w x = "transform")) by done.
      destruct (decide (nodeType w x ∈ lgt_types self)) as [Hl|Hl].
      * rewrite (decide_False (P := _ ∧ _)) by tauto. rewrite IH.
        destruct (decide (shaped w sel)); [|done]. by rewrite <- app_assoc.
      * destruct (decide (nodeType w x = filter_)) as [Hf|Hf].
        -- rewrite (decide_True (P := _ ∧ _)) by done. rewrite IH.
           destruct (decide (shaped w sel)); [|done]. by rewrite <- app_assoc.
        -- rewrite (decide_False (P := _ ∧ _)) by tauto. apply IH.
Qed.

(** X9.  The loop of [linkLightFilterToLights] that sorts the selection
    raises an [AttributeError] when a selected transform has no shape.
    Otherwise its lights are, in order, the light shapes the classifier
    [_onlyLightsFromSelection] reads off the same nodes, and its filters
    the shapes of the asked type that the selected nodes stand for. *)
Theorem sort_selection_sorts self w filter_ sel :
  sort_selection self w filter_ sel [] []
  = if decide (shaped w sel)
    then Return (omap (light_shape self w) sel, omap (filter_shape self w filter_) sel)
    else Raise AttributeError.
Proof. apply sort_selection_acc. Qed.

Lemma links_added_refl fs ls w : links_added fs ls w w.
Proof. unfold links_added. split_and!; try done. intros l i f H. by left. Qed.

Lemma links_added_trans fs ls w1 w2 w3 :
  links_added fs ls w1 w2 → links_added fs ls w2 w3 → links_added fs ls w1 w3.
Proof.
  intros (S1 & A1 & N1 & P1 & O1 & L1) (S2 & A2 & N2 & P2 & O2 & L2).
  unfold links_added. split_and!; try congruence.
  - by etrans.
  - intros l i f H. destruct (A2 l i f H) as [H'|H']; [|by right]. by apply A1.
Qed.

Lemma links_added_weaken fs ls fs' ls' w w' :
  (∀ x, x ∈ fs → x ∈ fs') → (∀ x, x ∈ ls → x ∈ ls') →
  links_added fs ls w w' → links_added fs' ls' w w'.
Proof.
  intros Hf Hl (S1 & A1 & N1 & P1 & O1 & L1). unfold links_added. split_and!; try done.
  intros l i f H. destruct (A1 l i f H) as [H'|[H1 H2]]; [by left|right]. split; auto.
Qed.

Lemma inputs_mono fs ls w w' x l :
  links_added fs ls w w' → x ∈ inputs w l → x ∈ inputs w' l.
Proof.
  intros (S1 & _ & _ & _ & O1 & _). rewrite !elem_of_inputs, O1.
  intros [[i Hi]|H]; [left|by right]. exists i.
  by eapply lookup_weaken.
Qed.

Lemma link_filter_step f t l w :
  ∃ w', link_filter f t l w = (Return tt, w')
        ∧ links_added [f] [l] w w'
        ∧ (f ∈ inputs w' l ∨ t ∈ inputs w' l).
Proof.
  destruct (decide ((f ∉ inputs w l) ∧ (t ∉ inputs w l))) as [Hfresh|Hlinked].
  - rewrite (link_filter_fresh f t l w Hfresh).
    destruct (first_free_index_least w l) as [Hfree _].
    set (i := first_free_index _ _ _ _) in *.
    eexists. split; [reflexivity|]. split.
    + unfold links_added.
      cbn [aiFilters nodes parents otherInputs log with_aiFilters].
      rewrite recorded_aiFilters, recorded_nodes, recorded_parents, recorded_otherInputs,
        recorded_log.
      split_and!; try done.
      * by apply insert_subseteq.
      * intros l' i' f' H. destruct (decide ((l', i') = (l, i))) as [E|E].
        -- injection E as -> ->. rewrite lookup_insert_eq in H. injection H as <-.
           right. split; by left.
        -- rewrite lookup_insert_ne in H by done. by left.
    + left. apply elem_of_inputs. left. exists i.
      cbn [aiFilters with_aiFilters]. by rewrite lookup_insert_eq.
  - rewrite link_filter_linked.
    + exists w. split; [done|]. split; [apply links_added_refl|].
      destruct (decide (f ∈ inputs w l)); [by left|].
      destruct (decide (t ∈ inputs w l)); [by right|]. by destruct Hlinked.
    + destruct (decide (f ∈ inputs w l)); [by left|].
      destruct (decide (t ∈ inputs w l)); [by right|]. by destruct Hlinked.
Qed.

Lemma link_lights_loop f t (lights : list string) :
  ∀ w, ∃ w', for_each lights (link_filter f t) w = (Return tt, w')
             ∧ links_added [f] lights w w'
             ∧ ∀ l, l ∈ lights → f ∈ inputs w' l ∨ t ∈ inputs w' l.
Proof.
  induction lights as [|l lights IH]; intros w.
  - exists w. split; [done|]. split; [apply links_added_refl|].
    intros l H. by apply elem_of_nil in H.
  - destruct (link_filter_step f t l w) as (w1 & R1 & G1 & I1).
    destruct (IH w1) as (w' & R & G & I).
    exists w'. split; [cbn [for_each]; by rewrite (bind_Return _ _ _ _ _ R1)|].
    split.
    + eapply links_added_trans.
      * eapply links_added_weaken; [| |exact G1]; [done|].
        intros x Hx. apply list_elem_of_singleton in Hx as ->. by left.
      * eapply links_added_weaken; [| |exact G]; [done|]. intros x Hx. by right.
    + intros l' Hl'. apply elem_of_cons in Hl' as [->|Hl']; [|by apply I].
      destruct I1 as [I1|I1]; [left|right]; by eapply inputs_mono.
Qed.

Lemma link_filters_loop (lights filters : list string) :
  ∀ w, ∃ w',
    for_each filters (λ filtr,
      w <- get_world ;;
      let transform_filter := default filtr (parents w !! filtr) in
      for_each lights (link_filter filtr transform_filter)) w
    = (Return tt, w')
    ∧ links_added filters lights w w'
    ∧ ∀ f l, f ∈ filters → l ∈ lights →
             f ∈ inputs w' l ∨ default f (parents w !! f) ∈ inputs w' l.
Proof.
  induction filters as [|f filters IH]; intros w.
  - exists w. split; [done|]. split; [apply links_added_refl|].
    intros f l H. by apply elem_of_nil in H.
  - destruct (link_lights_loop f (default f (parents w !! f)) lights w) as (w1 & R1 & G1 & I1).
    destruct (IH w1) as (w' & R & G & I).
    assert (parents w1 = parents w) as P1 by apply G1.
    exists w'. split.
    { cbn [for_each]. rewrite bind_assoc, bind_get_world. cbv beta zeta.
      by rewrite (bind_Return _ _ _ _ _ R1). }
    split.
    + eapply links_added_trans.
      * eapply links_added_weaken; [| |exact G1]; [|done].
        intros x Hx. apply list_elem_of_singleton in Hx as ->. by left.
      * eapply links_added_weaken; [| |exact G]; [|done]. intros x Hx. by right.
    + intros f' l Hf' Hl. apply elem_of_cons in Hf' as [->|Hf'].
      * destruct (I1 l Hl) as [H|H]; [left|right]; by eapply inputs_mono.
      * rewrite <- P1. by apply I.
Qed.

Lemma createNode_run type w :
  ∃ name w', createNode type w = (Return name, w')
    ∧ nodes w' = <[name := type]> (nodes w)
    ∧ aiFilters w' = aiFilters w ∧ parents w' = parents w
    ∧ otherInputs w' = otherInputs w ∧ log w' = log w.
Proof.
  unfold createNode. rewrite bind_get_world, bind_record, bind_modify. unfold ret.
  eexists _, _. split; [reflexivity|].
  cbn [nodes aiFilters parents otherInputs log with_nodes].
  by rewrite recorded_nodes, recorded_aiFilters, recorded_parents, recorded_otherInputs,
    recorded_log.
Qed.

Lemma linkLightFilterToLights_body_links self filter_ w lights filters :
  filter_ ∈ ["aiLightDecay"; "aiLightBlocker"; "aiGobo"] →
  sort_selection self w filter_ (selection w) [] [] = Return (lights, filters) →
  lights ≠ [] →
  ∃ used w',
    linkLightFilterToLights_body self filter_ w = (Return (Some used), w')
    ∧ (filters ≠ [] → used = filters)
    ∧ (filters = [] → ∃ f, used = [f] ∧ nodes w' !! f = Some filter_)
    ∧ aiFilters w ⊆ aiFilters w'
    ∧ (∀ l i f, aiFilters w' !! (l, i) = Some f →
                aiFilters w !! (l, i) = Some f ∨ (l ∈ lights ∧ f ∈ used))
    ∧ (∀ f l, f ∈ used → l ∈ lights →
              f ∈ inputs w' l ∨ default f (parents w !! f) ∈ inputs w' l)
    ∧ log w' = log w ++ [(INFO, "filter : " +:+ show_list used +:+ " ")].
Proof.
  intros Hf Hsort Hne. unfold linkLightFilterToLights_body.
  rewrite decide_True by done. rewrite bind_get_world, Hsort.
  destruct lights as [|l0 lights0]; [done|]. set (lights := l0 :: lights0) in *.
  destruct (decide (filters = [])) as [->|Hfs].
  - destruct (createNode_run filter_ w) as (name & w1 & R1 & N1 & A1 & P1 & O1 & L1).
    rewrite bind_assoc, (bind_Return _ _ _ _ _ R1), bind_ret.
    destruct (link_filters_loop lights [name] w1) as (w2 & R2 & (S2 & A2 & N2 & P2 & O2 & L2) & I2).
    rewrite (bind_Return _ _ _ _ _ R2), bind_logger. unfold ret.
    exists [name]. eexists. split; [reflexivity|].
    cbn [nodes aiFilters log with_log].
    split; [done|]. split.
    { intros _. exists name. split; [done|]. by rewrite N2, N1, lookup_insert_eq. }
    split; [by rewrite <- A1|]. split.
    { intros l i f H. rewrite <- A1. by apply A2. }
    split; [|by rewrite L2, L1].
    intros f l Hf' Hl. rewrite <- P1. by apply I2.
  - rewrite bind_ret.
    destruct (link_filters_loop lights filters w) as (w2 & R2 & (S2 & A2 & N2 & P2 & O2 & L2) & I2).
    rewrite (bind_Return _ _ _ _ _ R2), bind_logger. unfold ret.
    exists filters. eexists. split; [reflexivity|].
    cbn [nodes aiFilters log with_log].
    split; [done|]. split; [done|]. split; [done|]. split; [done|].
    split; [done|]. by rewrite L2.
Qed.

(** X10.  With one of the three filter types asked for and lights in the
    selection, [linkLightFilterToLights] answers [None] and links every
    filter it uses to every selected light: the selected filters of the
    type, or one node of the type that it creates when none is selected.
    Afterwards each of them, or its transform, is among the inputs of each
    of the lights.  No connection of the scene is removed or replaced, and
    every connection added goes from one of these filters to one of these
    lights. *)
Theorem linkLightFilterToLights_links self filter_ w lights filters :
  filter_ ∈ ["aiLightDecay"; "aiLightBlocker"; "aiGobo"] →
  sort_selection self w filter_ (selection w) [] [] = Return (lights, filters) →
  lights ≠ [] →
  (linkLightFilterToLights self filter_ w).1 = Return None
  ∧ ∃ used,
      (filters ≠ [] → used = filters)
      ∧ (filters = [] →
         ∃ f, used = [f] ∧ nodes (linkLightFilterToLights self filter_ w).2 !! f = Some filter_)
      ∧ aiFilters w ⊆ aiFilters (linkLightFilterToLights self filter_ w).2
      ∧ (∀ l i f, aiFilters (linkLightFilterToLights self filter_ w).2 !! (l, i) = Some f →
                  aiFilters w !! (l, i) = Some f ∨ (l ∈ lights ∧ f ∈ used))
      ∧ (∀ f l, f ∈ used → l ∈ lights →
                f ∈ inputs (linkLightFilterToLights self filter_ w).2 l
                ∨ default f (parents w !! f) ∈ inputs (linkLightFilterToLights self filter_ w).2 l)
      ∧ log (linkLightFilterToLights self filter_ w).2
        = log w ++ [(INFO, "filter : " +:+ show_list used +:+ " ")].
Proof.
  intros Hf Hsort Hne.
  assert (sort_selection self (opened w) filter_ (selection (opened w)) [] []
          = Return (lights, filters)) as Hsort'.
  { rewrite opened_selection, <- Hsort.
    apply sort_selection_scene; [apply opened_nodes|apply opened_shapes]. }
  destruct (linkLightFilterToLights_body_links self filter_ (opened w) lights filters
              Hf Hsort' Hne) as (used & w' & R & U1 & U2 & S & A & I & L).
  unfold linkLightFilterToLights. rewrite wrapperUndoChunck_run, R. cbn [fst snd].
  split; [done|]. exists used.
  assert (∀ x l, x ∈ inputs (closed w') l ↔ x ∈ inputs w' l) as Hin.
  { intros x l. by rewrite !elem_of_inputs, closed_aiFilters, closed_otherInputs. }
  rewrite closed_nodes, closed_aiFilters, closed_log.
  rewrite opened_aiFilters in S, A. rewrite opened_parents in I. rewrite opened_log in L.
  split; [done|]. split; [done|]. split; [done|]. split; [done|]. split; [|done].
  intros f l Hf' Hl. rewrite !Hin. by apply I.
Qed.

Lemma linkLightFilterToLights_links_witness :
  ("aiLightBlocker" ∈ ["aiLightDecay"; "aiLightBlocker"; "aiGobo"]
   ∧ sort_selection panel stage_link_selected "aiLightBlocker"
       (selection stage_link_selected) [] []
     = Return (["keyShape"; "fillShape"], ["blkCShape"])
   ∧ ["keyShape"; "fillShape"] ≠ [])
  ∧ (linkLightFilterToLights panel "aiLightBlocker" stage_link_selected).1 = Return None
  ∧ ∃ used,
      (["blkCShape"] ≠ [] → used = ["blkCShape"])
      ∧ (["blkCShape"] = [] →
         ∃ f, used = [f]
              ∧ nodes (linkLightFilterToLights panel "aiLightBlocker" stage_link_selected).2
                  !! f = Some "aiLightBlocker")
      ∧ aiFilters stage_link_selected
        ⊆ aiFilters (linkLightFilterToLights panel "aiLightBlocker" stage_link_selected).2
      ∧ (∀ l i f,
           aiFilters (linkLightFilterToLights panel "aiLightBlocker" stage_link_selected).2
             !! (l, i) = Some f →
           aiFilters stage_link_selected !! (l, i) = Some f
           ∨ (l ∈ ["keyShape"; "fillShape"] ∧ f ∈ used))
      ∧ (∀ f l, f ∈ used → l ∈ ["keyShape"; "fillShape"] →
           f ∈ inputs (linkLightFilterToLights panel "aiLightBlocker" stage_link_selected).2 l
           ∨ default f (parents stage_link_selected !! f)
             ∈ inputs (linkLightFilterToLights panel "aiLightBlocker" stage_link_selected).2 l)
      ∧ log (linkLightFilterToLights panel "aiLightBlocker" stage_link_selected).2
        = log stage_link_selected ++ [(INFO, "filter : " +:+ show_list used +:+ " ")].
Proof.
  assert ("aiLightBlocker" ∈ ["aiLightDecay"; "aiLightBlocker"; "aiGobo"]) as Hf
    by (right; left).
  assert (sort_selection panel stage_link_selected "aiLightBlocker"
            (selection stage_link_selected) [] []
          = Return (["keyShape"; "fillShape"], ["blkCShape"])) as Hsort
    by (vm_compute; reflexivity).
  assert (["keyShape"; "fillShape"] ≠ ([] : list string)) as Hne by discriminate.
  split; [by split_and!|].
  exact (linkLightFilterToLights_links panel "aiLightBlocker" stage_link_selected
           ["keyShape"; "fillShape"] ["blkCShape"] Hf Hsort Hne).
Defined.


(** ** The attributes the selected lights share *)

Lemma count_attribute_spec w a n :
  ∀ lights c kept p,
    c ≤ p → p + length lights = n → lights ≠ [] →
    count_attribute w a n lights c kept
    = if decide (c = p ∧ Forall (λ light, attrExists w light a = true) lights)
      then kept ++ [a] else kept.
Proof.
  induction lights as [|light rest IH]; intros c kept p Hc Hn Hne; [done|].
  cbn [count_attribute]. cbn [length] in Hn.
  destruct rest as [|light' rest'].
  - cbn [count_attribute]. cbn [length] in Hn.
    destruct (attrExists w light a) eqn:Hex.
    + destruct (decide (S c = n)) as [E|E].
      * rewrite decide_True; [done|]. split; [lia|]. by repeat constructor.
      * rewrite decide_False; [done|]. intros [? _]. lia.
    + rewrite (decide_False (P := c = n)) by lia.
      rewrite decide_False; [done|]. intros [_ H]. apply Forall_cons in H as [H _]. congruence.
  - cbn [length] in Hn. cbv zeta.
    destruct (attrExists w light a) eqn:Hex.
    + rewrite (decide_False (P := S c = n)) by lia.
      rewrite (IH (S c) kept (S p)); [|lia|cbn [length]; lia|done].
      apply decide_ext. rewrite (Forall_cons _ light). split.
      * intros [E H]. split; [lia|]. by split.
      * intros [E [_ H]]. split; [lia|done].
    + rewrite (decide_False (P := c = n)) by lia.
      rewrite (IH c kept (S p)); [|lia|cbn [length]; lia|done].
      rewrite decide_False by (intros [? _]; lia).
      rewrite decide_False; [done|]. intros [_ H]. apply Forall_cons in H as [H _]. congruence.
Qed.

Lemma fold_count_attribute w lights (l : list string) :
  lights ≠ [] →
  ∀ kept,
    fold_left (λ kept attr_, count_attribute w attr_ (length lights) lights 0 kept) l kept
    = kept ++ filter (λ a, Forall (λ light, attrExists w light a = true) lights) l.
Proof.
  intros Hne. induction l as [|a l IH]; intros kept; [cbn; by rewrite app_nil_r|].
  cbn [fold_left]. rewrite IH.
  rewrite (count_attribute_spec w a (length lights) lights 0 kept 0) by (done || lia).
  rewrite filter_cons.
  destruct (decide (Forall _ lights)) as [H|H].
  - rewrite decide_True by done. by rewrite <- app_assoc.
  - rewrite decide_False by tauto. done.
Qed.

(** X11.  With lights answered by the classifier for the selection (their
    transforms), [getMultiAttributesLights] returns the light attributes
    that every one of them has, in the order of [lgt_attrs] and as many
    times as [lgt_attrs] lists them, although the test that keeps an
    attribute sits inside the loop over the lights; the combo box then
    holds these attributes, a separator when there is at least one, and the
    nine transform attributes.  With no light selected it returns [None]
    and leaves the combo box as it is. *)
Theorem getMultiAttributesLights_shared self items w :
  match (_onlyLightsFromSelection self false false w).1 with
  | Return (Some lights) =>
      let kept := filter (λ a, Forall (λ light, attrExists w light a = true) lights)
                         (lgt_attrs self) in
      (getMultiAttributesLights self items w).1
      = Return (Some kept,
                (Some <$> kept) ++ (if decide (kept = []) then [] else [None])
                ++ (Some <$> transform_attrs))
  | Return None => (getMultiAttributesLights self items w).1 = Return (None, items)
  | Raise e => (getMultiAttributesLights self items w).1 = Raise e
  end.
Proof.
  destruct (_onlyLightsFromSelection self false false w).1 as [[lights|]|e] eqn:HS.
  - pose proof (onlyLightsFromSelection_parents_nonempty _ _ _ _ HS) as Hne.
    unfold getMultiAttributesLights.
    rewrite (bind_Return _ _ _ _ _ (onlyLightsFromSelection_Some _ _ _ _ _ HS)).
    destruct lights as [|l0 ls]; [done|]. set (lights := l0 :: ls) in *.
    rewrite bind_get_world. cbv zeta. rewrite bind_logger. unfold ret. cbn [fst].
    change (attrExists (with_log _ w)) with (attrExists w).
    rewrite (fold_count_attribute _ lights _ Hne []). cbn [app].
    set (kept := filter _ _). unfold comboBox_items. cbv zeta.
    rewrite length_fmap.
    destruct kept as [|k kept']; [done|].
    rewrite decide_False by done. rewrite decide_False by done.
    by rewrite <- app_assoc.
  - unfold getMultiAttributesLights, bind.
    destruct (_onlyLightsFromSelection self false false w) as [r w1].
    cbn [fst] in HS. by subst r.
  - unfold getMultiAttributesLights, bind.
    destruct (_onlyLightsFromSelection self false false w) as [r w1].
    cbn [fst] in HS. by subst r.
Qed.

(** ** Copying the attributes of the first light *)

Lemma setAttr_spec n a v w :
  is_Some (attrs w !! (n, a)) →
  ∃ w', setAttr n a v w = (Return tt, w')
        ∧ attrs w' = <[(n, a) := v]> (attrs w)
        ∧ nodes w' = nodes w ∧ selection w' = selection w ∧ log w' = log w.
Proof.
  intros H. unfold setAttr. rewrite bind_get_world. unfold attrExists.
  rewrite bool_decide_eq_true_2 by done. rewrite bind_record. unfold modify.
  eexists. split; [reflexivity|]. cbn [attrs nodes selection log with_attrs].
  by rewrite recorded_attrs, recorded_nodes, recorded_selection, recorded_log.
Qed.

Lemma copy_to_slaves a v (slaves : list string) :
  ∀ w, ∃ w',
    for_each slaves (λ slave,
      w <- get_world ;;
      if attrExists w slave a then setAttr slave a v else ret tt) w
    = (Return tt, w')
    ∧ (∀ n b, attrs w' !! (n, b)
              = if decide (b = a ∧ n ∈ slaves ∧ is_Some (attrs w !! (n, a)))
                then Some v else attrs w !! (n, b))
    ∧ nodes w' = nodes w ∧ selection w' = selection w ∧ log w' = log w.
Proof.
  induction slaves as [|s slaves IH]; intros w.
  - exists w. split; [done|]. split; [|done]. intros n b.
    rewrite decide_False; [done|]. intros (_ & H & _). by apply elem_of_nil in H.
  - cbn [for_each]. rewrite bind_assoc, bind_get_world. cbv beta.
    unfold attrExists at 1.
    destruct (attrs w !! (s, a)) as [cur|] eqn:Hcur.
    + rewrite bool_decide_eq_true_2 by by eexists.
      destruct (setAttr_spec s a v w) as (w1 & R1 & A1 & N1 & S1 & L1); [by eexists|].
      rewrite (bind_Return _ _ _ _ _ R1).
      destruct (IH w1) as (w' & R & A & N & S & L).
      exists w'. split; [exact R|]. split; [|by rewrite N, S, L].
      intros n b. rewrite A, A1.
      destruct (decide ((n, b) = (s, a))) as [E|E].
      * injection E as -> ->. rewrite !lookup_insert_eq.
        rewrite (decide_True (P := _ ∧ s ∈ s :: slaves ∧ _)).
        -- by destruct (decide _).
        -- split; [done|]. split; [by left|by eexists].
      * rewrite (lookup_insert_ne _ (s, a) (n, b)) by done.
        destruct (decide (n = s)) as [->|Hn].
        -- assert (b ≠ a) by congruence.
           rewrite !decide_False; [done|intros (? & _); done|intros (? & _); done].
        -- rewrite (lookup_insert_ne _ (s, a) (n, a)) by congruence.
           apply decide_ext. rewrite elem_of_cons. split.
           ++ intros (? & ? & ?). split; [done|]. split; [by right|done].
           ++ intros (? & [?|?] & ?); done.
    + rewrite bool_decide_eq_false_2 by (by intros [? ?]). rewrite bind_ret.
      destruct (IH w) as (w' & R & A & N & S & L).
      exists w'. split; [exact R|]. split; [|done].
      intros n b. rewrite A. apply decide_ext. rewrite elem_of_cons. split.
      * intros (? & ? & ?). split; [done|]. split; [by right|done].
      * intros (-> & [->|Hin] & [y Hy]); [congruence|].
        split; [done|]. split; [done|by eexists].
Qed.

Lemma copy_attributes self driver (slaves : list string) w0 (done_ todo : list string) :
  (∀ b, b ∈ done_ ++ todo → b ∈ lgt_attrs self) →
  (∀ b, b ∈ lgt_attrs self → b ∈ done_ ++ todo) →
  ∀ w,
    (∀ n b, attrs w !! (n, b)
            = if decide (b ∈ done_ ∧ copied self w0 driver slaves n b)
              then attrs w0 !! (driver, b) else attrs w0 !! (n, b)) →
    ∃ w',
      for_each todo (λ attr_,
        w <- get_world ;;
        if attrExists w driver attr_ then
          copy_attr <- getAttr driver attr_ ;;
          for_each slaves (λ slave,
            w <- get_world ;;
            if attrExists w slave attr_ then setAttr slave attr_ copy_attr else ret tt)
        else ret tt) w
      = (Return tt, w')
      ∧ (∀ n b, attrs w' !! (n, b)
                = if decide (copied self w0 driver slaves n b)
                  then attrs w0 !! (driver, b) else attrs w0 !! (n, b))
      ∧ nodes w' = nodes w ∧ selection w' = selection w ∧ log w' = log w.
Proof.
  revert done_. induction todo as [|a todo IH]; intros done_ Hsub Hsup w Hinv.
  - exists w. split; [done|]. split; [|done]. intros n b. rewrite Hinv.
    apply decide_ext. split; [tauto|]. intros H. split; [|done].
    destruct H as (H & _). apply Hsup in H. by rewrite app_nil_r in H.
  - assert (∀ n, attrs w !! (n, a) = None ↔ attrs w0 !! (n, a) = None) as Hnone.
    { intros n. rewrite Hinv. destruct (decide _) as [(_ & _ & _ & [x Hx] & [y Hy])|_]; [|done].
      rewrite Hx, Hy. done. }
    assert (attrs w !! (driver, a) = attrs w0 !! (driver, a)) as Hdrv.
    { rewrite Hinv. by destruct (decide _). }
    cbn [for_each]. rewrite bind_assoc, bind_get_world. cbv beta.
    assert (∀ b, b ∈ (done_ ++ [a]) ++ todo ↔ b ∈ done_ ++ a :: todo) as Hsame.
    { intros b. by rewrite <- app_assoc. }
    unfold attrExists at 1. unfold getAttr.
    destruct (attrs w !! (driver, a)) as [v|] eqn:Hv.
    + rewrite bool_decide_eq_true_2 by by eexists.
      rewrite bind_assoc. unfold bind at 1. rewrite Hv.
      destruct (copy_to_slaves a v slaves w) as (w1 & R1 & A1 & N1 & S1 & L1).
      rewrite (bind_Return _ _ _ _ _ R1).
      destruct (IH (done_ ++ [a]) (λ b H, Hsub b (proj1 (Hsame b) H))
                  (λ b H, proj2 (Hsame b) (Hsup b H)) w1) as (w' & R & A & N & S & L).
      * intros n b. rewrite A1.
        destruct (decide (b = a ∧ n ∈ slaves ∧ is_Some (attrs w !! (n, a))))
          as [(-> & Hn & Hs)|Hnot].
        -- rewrite decide_True; [by rewrite <- Hdrv|].
           split; [apply elem_of_app; right; by left|].
           split; [apply Hsub, elem_of_app; right; by left|]. split; [done|].
           split; [rewrite <- Hdrv; by eexists|].
           destruct (attrs w0 !! (n, a)) eqn:E; [by eexists|].
           apply Hnone in E. rewrite E in Hs. by destruct Hs.
        -- rewrite Hinv. apply decide_ext. rewrite elem_of_app, list_elem_of_singleton.
           split; [tauto|]. intros ([?| ->] & Hc); [tauto|]. exfalso. apply Hnot.
           destruct Hc as (_ & Hn & _ & Hs). split; [done|]. split; [done|].
           destruct (attrs w !! (n, a)) eqn:E; [by eexists|].
           apply Hnone in E. rewrite E in Hs. by destruct Hs.
      * exists w'. split; [exact R|]. split; [exact A|]. by rewrite N, S, L.
    + rewrite bool_decide_eq_false_2 by (by intros [? ?]). rewrite bind_ret.
      destruct (IH (done_ ++ [a]) (λ b H, Hsub b (proj1 (Hsame b) H))
                  (λ b H, proj2 (Hsame b) (Hsup b H)) w) as (w' & R & A & N & S & L).
      * intros n b. rewrite Hinv. apply decide_ext.
        rewrite elem_of_app, list_elem_of_singleton.
        split; [tauto|]. intros ([?| ->] & Hc); [tauto|]. exfalso.
        destruct Hc as (_ & _ & [x Hx] & _). congruence.
      * exists w'. split; [exact R|]. split; [exact A|]. done.
Qed.

(** X12.  With the light shapes of the selection answered by the
    classifier, the first being the driver, [transfertLightAttrs] answers
    [None] and gives every other selected light the value the driver had
    for each light attribute that both have; no other attribute of the
    scene changes, the attributes of the driver included, and the other
    lights are left selected. *)
Theorem transfertLightAttrs_copies self w driver slaves :
  (_onlyLightsFromSelection self true false w).1 = Return (Some (driver :: slaves)) →
  (transfertLightAttrs self w).1 = Return None
  ∧ (∀ n b, attrs (transfertLightAttrs self w).2 !! (n, b)
            = if decide (copied self w driver slaves n b)
              then attrs w !! (driver, b) else attrs w !! (n, b))
  ∧ (∀ b, attrs (transfertLightAttrs self w).2 !! (driver, b) = attrs w !! (driver, b))
  ∧ selection (transfertLightAttrs self w).2 = slaves
  ∧ nodes (transfertLightAttrs self w).2 = nodes w.
Proof.
  intros HS.
  assert ((_onlyLightsFromSelection self true false (opened w)).1
          = Return (Some (driver :: slaves))) as HS'.
  { rewrite <- HS. apply onlyLightsFromSelection_scene; by autorewrite with run. }
  unfold transfertLightAttrs. rewrite wrapperUndoChunck_run.
  unfold transfertLightAttrs_body.
  rewrite (bind_Return _ _ _ _ _ (onlyLightsFromSelection_Some _ _ _ _ _ HS')).
  set (w1 := with_log _ (opened w)).
  destruct (copy_attributes self driver slaves w [] (lgt_attrs self)
              (λ b H, H) (λ b H, H) w1) as (w2 & R & A & N & S & L).
  { intros n b. unfold w1. cbn [attrs with_log]. rewrite opened_attrs.
    rewrite decide_False; [done|]. intros [H _]. by apply elem_of_nil in H. }
  rewrite (bind_Return _ _ _ _ _ R), bind_pm_select, bind_logger. unfold ret.
  cbn [fst snd]. rewrite closed_attrs, closed_selection, closed_nodes.
  cbn [attrs selection nodes with_log with_selection].
  rewrite recorded_attrs, recorded_nodes.
  split; [done|]. split; [exact A|]. split.
  - intros b. rewrite A. by destruct (decide _).
  - split; [done|]. rewrite N. unfold w1. cbn [nodes with_log]. apply opened_nodes.
Qed.

Lemma transfertLightAttrs_copies_witness :
  (_onlyLightsFromSelection panel true false studio_three_selected).1
  = Return (Some ("keyShape" :: ["fillShape"]))
  ∧ (transfertLightAttrs panel studio_three_selected).1 = Return None
  ∧ (∀ n b, attrs (transfertLightAttrs panel studio_three_selected).2 !! (n, b)
            = if decide (copied panel studio_three_selected "keyShape" ["fillShape"] n b)
              then attrs studio_three_selected !! ("keyShape", b)
              else attrs studio_three_selected !! (n, b))
  ∧ (∀ b, attrs (transfertLightAttrs panel studio_three_selected).2 !! ("keyShape", b)
          = attrs studio_three_selected !! ("keyShape", b))
  ∧ selection (transfertLightAttrs panel studio_three_selected).2 = ["fillShape"]
  ∧ nodes (transfertLightAttrs panel studio_three_selected).2 = nodes studio_three_selected.
Proof.
  assert ((_onlyLightsFromSelection panel true false studio_three_selected).1
          = Return (Some ("keyShape" :: ["fillShape"]))) as HS by (vm_compute; reflexivity).
  split; [exact HS|].
  exact (transfertLightAttrs_copies panel studio_three_selected "keyShape" ["fillShape"] HS).
Defined.


(** ** Creating a set *)

Lemma pm_select_sets l w :
  ∃ w', pm_select l w = (Return tt, w')
        ∧ nodes w' = nodes w ∧ objectSets w' = objectSets w ∧ selection w' = l
        ∧ log w' = log w.
Proof.
  eexists. split; [apply pm_select_run|].
  cbn [nodes objectSets selection log with_selection].
  by rewrite recorded_nodes, recorded_objectSets, recorded_log.
Qed.

Lemma pm_sets_spec name w :
  nodes w !! name = None →
  ∃ w', pm_sets name w = (Return name, w')
        ∧ nodes w' = <[name := "objectSet"]> (nodes w)
        ∧ objectSets w' = <[name := selection w]> (objectSets w)
        ∧ selection w' = selection w ∧ log w' = log w.
Proof.
  intros H. unfold pm_sets. rewrite bind_get_world, (unique_name_free w name H).
  rewrite bind_record, bind_modify, bind_modify. unfold ret.
  eexists. split; [reflexivity|].
  cbn [nodes objectSets selection log with_nodes with_objectSets].
  by rewrite recorded_nodes, recorded_objectSets, recorded_selection, recorded_log.
Qed.

Lemma set_addMembers_spec set_ l w :
  ∃ w', set_addMembers set_ l w = (Return tt, w')
        ∧ nodes w' = nodes w
        ∧ objectSets w' = alter (λ m, m ++ l) set_ (objectSets w)
        ∧ selection w' = selection w ∧ log w' = log w.
Proof.
  unfold set_addMembers. rewrite bind_record. unfold modify.
  eexists. split; [reflexivity|].
  cbn [nodes objectSets selection log with_objectSets].
  by rewrite recorded_nodes, recorded_objectSets, recorded_selection, recorded_log.
Qed.

Lemma sets_forceElement_spec root element w :
  ∃ w', sets_forceElement root element w = (Return tt, w')
        ∧ nodes w' = nodes w
        ∧ objectSets w' = alter (λ m, m ++ [element]) root (objectSets w)
        ∧ selection w' = selection w ∧ log w' = log w.
Proof.
  unfold sets_forceElement. rewrite bind_record. unfold modify.
  eexists. split; [reflexivity|].
  cbn [nodes objectSets selection log with_objectSets].
  by rewrite recorded_nodes, recorded_objectSets, recorded_selection, recorded_log.
Qed.

(** The root set is there, with the members it had. *)
Lemma root_set_spec w :
  (objExists w "root_SETS" = true ↔ is_Some (objectSets w !! "root_SETS")) →
  ∃ w', (if objExists w "root_SETS" then ret "root_SETS"
         else pm_select_clear ;;; pm_sets "root_SETS") w
        = (Return "root_SETS", w')
        ∧ is_Some (nodes w' !! "root_SETS")
        ∧ (∀ n, n ≠ "root_SETS" → nodes w' !! n = nodes w !! n)
        ∧ objectSets w'
          = <["root_SETS" := default [] (objectSets w !! "root_SETS")]> (objectSets w)
        ∧ log w' = log w.
Proof.
  intros Hwf. destruct (objExists w "root_SETS") eqn:Hex.
  - exists w. split; [done|]. split; [by apply objExists_true|]. split; [done|].
    destruct (proj1 Hwf eq_refl) as [m Hm]. rewrite Hm. cbn.
    split; [|done]. by rewrite insert_id.
  - unfold pm_select_clear.
    destruct (pm_select_sets [] w) as (w1 & R1 & N1 & O1 & S1 & L1).
    destruct (pm_sets_spec "root_SETS" w1) as (w2 & R2 & N2 & O2 & S2 & L2).
    { rewrite N1. by apply objExists_false. }
    exists w2. split; [by rewrite (bind_Return _ _ _ _ _ R1)|].
    split; [by rewrite N2, lookup_insert_eq|]. split.
    { intros n Hn. by rewrite N2, lookup_insert_ne, N1. }
    split; [|congruence]. rewrite O2, S1, O1.
    destruct (objectSets w !! "root_SETS") as [m|] eqn:Hm; [|done].
    assert (is_Some (Some m)) as H by by eexists. apply Hwf in H. discriminate.
Qed.

Lemma createSet_body_creates self prompt w last_selected transforms text :
  last (selection w) = Some last_selected →
  (getParents (set_shapes w) w).1 = Return transforms →
  transforms ≠ [] →
  prompt (before_underscore last_selected) = ("OK", text) →
  nodes w !! set_name text = None →
  set_name text ≠ "root_SETS" →
  (objExists w "root_SETS" = true ↔ is_Some (objectSets w !! "root_SETS")) →
  ∃ w', createSet_body self prompt w = (Return (Some (set_name text)), w')
    ∧ nodes w' !! set_name text = Some "objectSet"
    ∧ objectSets w' !! set_name text = Some transforms
    ∧ is_Some (nodes w' !! "root_SETS")
    ∧ objectSets w' !! "root_SETS"
      = Some (default [] (objectSets w !! "root_SETS") ++ [set_name text])
    ∧ selection w' = selection w
    ∧ log w' = log w ++ [(INFO, set_name text)].
Proof.
  intros Hlast Hps Hne Hprompt Hfree Hroot Hwf.
  unfold createSet_body. rewrite bind_pm_selected, Hlast, bind_get_world.
  fold (set_shapes w). unfold bind at 1. rewrite (getParents_pair _ w), Hps.
  rewrite decide_False by done. rewrite Hprompt, decide_True by done.
  rewrite bind_get_world. fold (set_name text).
  destruct (root_set_spec w Hwf) as (w1 & R1 & N1 & N1' & O1 & L1).
  rewrite (bind_Return _ _ _ _ _ R1). unfold pm_select_clear.
  destruct (pm_select_sets [] w1) as (w2 & R2 & N2 & O2 & S2 & L2).
  rewrite (bind_Return _ _ _ _ _ R2).
  destruct (pm_sets_spec (set_name text) w2) as (w3 & R3 & N3 & O3 & S3 & L3).
  { by rewrite N2, N1'. }
  rewrite (bind_Return _ _ _ _ _ R3).
  destruct (set_addMembers_spec (set_name text) transforms w3) as (w4 & R4 & N4 & O4 & S4 & L4).
  rewrite (bind_Return _ _ _ _ _ R4).
  destruct (sets_forceElement_spec "root_SETS" (set_name text) w4)
    as (w5 & R5 & N5 & O5 & S5 & L5).
  rewrite (bind_Return _ _ _ _ _ R5).
  destruct (pm_select_sets (selection w) w5) as (w6 & R6 & N6 & O6 & S6 & L6).
  rewrite (bind_Return _ _ _ _ _ R6), bind_logger. unfold ret.
  eexists. split; [reflexivity|].
  cbn [nodes objectSets selection log with_log].
  rewrite N6, N5, N4, N3, N2, O6, O5, O4, O3, O2, O1, S6, S2, L6, L5, L4, L3, L2, L1.
  split; [by rewrite lookup_insert_eq|]. split.
  { rewrite lookup_alter_ne by done. by rewrite lookup_alter_eq, lookup_insert_eq. }
  split; [by rewrite lookup_insert_ne|]. split; [|done].
  rewrite lookup_alter_eq, lookup_alter_ne, lookup_insert_ne, lookup_insert_eq by done.
  done.
Qed.



(** ** The test on the name typed *)

Lemma prefix_cons_true c s1 c' s2 :
  String.prefix (String c s1) (String c' s2) = true ↔ c = c' ∧ String.prefix s1 s2 = true.
Proof.
  cbn [String.prefix]. destruct (ascii_dec c c') as [->|Hn].
  - tauto.
  - split; [discriminate|]. intros [? _]. done.
Qed.

Lemma prefix_SETS s :
  String.prefix "_SETS" s = true ↔ ∃ post, s = "_SETS" +:+ post.
Proof.
  split.
  - intros H.
    destruct s as [|c1 s]; [discriminate|]. apply prefix_cons_true in H as [<- H].
    destruct s as [|c2 s]; [discriminate|]. apply prefix_cons_true in H as [<- H].
    destruct s as [|c3 s]; [discriminate|]. apply prefix_cons_true in H as [<- H].
    destruct s as [|c4 s]; [discriminate|]. apply prefix_cons_true in H as [<- H].
    destruct s as [|c5 s]; [discriminate|]. apply prefix_cons_true in H as [<- H].
    by exists s.
  - intros [post ->]. repeat (apply prefix_cons_true; split; [done|]). by destruct post.
Qed.

Lemma search_SETS_after b s :
  search_SETS b s = true
  ↔ (b = true ∧ ∃ post, s = "_SETS" +:+ post)
    ∨ ∃ pre c post, s = pre +:+ String c ("_SETS" +:+ post) ∧ is_word_char c = true.
Proof.
  revert b. induction s as [|c s IH]; intros b.
  - cbn [search_SETS]. split; [discriminate|].
    intros [[_ [post H]]|(pre & c & post & H & _)]; [discriminate|].
    destruct pre; discriminate.
  - cbn [search_SETS]. rewrite orb_true_iff, andb_true_iff, prefix_SETS, IH. split.
    + intros [H|[[Hc [post ->]]|(pre & c' & post & -> & Hc')]]; [by left|right..].
      * exists "", c, post. done.
      * exists (String c pre), c', post. done.
    + intros [H|(pre & c' & post & H & Hc')]; [by left|right].
      destruct pre as [|p pre]; cbn [String.append] in H; injection H as -> ->.
      * left. split; [done|]. by exists post.
      * right. by exists pre, c', post.
Qed.

(** X14.  The name [createSet] gives the set is the text typed or the text
    followed by "_SET"; it is the text typed exactly when the text has
    "_SETS" right after a letter, a digit or an underscore.  The suffix the
    test looks for is not the one that is added: a text that ends in "_SET"
    gets the suffix a second time. *)
Theorem set_name_suffix text :
  (set_name text = text ∨ set_name text = text +:+ "_SET")
  ∧ (set_name text = text
     ↔ ∃ pre c post, text = pre +:+ String c ("_SETS" +:+ post) ∧ is_word_char c = true).
Proof.
  assert (search_SETS false text = true
          ↔ ∃ pre c post, text = pre +:+ String c ("_SETS" +:+ post)
                          ∧ is_word_char c = true) as Hs.
  { rewrite search_SETS_after. split; [|by right].
    intros [[? _]|H]; [discriminate|done]. }
  unfold set_name. destruct (search_SETS false text) eqn:E.
  - split; [by left|]. split; [intros _; by apply Hs|done].
  - split; [by right|]. split; [|intros H; apply Hs in H; discriminate].
    intros H. exfalso. clear -H. induction text as [|c t IH]; [discriminate|].
    cbn [String.append] in H. injection H as H. by apply IH.
Qed.

Example set_name_examples :
  set_name "lights_SET" = "lights_SET_SET"
  ∧ set_name "lights_SETS" = "lights_SETS"
  ∧ set_name "_SETS" = "_SETS_SET"
  ∧ set_name "lights" = "lights_SET".
Proof. split_and!; vm_compute; reflexivity. Qed.


(** ** Copying the light filters of the first light *)

Lemma scan_connections_scan w l fuel :
  ∀ i, let dc := scan_connections fuel i w l in
       (∀ j, j < length dc → aiFilters w !! (l, i + j) = dc !! j)
       ∧ (aiFilters w !! (l, i + length dc) = None ∨ length dc = fuel).
Proof.
  induction fuel as [|fuel IH]; intros i; cbn [scan_connections].
  - split; [intros j Hj; cbn in Hj; lia|by right].
  - destruct (aiFilters w !! (l, i)) as [src|] eqn:Hi.
    + destruct (IH (S i)) as [Hall Hend]. cbn zeta in Hall, Hend. cbn [length]. split.
      * intros [|j] Hj; [by rewrite Nat.add_0_r|].
        cbn [lookup list_lookup]. rewrite <- Hall by lia. f_equal. f_equal. lia.
      * destruct Hend as [Hend|Hend]; [left|right; lia].
        rewrite <- Hend. f_equal. f_equal. lia.
    + cbn [length]. split; [intros j Hj; lia|left]. by rewrite Nat.add_0_r.
Qed.

(** With one turn more than the scene has connections the scan stops on an
    index with no connection. *)
Lemma scan_connections_full w l :
  let dc := scan_connections (S (size (aiFilters w))) 0 w l in
  (∀ j, j < length dc → aiFilters w !! (l, j) = dc !! j)
  ∧ aiFilters w !! (l, length dc) = None.
Proof.
  destruct (scan_connections_scan w l (S (size (aiFilters w))) 0) as [Hall Hend].
  cbv zeta in *. cbn [Nat.add] in Hall, Hend. split; [exact Hall|].
  destruct Hend as [Hend|Hend]; [done|]. exfalso.
  pose proof (connected_prefix_size (aiFilters w) l
                (length (scan_connections (S (size (aiFilters w))) 0 w l))) as Hsz.
  enough (length (scan_connections (S (size (aiFilters w))) 0 w l) ≤ size (aiFilters w))
    by lia.
  apply Hsz. intros j Hj. rewrite (Hall j Hj). by apply lookup_lt_is_Some_2.
Qed.

Lemma filters_are_size w light fs : filters_are w light fs → length fs ≤ size (aiFilters w).
Proof.
  intros H. apply (connected_prefix_size _ light). intros j Hj.
  rewrite H. by apply lookup_lt_is_Some_2.
Qed.

Lemma unplug_filters_dense fs slave :
  ∀ fuel i w,
    length fs < i + fuel →
    (∀ j, aiFilters w !! (slave, j) = if decide (j < i) then None else fs !! j) →
    ∃ w', unplug_filters fuel i slave w = (Return tt, w')
          ∧ (∀ j, aiFilters w' !! (slave, j) = None)
          ∧ (∀ l j, l ≠ slave → aiFilters w' !! (l, j) = aiFilters w !! (l, j)).
Proof.
  induction fuel as [|fuel IH]; intros i w Hfuel Hinv.
  - exists w. split; [done|]. split; [|done]. intros j. rewrite Hinv.
    destruct (decide (j < i)); [done|]. apply lookup_ge_None. lia.
  - cbn [unplug_filters]. rewrite bind_get_world. unfold isDestination.
    destruct (aiFilters w !! (slave, i)) as [src|] eqn:Hi.
    + rewrite bool_decide_eq_true_2 by by eexists.
      unfold sourceFromDestination. unfold bind at 1. rewrite Hi.
      destruct (disconnect_spec src slave i w Hi) as (w1 & R1 & A1 & _).
      rewrite (bind_Return _ _ _ _ _ R1).
      assert (i < length fs) as Hlt.
      { rewrite Hinv in Hi. rewrite decide_False in Hi by lia. by eapply lookup_lt_Some. }
      destruct (IH (S i) w1) as (w' & R & A & F); [lia| |].
      * intros j. rewrite A1. destruct (decide (j = i)) as [->|Hj].
        -- rewrite lookup_delete_eq. by rewrite decide_True by lia.
        -- rewrite lookup_delete_ne by congruence. rewrite Hinv.
           destruct (decide (j < i)); [by rewrite decide_True by lia|].
           by rewrite decide_False by lia.
      * exists w'. split; [exact R|]. split; [exact A|].
        intros l j Hl. rewrite F by done. rewrite A1. by rewrite lookup_delete_ne by congruence.
    + rewrite bool_decide_eq_false_2 by (by intros [? ?]).
      exists w. split; [done|]. split; [|done]. intros j. rewrite Hinv.
      destruct (decide (j < i)); [done|].
      rewrite Hinv, decide_False in Hi by lia.
      apply lookup_ge_None. apply lookup_ge_None in Hi. lia.
Qed.

Lemma plug_filters_free slave :
  ∀ dc i w,
    (∀ j, i ≤ j → aiFilters w !! (slave, j) = None) →
    ∃ w', plug_filters i dc slave w = (Return tt, w')
          ∧ (∀ j, aiFilters w' !! (slave, j)
                  = if decide (i ≤ j) then dc !! (j - i) else aiFilters w !! (slave, j))
          ∧ (∀ l j, l ≠ slave → aiFilters w' !! (l, j) = aiFilters w !! (l, j)).
Proof.
  induction dc as [|src dc IH]; intros i w Hfree.
  - exists w. split; [done|]. split; [|done]. intros j.
    destruct (decide (i ≤ j)); [|done]. by rewrite Hfree.
  - cbn [plug_filters].
    destruct (connect_spec src slave i w) as (w1 & R1 & A1 & _).
    rewrite (bind_Return _ _ _ _ _ R1).
    destruct (IH (S i) w1) as (w' & R & A & F).
    { intros j Hj. rewrite A1, lookup_insert_ne by (intros [= ?]; lia). apply Hfree. lia. }
    exists w'. split; [exact R|]. split.
    + intros j. rewrite A. destruct (decide (S i ≤ j)) as [Hj|Hj].
      * rewrite decide_True by lia. replace (j - i) with (S (j - S i)) by lia. done.
      * rewrite A1. destruct (decide (j = i)) as [->|Hji].
        -- rewrite lookup_insert_eq, decide_True by lia. by rewrite Nat.sub_diag.
        -- rewrite lookup_insert_ne by congruence. by rewrite decide_False by lia.
    + intros l j Hl. rewrite F by done. rewrite A1. by rewrite lookup_insert_ne by congruence.
Qed.

Lemma transfer_filters_loop (dc : list string) w0 :
  ∀ todo done_ w,
    (∀ l j, aiFilters w !! (l, j)
            = if decide (l ∈ done_) then dc !! j else aiFilters w0 !! (l, j)) →
    Forall (λ slave, ∃ fs, filters_are w0 slave fs) todo →
    ∃ w', for_each todo (λ slave,
            w <- get_world ;;
            unplug_filters (S (size (aiFilters w))) 0 slave ;;;
            plug_filters 0 dc slave) w
          = (Return tt, w')
          ∧ ∀ l j, aiFilters w' !! (l, j)
                   = if decide (l ∈ done_ ++ todo) then dc !! j else aiFilters w0 !! (l, j).
Proof.
  induction todo as [|s todo IH]; intros done_ w Hinv Hdense.
  - exists w. split; [done|]. intros l j. rewrite Hinv, app_nil_r. done.
  - apply Forall_cons in Hdense as [[fs0 Hfs0] Hdense].
    assert (∃ fs, filters_are w s fs) as [fs Hfs].
    { destruct (decide (s ∈ done_)).
      - exists dc. intros j. rewrite Hinv. by rewrite decide_True.
      - exists fs0. intros j. rewrite Hinv. by rewrite decide_False. }
    cbn [for_each]. rewrite bind_assoc, bind_get_world. cbv beta.
    destruct (unplug_filters_dense fs s (S (size (aiFilters w))) 0 w) as (w1 & R1 & A1 & F1).
    { pose proof (filters_are_size w s fs Hfs). lia. }
    { intros j. rewrite decide_False by lia. apply Hfs. }
    rewrite bind_assoc, (bind_Return _ _ _ _ _ R1).
    destruct (plug_filters_free s dc 0 w1) as (w2 & R2 & A2 & F2).
    { intros j _. apply A1. }
    rewrite (bind_Return _ _ _ _ _ R2).
    destruct (IH (done_ ++ [s]) w2) as (w' & R & A); [|done|].
    + intros l j. destruct (decide (l = s)) as [->|Hl].
      * rewrite A2, decide_True by lia. rewrite Nat.sub_0_r.
        rewrite decide_True; [done|]. apply elem_of_app. right. by left.
      * rewrite F2, F1, Hinv by done. apply decide_ext.
        rewrite elem_of_app, list_elem_of_singleton. tauto.
    + exists w'. split; [exact R|]. intros l j. rewrite A. apply decide_ext.
      by rewrite <- app_assoc.
Qed.

(** X15.  With the light shapes of the selection answered by the
    classifier, the first being the driver, and the filters of the driver
    from index 0 up to its first free index not empty, in a scene where
    the filters of every other selected light have no gap:
    [transfertLightFilters] answers [None]; every other selected light then
    has exactly those filters of the driver, at the same indices, and none
    of the filters it had; the connections of every light that is not among
    them are as they were; and the other lights are left selected. *)
Theorem transfertLightFilters_copies self w driver slaves :
  (_onlyLightsFromSelection self true false w).1 = Return (Some (driver :: slaves)) →
  scan_connections (S (size (aiFilters w))) 0 w driver ≠ [] →
  Forall (λ slave, ∃ fs, filters_are w slave fs) slaves →
  let dc := scan_connections (S (size (aiFilters w))) 0 w driver in
  ((∀ j, j < length dc → aiFilters w !! (driver, j) = dc !! j)
   ∧ aiFilters w !! (driver, length dc) = None)
  ∧ (transfertLightFilters self w).1 = Return None
  ∧ (∀ l j, aiFilters (transfertLightFilters self w).2 !! (l, j)
            = if decide (l ∈ slaves) then dc !! j else aiFilters w !! (l, j))
  ∧ selection (transfertLightFilters self w).2 = slaves.
Proof.
  intros HS Hdc Hdense dc. split; [apply scan_connections_full|].
  assert ((_onlyLightsFromSelection self true false (opened w)).1
          = Return (Some (driver :: slaves))) as HS'.
  { rewrite <- HS. apply onlyLightsFromSelection_scene; by autorewrite with run. }
  unfold transfertLightFilters. rewrite wrapperUndoChunck_run.
  unfold transfertLightFilters_body.
  rewrite (bind_Return _ _ _ _ _ (onlyLightsFromSelection_Some _ _ _ _ _ HS')).
  set (w1 := with_log _ (opened w)). rewrite bind_get_world. cbv zeta.
  assert (aiFilters w1 = aiFilters w) as A1
    by (unfold w1; cbn [aiFilters with_log]; apply opened_aiFilters).
  assert (scan_connections (S (size (aiFilters w1))) 0 w1 driver = dc) as ->.
  { rewrite A1. unfold dc. generalize (S (size (aiFilters w))) 0.
    intros fuel. induction fuel as [|fuel IH]; intros i; [done|].
    cbn [scan_connections]. rewrite A1. by rewrite IH. }
  rewrite decide_False by done.
  destruct (transfer_filters_loop dc w slaves [] w1) as (w2 & R & A).
  { intros l j. rewrite decide_False by apply not_elem_of_nil. by rewrite A1. }
  { done. }
  rewrite (bind_Return _ _ _ _ _ R), bind_pm_select, bind_logger. unfold ret.
  cbn [fst snd]. rewrite closed_aiFilters, closed_selection.
  cbn [aiFilters selection with_log with_selection]. rewrite recorded_aiFilters.
  split; [done|]. split; [|done]. intros l j. by rewrite A.
Qed.

Lemma transfertLightFilters_copies_witness :
  ((_onlyLightsFromSelection panel true false stage_link_selected).1
   = Return (Some ("keyShape" :: ["fillShape"]))
   ∧ scan_connections (S (size (aiFilters stage_link_selected))) 0 stage_link_selected
       "keyShape" ≠ []
   ∧ Forall (λ slave, ∃ fs, filters_are stage_link_selected slave fs) ["fillShape"])
  ∧ ((∀ j, j < length (scan_connections (S (size (aiFilters stage_link_selected))) 0
                         stage_link_selected "keyShape") →
           aiFilters stage_link_selected !! ("keyShape", j)
           = scan_connections (S (size (aiFilters stage_link_selected))) 0
               stage_link_selected "keyShape" !! j)
     ∧ aiFilters stage_link_selected
         !! ("keyShape",
             length (scan_connections (S (size (aiFilters stage_link_selected))) 0
                       stage_link_selected "keyShape")) = None)
  ∧ (transfertLightFilters panel stage_link_selected).1 = Return None
  ∧ (∀ l j, aiFilters (transfertLightFilters panel stage_link_selected).2 !! (l, j)
            = if decide (l ∈ ["fillShape"])
              then scan_connections (S (size (aiFilters stage_link_selected))) 0
                     stage_link_selected "keyShape" !! j
              else aiFilters stage_link_selected !! (l, j))
  ∧ selection (transfertLightFilters panel stage_link_selected).2 = ["fillShape"].
Proof.
  assert ((_onlyLightsFromSelection panel true false stage_link_selected).1
          = Return (Some ("keyShape" :: ["fillShape"]))) as HS by (vm_compute; reflexivity).
  assert (scan_connections (S (size (aiFilters stage_link_selected))) 0 stage_link_selected
            "keyShape" ≠ []) as Hdc by (vm_compute; discriminate).
  assert (Forall (λ slave, ∃ fs, filters_are stage_link_selected slave fs) ["fillShape"])
    as Hdense.
  { constructor; [|constructor]. exists ["blkDShape"]. intros [|j]; [vm_compute; reflexivity|].
    unfold filters_are, stage_link_selected. cbn [aiFilters with_selection].
    destruct (aiFilters stage !! ("fillShape", S j)) as [v|] eqn:E; [|done].
    exfalso. apply elem_of_map_to_list in E.
    set (l := map_to_list (aiFilters stage)) in E. vm_compute in l. subst l.
    repeat (apply elem_of_cons in E as [E|E]; [discriminate E|]).
    by apply not_elem_of_nil in E. }
  split; [by split_and!|].
  exact (transfertLightFilters_copies panel stage_link_selected "keyShape" ["fillShape"]
           HS Hdc Hdense).
Defined.


(** ** Linking twice *)

#[export] Instance graph_kept_refl : Reflexive graph_kept.
Proof. intros w. by unfold graph_kept. Qed.

#[export] Instance graph_kept_trans : Transitive graph_kept.
Proof.
  intros w1 w2 w3 (N1 & S1 & P1 & H1 & Se1 & I1 & O1) (N2 & S2 & P2 & H2 & Se2 & I2 & O2).
  unfold graph_kept. split_and!; congruence.
Qed.

Lemma for_each_rel {A} (R : World → World → Prop) `{!Reflexive R} `{!Transitive R}
    (l : list A) (body : A → M unit) :
  (∀ x w, R w (body x w).2) → ∀ w, R w (for_each l body w).2.
Proof.
  intros Hbody. induction l as [|x l IH]; intros w; [done|].
  cbn [for_each]. unfold bind. pose proof (Hbody x w) as Hx.
  destruct (body x w) as [[[]|e] w1]; cbn [snd] in *; [|done].
  etrans; [exact Hx|apply IH].
Qed.

Lemma link_filter_graph f t l w : graph_kept w (link_filter f t l w).2.
Proof.
  destruct (decide ((f ∉ inputs w l) ∧ (t ∉ inputs w l))) as [Hfresh|Hlinked].
  - rewrite (link_filter_fresh f t l w Hfresh). unfold graph_kept.
    cbn [snd nodes shapes parents hierarchy selection otherInputs otherOutputs with_aiFilters].
    by autorewrite with run.
  - rewrite link_filter_linked; [done|].
    destruct (decide (f ∈ inputs w l)); [by left|].
    destruct (decide (t ∈ inputs w l)); [by right|]. by destruct Hlinked.
Qed.

Lemma link_filters_graph (lights filters : list string) w :
  graph_kept w
    (for_each filters (λ filtr,
       w <- get_world ;;
       let transform_filter := default filtr (parents w !! filtr) in
       for_each lights (link_filter filtr transform_filter)) w).2.
Proof.
  apply (for_each_rel graph_kept). intros f w'. rewrite bind_get_world. cbv zeta.
  apply (for_each_rel graph_kept). intros l w''. apply link_filter_graph.
Qed.

Lemma link_filters_noop (lights filters : list string) w :
  (∀ f l, f ∈ filters → l ∈ lights →
          f ∈ inputs w l ∨ default f (parents w !! f) ∈ inputs w l) →
  for_each filters (λ filtr,
    w <- get_world ;;
    let transform_filter := default filtr (parents w !! filtr) in
    for_each lights (link_filter filtr transform_filter)) w
  = (Return tt, w).
Proof.
  induction filters as [|f filters IH]; intros H; [done|].
  cbn [for_each]. rewrite bind_assoc, bind_get_world. cbv beta zeta.
  assert (for_each lights (link_filter f (default f (parents w !! f))) w = (Return tt, w))
    as Hinner.
  { assert (∀ l, l ∈ lights → f ∈ inputs w l ∨ default f (parents w !! f) ∈ inputs w l)
      as Hf by (intros l Hl; apply H; [by left|done]).
    clear -Hf. induction lights as [|l lights IHl]; [done|].
    assert (l ∈ l :: lights) as Hl by by left.
    cbn [for_each]. rewrite (bind_Return _ _ _ _ _ (link_filter_linked _ _ _ _ (Hf l Hl))).
    apply IHl. intros l' Hl'. apply Hf. by right. }
  rewrite (bind_Return _ _ _ _ _ Hinner). apply IH.
  intros f' l Hf' Hl. apply H; [by right|done].
Qed.

Lemma inputs_scene w w2 l :
  aiFilters w2 = aiFilters w → otherInputs w2 = otherInputs w → inputs w2 l = inputs w l.
Proof. intros Ha Ho. unfold inputs. by rewrite Ha, Ho. Qed.

(** X16.  [linkLightFilterToLights] run a second time on the same selection,
    with filters of the type in it, finds every filter among the inputs of
    every light and adds no connection: the connections and the nodes are
    those the first run left. *)
Theorem linkLightFilterToLights_twice self filter_ w lights filters :
  filter_ ∈ ["aiLightDecay"; "aiLightBlocker"; "aiGobo"] →
  sort_selection self w filter_ (selection w) [] [] = Return (lights, filters) →
  lights ≠ [] → filters ≠ [] →
  let w1 := (linkLightFilterToLights self filter_ w).2 in
  (linkLightFilterToLights self filter_ w1).1 = Return None
  ∧ aiFilters (linkLightFilterToLights self filter_ w1).2 = aiFilters w1
  ∧ nodes (linkLightFilterToLights self filter_ w1).2 = nodes w1
  ∧ selection (linkLightFilterToLights self filter_ w1).2 = selection w.
Proof.
  intros Hf Hsort Hne Hfs w1.
  assert (sort_selection self (opened w) filter_ (selection (opened w)) [] []
          = Return (lights, filters)) as Hsort'.
  { rewrite opened_selection, <- Hsort.
    apply sort_selection_scene; [apply opened_nodes|apply opened_shapes]. }
  destruct (linkLightFilterToLights_body_links self filter_ (opened w) lights filters
              Hf Hsort' Hne) as (used & w' & R & U1 & _ & _ & _ & I & _).
  rewrite (U1 Hfs) in *. clear U1.
  assert (graph_kept (opened w) w') as (N & S & P & H & Se & OI & OO).
  { replace w' with (linkLightFilterToLights_body self filter_ (opened w)).2
      by (by rewrite R).
    unfold linkLightFilterToLights_body. rewrite decide_True by done.
    rewrite bind_get_world, Hsort'. destruct lights as [|l0 ls]; [done|].
    rewrite decide_False by done. rewrite bind_ret.
    pose proof (link_filters_graph (l0 :: ls) filters (opened w)) as G.
    unfold bind at 1.
    destruct (for_each filters _ (opened w)) as [[[]|e] w2]; cbn [snd] in G |- *; [|done].
    rewrite bind_logger. unfold ret. cbn [snd]. unfold graph_kept in *.
    cbn [nodes shapes parents hierarchy selection otherInputs otherOutputs with_log].
    done. }
  assert (w1 = closed w') as Hw1.
  { unfold w1, linkLightFilterToLights. by rewrite wrapperUndoChunck_run, R. }
  rewrite Hw1. set (w2 := opened (closed w')).
  assert (nodes w2 = nodes w ∧ shapes w2 = shapes w ∧ parents w2 = parents w
          ∧ selection w2 = selection w ∧ aiFilters w2 = aiFilters w'
          ∧ otherInputs w2 = otherInputs w') as (N2 & S2 & P2 & Se2 & A2 & O2).
  { unfold w2. autorewrite with run. rewrite N, S, P, Se. by autorewrite with run. }
  assert (linkLightFilterToLights_body self filter_ w2
          = (Return (Some filters),
             with_log (λ l, l ++ [(INFO, "filter : " +:+ show_list filters +:+ " ")]) w2))
    as R2.
  { unfold linkLightFilterToLights_body. rewrite decide_True by done.
    rewrite bind_get_world, Se2, (sort_selection_scene self w w2 filter_ _ N2 S2), Hsort.
    destruct lights as [|l0 ls]; [done|].
    rewrite decide_False by done. rewrite bind_ret.
    assert (∀ f l, f ∈ filters → l ∈ l0 :: ls →
                   f ∈ inputs w2 l ∨ default f (parents w2 !! f) ∈ inputs w2 l) as Hall.
    { intros f l Hf' Hl. rewrite !(inputs_scene w' w2 l A2 O2), P2.
      rewrite <- (opened_parents w). by apply I. }
    rewrite (bind_Return _ _ _ _ _ (link_filters_noop (l0 :: ls) filters w2 Hall)).
    by rewrite bind_logger. }
  unfold linkLightFilterToLights at 1 2 3 4. rewrite wrapperUndoChunck_run.
  fold w2. rewrite R2. cbn [fst snd].
  rewrite closed_aiFilters, closed_nodes, closed_selection.
  cbn [aiFilters nodes selection with_log].
  unfold w2. autorewrite with run. rewrite Se. by autorewrite with run.
Qed.

Lemma linkLightFilterToLights_twice_witness :
  ("aiLightBlocker" ∈ ["aiLightDecay"; "aiLightBlocker"; "aiGobo"]
   ∧ sort_selection panel stage_link_selected "aiLightBlocker"
       (selection stage_link_selected) [] []
     = Return (["keyShape"; "fillShape"], ["blkCShape"])
   ∧ ["keyShape"; "fillShape"] ≠ []
   ∧ ["blkCShape"] ≠ [])
  ∧ (linkLightFilterToLights panel "aiLightBlocker"
       (linkLightFilterToLights panel "aiLightBlocker" stage_link_selected).2).1
    = Return None
  ∧ aiFilters (linkLightFilterToLights panel "aiLightBlocker"
                 (linkLightFilterToLights panel "aiLightBlocker" stage_link_selected).2).2
    = aiFilters (linkLightFilterToLights panel "aiLightBlocker" stage_link_selected).2
  ∧ nodes (linkLightFilterToLights panel "aiLightBlocker"
             (linkLightFilterToLights panel "aiLightBlocker" stage_link_selected).2).2
    = nodes (linkLightFilterToLights panel "aiLightBlocker" stage_link_selected).2
  ∧ selection (linkLightFilterToLights panel "aiLightBlocker"
                 (linkLightFilterToLights panel "aiLightBlocker" stage_link_selected).2).2
    = selection stage_link_selected.
Proof.
  assert ("aiLightBlocker" ∈ ["aiLightDecay"; "aiLightBlocker"; "aiGobo"]) as Hf
    by (right; left).
  assert (sort_selection panel stage_link_selected "aiLightBlocker"
            (selection stage_link_selected) [] []
          = Return (["keyShape"; "fillShape"], ["blkCShape"])) as Hsort
    by (vm_compute; reflexivity).
  assert (["keyShape"; "fillShape"] ≠ ([] : list string)) as Hne by discriminate.
  assert (["blkCShape"] ≠ ([] : list string)) as Hfs by discriminate.
  split; [by split_and!|].
  exact (linkLightFilterToLights_twice panel "aiLightBlocker" stage_link_selected
           ["keyShape"; "fillShape"] ["blkCShape"] Hf Hsort Hne Hfs).
Defined.


(** ** Nothing to delete *)

Lemma filterM_scene (p : string → M bool) w w2 l :
  (∀ x, (p x w2).1 = (p x w).1) → (∀ x, (p x w).2 = w) → (∀ x, (p x w2).2 = w2) →
  (filterM p l w2).1 = (filterM p l w).1.
Proof.
  intros H1 Hw Hw2. induction l as [|x l IH]; [done|].
  cbn [filterM]. unfold bind at 1 3.
  pose proof (H1 x) as Hx1. pose proof (Hw x) as Hxw. pose proof (Hw2 x) as Hxw2.
  pose proof (filterM_world p l w Hw) as F1.
  pose proof (filterM_world p l w2 Hw2) as F2.
  destruct (p x w) as [r1 w1], (p x w2) as [r2 w2']. cbn [fst snd] in Hx1, Hxw, Hxw2.
  subst r2 w1 w2'. destruct r1 as [b|e]; [|done].
  unfold bind.
  destruct (filterM p l w) as [r1 w1], (filterM p l w2) as [r2 w2'].
  cbn [fst snd] in IH, F1, F2. subst r2 w1 w2'. by destruct r1.
Qed.

Lemma getAttr_scene n a w w2 :
  attrs w2 = attrs w → (getAttr n a w2).1 = (getAttr n a w).1.
Proof. intros H. unfold getAttr. rewrite H. by destruct (attrs w !! (n, a)). Qed.

Lemma bind_scene {A B} (m : M A) (k : A → M B) w w2 :
  (m w2).1 = (m w).1 → (m w).2 = w → (m w2).2 = w2 →
  (∀ a, (k a w2).1 = (k a w).1) →
  (bind m k w2).1 = (bind m k w).1.
Proof.
  intros H1 Hw Hw2 Hk. unfold bind.
  destruct (m w) as [r1 w1], (m w2) as [r2 w2']. cbn [fst snd] in H1, Hw, Hw2.
  subst r2 w1 w2'. destruct r1 as [a|e]; [apply Hk|done].
Qed.

Lemma getUnusedLightFilters_scene self ai_filter w w2 :
  nodes w2 = nodes w → aiFilters w2 = aiFilters w → otherOutputs w2 = otherOutputs w →
  attrs w2 = attrs w →
  (getUnusedLightFilters self ai_filter w2).1 = (getUnusedLightFilters self ai_filter w).1.
Proof.
  intros Hn Ha Ho Hat. unfold getUnusedLightFilters.
  destruct (decide (ai_filter ∈ _)) as [_|_]; [|done].
  rewrite !bind_get_world.
  assert (ls w2 ai_filter = ls w ai_filter) as -> by (unfold ls; by rewrite Hn).
  destruct (decide (ls w ai_filter = [])) as [|_]; [done|].
  assert (∀ x, outputs w2 x = outputs w x) as Hout
    by (intros x; unfold outputs; by rewrite Ha, Ho).
  rewrite (list_filter_iff (λ x, outputs w2 x = []) (λ x, outputs w x = []))
    by (intros x; by rewrite Hout).
  rewrite (list_filter_iff (λ x, outputs w2 x ≠ []) (λ x, outputs w x ≠ []))
    by (intros x; by rewrite Hout).
  set (connected := filter (λ x, outputs w x ≠ []) (ls w ai_filter)).
  set (blockers := if decide (ai_filter = "aiLightBlocker") then _ else _).
  assert ((blockers w2).1 = (blockers w).1 ∧ (blockers w).2 = w ∧ (blockers w2).2 = w2)
    as (Hb & Hbw & Hbw2).
  { unfold blockers. destruct (decide (ai_filter = "aiLightBlocker")) as [_|_]; [|done].
    assert (∀ w0 x, ((d <- getAttr x "density" ;; ret (py_not d)) w0).2 = w0) as Hw.
    { intros w0 x. unfold bind. pose proof (getAttr_world x "density" w0) as H.
      destruct (getAttr x "density" w0) as [[d|e'] w1]; exact H. }
    split_and!; [|apply filterM_world, Hw..].
    apply filterM_scene; [|apply Hw..].
    intros x. apply bind_scene;
      [by apply getAttr_scene|apply getAttr_world|apply getAttr_world|done]. }
  apply bind_scene; [exact Hb|exact Hbw|exact Hbw2|]. intros bs.
  set (decays := if decide (ai_filter = "aiLightDecay") then _ else _).
  assert ((decays w2).1 = (decays w).1 ∧ (decays w).2 = w ∧ (decays w2).2 = w2)
    as (Hd & Hdw & Hdw2).
  { unfold decays. destruct (decide (ai_filter = "aiLightDecay")) as [_|_]; [|done].
    assert (∀ w0 x, ((near <- getAttr x "useNearAtten" ;;
                      if py_not near then far <- getAttr x "useFarAtten" ;; ret (py_not far)
                      else ret false) w0).2 = w0) as Hw.
    { intros w0 x. unfold bind at 1. pose proof (getAttr_world x "useNearAtten" w0) as H.
      destruct (getAttr x "useNearAtten" w0) as [[d|e'] w1]; cbn in H; subst w1; [|done].
      destruct (py_not d); [|done]. unfold bind.
      pose proof (getAttr_world x "useFarAtten" w0) as H.
      destruct (getAttr x "useFarAtten" w0) as [[d'|e'] w1]; exact H. }
    split_and!; [|apply filterM_world, Hw..].
    apply filterM_scene; [|apply Hw..].
    intros x. apply bind_scene;
      [by apply getAttr_scene|apply getAttr_world|apply getAttr_world|].
    intros near. destruct (py_not near); [|done].
    apply bind_scene; [by apply getAttr_scene|apply getAttr_world|apply getAttr_world|done]. }
  apply bind_scene; [exact Hd|exact Hdw|exact Hdw2|]. intros ds.
  by destruct (decide (_ ∧ _)).
Qed.

(** X17.  When [getUnusedLightFilters] answers [None] for the filter type,
    as it does for a type it does not know, in a scene with no filter of
    the type and when every filter of the type is in use,
    [deleteSafelyLightFilter] answers [None] and neither deletes nor
    disconnects anything: nodes, connections, attributes and selection are
    as they were. *)
Theorem deleteSafelyLightFilter_all_used self ai_filter w :
  (getUnusedLightFilters self ai_filter w).1 = Return None →
  (deleteSafelyLightFilter self ai_filter w).1 = Return None
  ∧ nodes (deleteSafelyLightFilter self ai_filter w).2 = nodes w
  ∧ aiFilters (deleteSafelyLightFilter self ai_filter w).2 = aiFilters w
  ∧ attrs (deleteSafelyLightFilter self ai_filter w).2 = attrs w
  ∧ selection (deleteSafelyLightFilter self ai_filter w).2 = selection w.
Proof.
  intros Hnone.
  assert ((getUnusedLightFilters self ai_filter (opened w)).1 = Return None) as Hnone'.
  { rewrite <- Hnone. apply getUnusedLightFilters_scene; by autorewrite with run. }
  destruct (getUnusedLightFilters_only_logs self ai_filter (opened w)) as [msgs Hw].
  unfold deleteSafelyLightFilter. rewrite wrapperUndoChunck_run.
  unfold deleteSafelyLightFilter_body.
  destruct (decide (ai_filter ∈ _)) as [_|_].
  - unfold bind.
    destruct (getUnusedLightFilters self ai_filter (opened w)) as [r w1].
    cbn [fst snd] in *. subst. unfold ret. cbn [fst snd].
    rewrite closed_nodes, closed_aiFilters, closed_attrs, closed_selection.
    cbn [nodes aiFilters attrs selection with_log]. by autorewrite with run.
  - rewrite bind_logger. unfold ret. cbn [fst snd].
    rewrite closed_nodes, closed_aiFilters, closed_attrs, closed_selection.
    cbn [nodes aiFilters attrs selection with_log]. by autorewrite with run.
Qed.

Lemma deleteSafelyLightFilter_all_used_witness :
  (getUnusedLightFilters panel "aiLightDecay" stage).1 = Return None
  ∧ (deleteSafelyLightFilter panel "aiLightDecay" stage).1 = Return None
  ∧ nodes (deleteSafelyLightFilter panel "aiLightDecay" stage).2 = nodes stage
  ∧ aiFilters (deleteSafelyLightFilter panel "aiLightDecay" stage).2 = aiFilters stage
  ∧ attrs (deleteSafelyLightFilter panel "aiLightDecay" stage).2 = attrs stage
  ∧ selection (deleteSafelyLightFilter panel "aiLightDecay" stage).2 = selection stage.
Proof.
  assert ((getUnusedLightFilters panel "aiLightDecay" stage).1 = Return None) as H
    by (vm_compute; reflexivity).
  split; [exact H|].
  exact (deleteSafelyLightFilter_all_used panel "aiLightDecay" stage H).
Defined.


(** ** The batch editor in absolute mode, twice *)

Lemma graph_bind {A B} (m : M A) (k : A → M B) w :
  graph_kept w (m w).2 → (∀ a w', graph_kept w' (k a w').2) → graph_kept w (bind m k w).2.
Proof.
  intros Hm Hk. unfold bind. destruct (m w) as [[a|e] w1]; cbn [snd] in *; [|done].
  etrans; [exact Hm|apply Hk].
Qed.

Lemma graph_with_log f w : graph_kept w (with_log f w).
Proof. by unfold graph_kept. Qed.

Lemma graph_opened w : graph_kept w (opened w).
Proof. unfold graph_kept. by autorewrite with run. Qed.

Lemma graph_closed w : graph_kept w (closed w).
Proof. unfold graph_kept. by autorewrite with run. Qed.

Lemma graph_recorded c w : graph_kept w (recorded c w).
Proof. unfold graph_kept. by autorewrite with run. Qed.

Lemma setAttr_graph n a v w : graph_kept w (setAttr n a v w).2.
Proof.
  unfold setAttr. rewrite bind_get_world. destruct (attrExists w n a); [|done].
  rewrite bind_record. unfold modify, graph_kept.
  cbn [snd nodes shapes parents hierarchy selection otherInputs otherOutputs with_attrs].
  by autorewrite with run.
Qed.

Lemma set_or_increment_graph mode n a v w : graph_kept w (set_or_increment mode n a v w).2.
Proof.
  unfold set_or_increment. rewrite bind_get_world.
  destruct (attrExists w n a); [|apply graph_with_log].
  destruct (decide (mode = "absolute")); [apply setAttr_graph|].
  destruct (decide (mode = "relative")); [|done].
  apply graph_bind; [|intros; apply setAttr_graph].
  by rewrite getAttr_world.
Qed.

Lemma onlyLightsFromSelection_graph self gs ah w :
  graph_kept w (_onlyLightsFromSelection self gs ah w).2.
Proof.
  destruct (onlyLightsFromSelection_only_logs self gs ah w) as [msgs ->].
  apply graph_with_log.
Qed.

Lemma setMultiAttributesLights_graph self mode w :
  graph_kept w (setMultiAttributesLights self mode w).2.
Proof.
  unfold setMultiAttributesLights. rewrite wrapperUndoChunck_run. cbn [snd].
  etrans; [apply graph_opened|]. etrans; [|apply graph_closed].
  generalize (opened w). clear w. intros w.
  unfold setMultiAttributesLights_body.
  destruct (decide (mode ∈ _)) as [_|_]; [|rewrite bind_logger; apply graph_with_log].
  apply graph_bind; [apply onlyLightsFromSelection_graph|].
  intros [[|l0 ls]|] w'; [done| |done].
  apply graph_bind; [|intros; rewrite bind_logger; apply graph_with_log].
  destruct (decide _) as [_|_].
  - apply (for_each_rel graph_kept). intros. apply set_or_increment_graph.
  - rewrite bind_pm_selected. apply (for_each_rel graph_kept). intros x w''.
    rewrite bind_get_world. apply graph_bind; [|intros; apply set_or_increment_graph].
    destruct (decide _); [|done]. unfold getParent. by destruct (parents w'' !! x).
Qed.

Lemma batch_targets_scene self w w2 lights targets :
  nodes w2 = nodes w → parents w2 = parents w → selection w2 = selection w →
  batch_targets self w lights targets → batch_targets self w2 lights targets.
Proof.
  intros Hn Hp Hs. unfold batch_targets.
  destruct (decide _); [done|]. rewrite Hs. intros HF. eapply Forall2_impl; [exact HF|].
  intros x t. unfold nodeType. by rewrite Hn, Hp.
Qed.

(** One run of the batch on the attribute values. *)
Lemma setMultiAttributesLights_attrs self mode w lights targets :
  mode ∈ ["absolute"; "relative"] →
  (_onlyLightsFromSelection self true false w).1 = Return (Some lights) →
  batch_targets self w lights targets →
  NoDup targets →
  (setMultiAttributesLights self mode w).1 = Return None
  ∧ ∀ n b, attrs (setMultiAttributesLights self mode w).2 !! (n, b)
           = if decide (b = comboBox_multiAttr self ∧ n ∈ targets)
             then new_value mode (doubleSpinBox_multiAttr self)
                    <$> attrs w !! (n, comboBox_multiAttr self)
             else attrs w !! (n, b).
Proof.
  intros Hmode HS Ht Hnd.
  assert ((_onlyLightsFromSelection self true false (opened w)).1 = Return (Some lights))
    as HS'.
  { rewrite <- HS. apply onlyLightsFromSelection_scene; by autorewrite with run. }
  pose proof (onlyLightsFromSelection_nonempty _ _ _ _ HS') as Hne.
  unfold setMultiAttributesLights. rewrite wrapperUndoChunck_run.
  unfold setMultiAttributesLights_body. rewrite decide_True by done.
  rewrite (bind_Return _ _ _ _ _ (onlyLightsFromSelection_Some _ _ _ _ _ HS')).
  destruct lights as [|s S]; [done|]. set (lights := s :: S) in *.
  set (w1 := with_log _ (opened w)).
  assert (nodes w1 = nodes w) as N1 by apply opened_nodes.
  assert (parents w1 = parents w) as P1 by apply opened_parents.
  assert (selection w1 = selection w) as S1 by apply opened_selection.
  destruct (setMultiAttributesLights_loop self mode w w1 lights targets Hmode N1 P1 S1 Ht Hnd)
    as (w' & R & A & L).
  cbv zeta. rewrite (bind_Return _ _ _ _ _ R), bind_logger. unfold ret.
  cbn [fst snd]. rewrite closed_attrs. cbn [attrs with_log].
  split; [done|].
  intros n b. rewrite A. unfold w1. cbn [attrs with_log]. by rewrite opened_attrs.
Qed.

(** X18.  In absolute mode the batch editor run a second time on the same
    selection changes no attribute value: with no node twice among the
    targets, the values after the second run are those after the first. *)
Theorem setMultiAttributesLights_absolute_twice self w lights targets :
  (_onlyLightsFromSelection self true false w).1 = Return (Some lights) →
  batch_targets self w lights targets →
  NoDup targets →
  let w1 := (setMultiAttributesLights self "absolute" w).2 in
  (setMultiAttributesLights self "absolute" w1).1 = Return None
  ∧ ∀ n b, attrs (setMultiAttributesLights self "absolute" w1).2 !! (n, b)
           = attrs w1 !! (n, b).
Proof.
  intros HS Ht Hnd w1.
  assert ("absolute" ∈ ["absolute"; "relative"]) as Hmode by left.
  destruct (setMultiAttributesLights_attrs self "absolute" w lights targets Hmode HS Ht Hnd)
    as [_ A1]. fold w1 in A1.
  destruct (setMultiAttributesLights_graph self "absolute" w)
    as (N & Sh & P & H & Se & _). fold w1 in N, Sh, P, H, Se.
  assert ((_onlyLightsFromSelection self true false w1).1 = Return (Some lights)) as HS1.
  { rewrite <- HS. by apply onlyLightsFromSelection_scene. }
  pose proof (batch_targets_scene self w w1 lights targets N P Se Ht) as Ht1.
  destruct (setMultiAttributesLights_attrs self "absolute" w1 lights targets Hmode HS1 Ht1 Hnd)
    as [R2 A2].
  split; [exact R2|]. intros n b. rewrite A2.
  destruct (decide (b = comboBox_multiAttr self ∧ n ∈ targets)) as [[-> Hin]|Hnot]; [|done].
  rewrite (A1 n (comboBox_multiAttr self)).
  rewrite decide_True by done. unfold new_value.
  destruct (attrs w !! (n, comboBox_multiAttr self)) as [cur|]; [|done].
  cbn [fmap option_fmap option_map].
  by destruct (decide ("absolute" = "absolute")).
Qed.

Lemma setMultiAttributesLights_absolute_twice_witness :
  ((_onlyLightsFromSelection panel true false studio_three_selected).1
   = Return (Some ["keyShape"; "fillShape"])
   ∧ batch_targets panel studio_three_selected ["keyShape"; "fillShape"]
       ["keyShape"; "fillShape"]
   ∧ NoDup ["keyShape"; "fillShape"])
  ∧ (setMultiAttributesLights panel "absolute"
       (setMultiAttributesLights panel "absolute" studio_three_selected).2).1 = Return None
  ∧ ∀ n b, attrs (setMultiAttributesLights panel "absolute"
                    (setMultiAttributesLights panel "absolute" studio_three_selected).2).2
             !! (n, b)
           = attrs (setMultiAttributesLights panel "absolute" studio_three_selected).2
               !! (n, b).
Proof.
  assert ((_onlyLightsFromSelection panel true false studio_three_selected).1
          = Return (Some ["keyShape"; "fillShape"])) as HS by (vm_compute; reflexivity).
  assert (batch_targets panel studio_three_selected ["keyShape"; "fillShape"]
            ["keyShape"; "fillShape"]) as Ht.
  { unfold batch_targets. rewrite decide_True; [done|].
    apply (bool_decide_unpack _). vm_compute. exact I. }
  assert (NoDup ["keyShape"; "fillShape"]) as Hnd
    by (apply (bool_decide_unpack _); vm_compute; exact I).
  split; [by split_and!|].
  exact (setMultiAttributesLights_absolute_twice panel studio_three_selected
           ["keyShape"; "fillShape"] ["keyShape"; "fillShape"] HS Ht Hnd).
Defined.


(** ** A decorator applied twice *)



(** ** Getting a node or creating it *)

(** X20.  [_eitherCreateGetNode] answers the name asked for, and a node of
    that name is in the scene afterwards.  When the node was there, no host
    command is issued and the scene is left as it is; so a second call in a
    row creates nothing.  When it was not, the one node made is a transform
    for the type "grp" and a node of the type asked for otherwise. *)
Theorem eitherCreateGetNode_get_or_create node_type node_name w :
  (_eitherCreateGetNode node_type node_name w).1 = Return node_name
  ∧ objExists (_eitherCreateGetNode node_type node_name w).2 node_name = true
  ∧ (if objExists w node_name
     then (_eitherCreateGetNode node_type node_name w).2 = w
     else nodes (_eitherCreateGetNode node_type node_name w).2
          = <[node_name := if decide (node_type = "grp") then "transform" else node_type]>
              (nodes w))
  ∧ _eitherCreateGetNode node_type node_name
      (_eitherCreateGetNode node_type node_name w).2
    = (Return node_name, (_eitherCreateGetNode node_type node_name w).2).
Proof.
  assert (∀ w0, objExists w0 node_name = true →
                _eitherCreateGetNode node_type node_name w0 = (Return node_name, w0)) as Hget.
  { intros w0 H. unfold _eitherCreateGetNode. by rewrite bind_get_world, H. }
  destruct (objExists w node_name) eqn:Hex.
  - rewrite (Hget w Hex). cbn [fst snd]. split; [done|]. split; [done|]. split; [done|].
    by apply Hget.
  - assert (nodes w !! node_name = None) as Hfree by by apply objExists_false.
    assert (∃ w', _eitherCreateGetNode node_type node_name w = (Return node_name, w')
                  ∧ nodes w'
                    = <[node_name := if decide (node_type = "grp") then "transform"
                                     else node_type]> (nodes w)) as (w' & R & N).
    { unfold _eitherCreateGetNode. rewrite bind_get_world, Hex.
      destruct (decide (node_type = "grp")).
      - unfold pm_group_empty. rewrite bind_get_world, (unique_name_free w _ Hfree).
        rewrite bind_record, bind_modify. unfold ret. eexists. split; [reflexivity|].
        cbn [nodes with_nodes]. by rewrite recorded_nodes.
      - unfold createNode_named. rewrite bind_get_world, (unique_name_free w _ Hfree).
        rewrite bind_record, bind_modify. unfold ret. eexists. split; [reflexivity|].
        cbn [nodes with_nodes]. by rewrite recorded_nodes. }
    rewrite R. cbn [fst snd].
    assert (objExists w' node_name = true) as Hex'.
    { apply objExists_true. rewrite N, lookup_insert_eq. by eexists. }
    split; [done|]. split; [done|]. split; [done|]. by apply Hget.
Qed.

(** ** No light in the selection *)

Lemma onlyLightsFromSelection_None self gs ah w :
  (_onlyLightsFromSelection self gs ah w).1 = Return None →
  _onlyLightsFromSelection self gs ah w
  = (Return None, with_log (λ l, l ++ [(WARNING, "No lights selected")]) w).
Proof.
  unfold _onlyLightsFromSelection. rewrite bind_get_world.
  destruct (decide _) as [_|_]; [by rewrite bind_logger|].
  destruct gs.
  - rewrite bind_ret, bind_logger. unfold ret. cbn [fst]. discriminate.
  - unfold bind at 1. rewrite (getParents_pair _ w).
    destruct (getParents _ w).1 as [ps|e]; [|discriminate].
    rewrite bind_logger. unfold ret. cbn [fst]. discriminate.
Qed.



(** X22.  [soloLights] restores before it looks at the selection: with no
    light in the selection once the old layers are gone, it answers [None]
    and makes no layer, but the layers named "displayedLights" and
    "mutedLights" have been deleted all the same; nodes and layers are
    those [restoreLights] leaves, and the warning of the classifier is
    logged after what [restoreLights] logs. *)
Theorem soloLights_nothing_selected self w :
  (_onlyLightsFromSelection self false (hierarchy_isChecked self)
     (restoreLights self (opened w)).2).1 = Return None →
  (soloLights self w).1 = Return None
  ∧ nodes (soloLights self w).2 = nodes (restoreLights self (opened w)).2
  ∧ layers (soloLights self w).2 = layers (restoreLights self (opened w)).2
  ∧ nodes (soloLights self w).2 !! displayed_layer_name = None
  ∧ nodes (soloLights self w).2 !! muted_layer_name = None
  ∧ log (soloLights self w).2
    = log (restoreLights self (opened w)).2 ++ [(WARNING, "No lights selected")].
Proof.
  intros HS.
  destruct (restoreLights_names_free self (opened w)) as [Hd Hm].
  unfold soloLights. rewrite wrapperUndoChunck_run, wrapperSelected_run.
  unfold soloLights_body.
  rewrite (bind_Return _ _ _ _ _ (restoreLights_run self (opened w))).
  rewrite restoreLights_run in HS, Hd, Hm |- *. cbn [snd] in HS, Hd, Hm |- *.
  set (w1 := closed (restored self (opened (opened w)))) in *.
  rewrite (bind_Return _ _ _ _ _ (onlyLightsFromSelection_None _ _ _ _ HS)).
  unfold ret. cbn [fst snd].
  rewrite closed_nodes, closed_layers, closed_log.
  cbn [nodes layers log with_selection].
  rewrite recorded_nodes, recorded_layers, recorded_log.
  cbn [nodes layers log with_log]. by split_and!.
Qed.

Lemma soloLights_nothing_selected_witness :
  (_onlyLightsFromSelection panel false (hierarchy_isChecked panel)
     (restoreLights panel (opened (with_selection ["cube"] studio_soloed))).2).1
  = Return None
  ∧ (soloLights panel (with_selection ["cube"] studio_soloed)).1 = Return None
  ∧ nodes (soloLights panel (with_selection ["cube"] studio_soloed)).2
    = nodes (restoreLights panel (opened (with_selection ["cube"] studio_soloed))).2
  ∧ layers (soloLights panel (with_selection ["cube"] studio_soloed)).2
    = layers (restoreLights panel (opened (with_selection ["cube"] studio_soloed))).2
  ∧ nodes (soloLights panel (with_selection ["cube"] studio_soloed)).2
      !! displayed_layer_name = None
  ∧ nodes (soloLights panel (with_selection ["cube"] studio_soloed)).2
      !! muted_layer_name = None
  ∧ log (soloLights panel (with_selection ["cube"] studio_soloed)).2
    = log (restoreLights panel (opened (with_selection ["cube"] studio_soloed))).2
      ++ [(WARNING, "No lights selected")].
Proof.
  assert ((_onlyLightsFromSelection panel false (hierarchy_isChecked panel)
             (restoreLights panel (opened (with_selection ["cube"] studio_soloed))).2).1
          = Return None) as HS by (vm_compute; reflexivity).
  split; [exact HS|].
  exact (soloLights_nothing_selected panel (with_selection ["cube"] studio_soloed) HS).
Defined.


(** ** Deleting the unused filters of a scene *)

Lemma filter_all {A} (P : A → Prop) `{∀ x, Decision (P x)} (l : list A) :
  Forall P l → filter P l = l.
Proof.
  induction 1 as [|x l Hx _ IH]; [done|]. by rewrite filter_cons, decide_True, IH.
Qed.

Lemma delete_NoDup_filter (fs : list string) k f :
  NoDup fs → fs !! k = Some f → delete k fs = filter (λ x, x ≠ f) fs.
Proof.
  revert k. induction fs as [|x fs IH]; intros k Hnd Hk; [done|].
  apply NoDup_cons in Hnd as [Hx Hnd]. destruct k as [|k]; cbn in Hk.
  - injection Hk as ->. rewrite filter_cons, decide_False by (intros H; by apply H).
    cbn. symmetry. apply filter_all. apply Forall_forall. intros y Hy ->. done.
  - assert (x ≠ f) as Hxf by (intros ->; apply Hx; by eapply list_elem_of_lookup_2).
    rewrite filter_cons, decide_True by done. cbn. f_equal. by apply IH.
Qed.

Lemma detach_filter_run f light k (fs : list string) w :
  filters_are w light fs → fs !! k = Some f →
  ∃ w', detach_filter f (light, k) w = (Return tt, w')
        ∧ filters_are w' light (delete k fs)
        ∧ (∀ l j, l ≠ light → aiFilters w' !! (l, j) = aiFilters w !! (l, j))
        ∧ nodes w' = nodes w ∧ parents w' = parents w ∧ hierarchy w' = hierarchy w.
Proof.
  intros Hdense Hk. unfold detach_filter. rewrite bind_get_world. cbn [fst snd].
  rewrite (num_filter_dense w light fs Hdense).
  destruct (shift_filters_dense fs k f light (length fs) Hk 0 w)
    as (w' & R & A & F & N & P & H); [lia| |].
  { intros j. rewrite Hdense. unfold shifting. by rewrite decide_True by lia. }
  exists w'. split; [exact R|]. split; [|by split_and!].
  intros j. rewrite A. apply shifting_done. by eapply lookup_lt_Some.
Qed.

Lemma elem_of_destinationFromSource w f l k :
  (l, k) ∈ destinationFromSource w f ↔ aiFilters w !! (l, k) = Some f.
Proof.
  unfold destinationFromSource. rewrite list_elem_of_fmap. split.
  - intros ([[l' k'] v] & E & H). cbn in E. injection E as <- <-.
    apply elem_of_map_to_list, map_lookup_filter_Some in H as [H Hv]. cbn in Hv. by subst.
  - intros H. exists ((l, k), f). split; [done|].
    by apply elem_of_map_to_list, map_lookup_filter_Some.
Qed.

Lemma destinationFromSource_lights w f F :
  filter_runs w F → (∀ l, NoDup (F l)) → NoDup (destinationFromSource w f).*1.
Proof.
  intros Hruns Hnd. apply NoDup_fmap_2_strong; [|apply NoDup_fst_map_to_list].
  intros [l1 k1] [l2 k2] H1 H2 E. cbn in E. subst l2.
  apply elem_of_destinationFromSource in H1, H2. rewrite Hruns in H1, H2.
  f_equal. by eapply NoDup_lookup.
Qed.

Lemma detach_plugs f (plugs : list (string * nat)) :
  ∀ w F,
    filter_runs w F → (∀ l, NoDup (F l)) → NoDup plugs.*1 →
    (∀ l k, (l, k) ∈ plugs → F l !! k = Some f) →
    ∃ w', for_each plugs (detach_filter f) w = (Return tt, w')
          ∧ filter_runs w' (λ l, if decide (l ∈ plugs.*1)
                                 then filter (λ x, x ≠ f) (F l) else F l)
          ∧ nodes w' = nodes w ∧ parents w' = parents w ∧ hierarchy w' = hierarchy w.
Proof.
  induction plugs as [|[l0 k0] plugs IH]; intros w F Hruns Hnd Hlights Hplugs.
  - exists w. split; [done|]. split; [|done]. intros l j.
    rewrite decide_False by apply not_elem_of_nil. apply Hruns.
  - cbn [fmap list_fmap fst] in Hlights. apply NoDup_cons in Hlights as [Hl0 Hlights].
    assert (F l0 !! k0 = Some f) as Hk0 by (apply Hplugs; by left).
    destruct (detach_filter_run f l0 k0 (F l0) w) as (w1 & R1 & A1 & O1 & N1 & P1 & H1);
      [intros j; apply Hruns|done|].
    rewrite (delete_NoDup_filter _ _ _ (Hnd l0) Hk0) in A1.
    set (F1 := λ l, if decide (l = l0) then filter (λ x, x ≠ f) (F l0) else F l).
    destruct (IH w1 F1) as (w' & R & A & N & P & H).
    + intros l j. unfold F1. destruct (decide (l = l0)) as [->|Hl]; [apply A1|].
      rewrite O1 by done. apply Hruns.
    + intros l. unfold F1. destruct (decide (l = l0)); [by apply NoDup_filter|done].
    + done.
    + intros l k Hlk. unfold F1. rewrite decide_False; [apply Hplugs; by right|].
      intros ->. apply Hl0. apply list_elem_of_fmap. by exists (l0, k).
    + exists w'. split; [cbn [for_each]; by rewrite (bind_Return _ _ _ _ _ R1)|].
      split; [|by rewrite N, P, H]. intros l j. rewrite A. unfold F1.
      cbn [fmap list_fmap fst]. destruct (decide (l = l0)) as [->|Hl].
      * rewrite decide_False by done. by rewrite decide_True by by left.
      * destruct (decide (l ∈ plugs.*1)) as [Hin|Hin].
        -- by rewrite decide_True by by right.
        -- rewrite decide_False; [done|]. intros Hc. apply elem_of_cons in Hc as [?|?]; done.
Qed.

Lemma detach_nulls (N : list string) :
  ∀ w F,
    filter_runs w F → (∀ l, NoDup (F l)) →
    ∃ w', for_each N (λ lightfilter,
            w <- get_world ;;
            let lights := destinationFromSource w lightfilter in
            for_each lights (detach_filter lightfilter)) w
          = (Return tt, w')
          ∧ filter_runs w' (λ l, filter (λ x, x ∉ N) (F l))
          ∧ nodes w' = nodes w ∧ parents w' = parents w ∧ hierarchy w' = hierarchy w.
Proof.
  induction N as [|f N IH]; intros w F Hruns Hnd.
  - exists w. split; [done|]. split; [|done]. intros l j. rewrite Hruns.
    f_equal. symmetry. apply filter_all, Forall_forall. intros x _. apply not_elem_of_nil.
  - destruct (detach_plugs f (destinationFromSource w f) w F Hruns Hnd)
      as (w1 & R1 & A1 & N1 & P1 & H1).
    { by eapply destinationFromSource_lights. }
    { intros l k H. apply elem_of_destinationFromSource in H. by rewrite <- Hruns. }
    set (F1 := λ l, filter (λ x, x ≠ f) (F l)).
    destruct (IH w1 F1) as (w' & R & A & N' & P & H).
    + intros l j. rewrite A1. destruct (decide (l ∈ _)) as [Hin|Hin]; [done|].
      unfold F1. f_equal. symmetry. apply filter_all, Forall_forall. intros x Hx ->.
      apply Hin. apply list_elem_of_lookup in Hx as [k Hk].
      apply list_elem_of_fmap. exists (l, k). split; [done|].
      apply elem_of_destinationFromSource. by rewrite Hruns.
    + intros l. by apply NoDup_filter.
    + exists w'. split.
      { cbn [for_each]. rewrite bind_assoc, bind_get_world. cbv beta zeta.
        by rewrite (bind_Return _ _ _ _ _ R1). }
      split; [|by rewrite N', P, H]. intros l j. rewrite A. unfold F1.
      rewrite list_filter_filter. f_equal. apply list_filter_iff.
      intros x. rewrite not_elem_of_cons. tauto.
Qed.

Lemma deleted_dag n w :
  objExists w n = true →
  parents (deleted n w) = filter (λ kv, kv.1 ∉ n :: getChildren_ad w n) (parents w)
  ∧ hierarchy (deleted n w) = filter (λ kv, kv.1 ∉ n :: getChildren_ad w n) (hierarchy w).
Proof.
  intros H. unfold deleted, pm_delete. run. rewrite H. run. simpl.
  by rewrite recorded_parents, recorded_hierarchy.
Qed.

Lemma elem_of_gone_with w fs x :
  x ∈ gone_with w fs ↔ x ∈ fs ∨ ∃ f, f ∈ fs ∧ parents w !! f = Some x.
Proof.
  unfold gone_with. rewrite elem_of_app, list_elem_of_omap. done.
Qed.

Lemma elem_of_gone_with_snoc w fs f x :
  x ∈ gone_with w (fs ++ [f])
  ↔ x ∈ gone_with w fs ∨ x = f ∨ parents w !! f = Some x.
Proof.
  rewrite !elem_of_gone_with. setoid_rewrite elem_of_app.
  setoid_rewrite list_elem_of_singleton. split.
  - intros [[?|?]|(f' & [?| ->] & ?)]; eauto 6.
  - intros [[?|(f' & ? & ?)]|[ ->|?]]; eauto 6.
Qed.

Lemma lookup_filter_notin {V} (m : gmap string V) (doomed : list string) x :
  filter (λ kv : string * V, kv.1 ∉ doomed) m !! x
  = if decide (x ∈ doomed) then None else m !! x.
Proof.
  destruct (decide (x ∈ doomed)) as [Hin|Hin].
  - apply map_lookup_filter_None. right. intros v _ Hn. by apply Hn.
  - destruct (m !! x) as [v|] eqn:E.
    + by apply map_lookup_filter_Some.
    + apply map_lookup_filter_None. by left.
Qed.

Lemma delete_filters_loop self ai_filter w1 (todo : list string) :
  ai_filter ≠ "transform" → ai_filter ∉ lgt_types self →
  Forall (λ f, nodes w1 !! f = Some ai_filter ∧ under_transform w1 f) todo →
  (∀ l j x, aiFilters w1 !! (l, j) = Some x →
            nodeType w1 l ∈ lgt_types self ∧ nodeType w1 x ≠ "transform" ∧ x ∉ todo) →
  ∀ rest done_ w,
    done_ ++ rest = todo → after_deleting w1 done_ w →
    ∃ w', for_each rest delete_filter w = (Return tt, w') ∧ after_deleting w1 todo w'.
Proof.
  intros Hnt Hnl Hrig Hconn.
  induction rest as [|f rest IH]; intros done_ w Hsplit Hinv.
  - rewrite app_nil_r in Hsplit. subst done_. by exists w.
  - assert (f ∈ todo) as Hf by (subst todo; apply elem_of_app; right; by left).
    assert (∀ g, g ∈ done_ → g ∈ todo) as Hdone
      by (intros g Hg; subst todo; apply elem_of_app; by left).
    pose proof (proj1 (Forall_forall _ _) Hrig) as Hrig'.
    destruct (Hrig' f Hf) as (Hty & t & Hp & Ht & Hh).
    destruct Hinv as (A & N & P & H).
    assert (done_ ++ [f] ++ rest = todo) as Hsplit' by done.
    rewrite app_assoc in Hsplit'.
    cbn [for_each].
    destruct (decide (f ∈ gone_with w1 done_)) as [Hgone|Hlive].
    + (* the filter went with an earlier one *)
      assert (f ∈ done_) as Hfd.
      { apply elem_of_gone_with in Hgone as [?|(g & Hg & Hpg)]; [done|].
        destruct (Hrig' g (Hdone g Hg)) as (_ & t' & Hp' & Ht' & _).
        rewrite Hpg in Hp'. injection Hp' as <-. congruence. }
      assert (∀ x, x ∈ gone_with w1 (done_ ++ [f]) ↔ x ∈ gone_with w1 done_) as Hsame.
      { intros x. rewrite elem_of_gone_with_snoc. split; [|by left].
        intros [?|[ ->|Hx]]; [done|done|]. apply elem_of_gone_with. right. by exists f. }
      assert (delete_filter f w = (Return tt, w)) as R.
      { unfold delete_filter. rewrite bind_get_world.
        assert (objExists w f = false) as ->; [|done].
        apply objExists_false. rewrite N. by rewrite decide_True. }
      rewrite (bind_Return _ _ _ _ _ R). apply (IH (done_ ++ [f])); [done|].
      unfold after_deleting. split; [done|].
      split_and!; intros x; rewrite ?N, ?P, ?H; apply decide_ext; by rewrite Hsame.
    + (* the filter is deleted through its transform *)
      assert (t ∉ gone_with w1 done_) as Htlive.
      { intros Hc. apply elem_of_gone_with in Hc as [Hc|(g & Hg & Hpg)].
        - destruct (Hrig' t (Hdone t Hc)) as (Hty' & _). congruence.
        - destruct (Hrig' g (Hdone g Hg)) as (_ & t' & Hp' & _ & Hh').
          rewrite Hpg in Hp'. injection Hp' as <-. rewrite Hh in Hh'. injection Hh' as <-.
          apply Hlive. apply elem_of_gone_with. by left. }
      assert (objExists w f = true) as Hexf.
      { apply objExists_true. rewrite N, decide_False by done. by eexists. }
      assert (objExists w t = true) as Hext.
      { apply objExists_true. rewrite N, decide_False by done. by eexists. }
      assert (parents w !! f = Some t) as Hpw by (by rewrite P, decide_False).
      assert (getChildren_ad w t = [f]) as Hch.
      { unfold getChildren_ad. by rewrite H, decide_False, Hh. }
      assert (delete_filter f w = (Return tt, deleted t w)) as R.
      { unfold delete_filter. rewrite bind_get_world, Hexf, Hpw. by apply pm_delete_run. }
      rewrite (bind_Return _ _ _ _ _ R). apply (IH (done_ ++ [f])); [done|].
      destruct (deleted_dag t w Hext) as [Pd Hd].
      unfold after_deleting. rewrite (deleted_aiFilters t w Hext), (deleted_nodes t w Hext).
      rewrite Pd, Hd, Hch. split.
      { rewrite <- A. apply map_filter_id. intros [l j] x Hx. cbn [fst snd].
        rewrite A in Hx. destruct (Hconn l j x Hx) as (Hl & Hxt & Hxn).
        assert (l ≠ t) as Hlt.
        { intros ->. unfold nodeType in Hl. rewrite Ht in Hl. cbn in Hl.
          by apply transform_not_light in Hl. }
        assert (l ≠ f) as Hlf.
        { intros ->. unfold nodeType in Hl. rewrite Hty in Hl. done. }
        assert (x ≠ t) as Hxt'.
        { intros ->. unfold nodeType in Hxt. rewrite Ht in Hxt. done. }
        assert (x ≠ f) as Hxf by (intros ->; done).
        rewrite !not_elem_of_cons. split_and!; try done; apply not_elem_of_nil. }
      assert (∀ x, x ∈ gone_with w1 (done_ ++ [f])
                   ↔ x ∈ [t; f] ∨ x ∈ gone_with w1 done_) as Hmore.
      { intros x. rewrite elem_of_gone_with_snoc, !elem_of_cons, elem_of_nil, Hp.
        split.
        - intros [?|[ ->|Hx]]; [by right|left; by right; left|].
          injection Hx as ->. left. by left.
        - intros [[ ->|[ ->|[]]]|?]; [right; by right|right; by left|by left]. }
      split_and!; intros x; rewrite lookup_filter_notin, ?N, ?P, ?H.
      * destruct (decide (x ∈ [t; f])) as [Hx|Hx].
        -- rewrite decide_True; [done|]. apply Hmore. by left.
        -- apply decide_ext. rewrite Hmore. tauto.
      * destruct (decide (x ∈ [t; f])) as [Hx|Hx].
        -- rewrite decide_True; [done|]. apply Hmore. by left.
        -- apply decide_ext. rewrite Hmore. tauto.
      * destruct (decide (x ∈ [t; f])) as [Hx|Hx].
        -- rewrite decide_True; [done|]. apply Hmore. by left.
        -- apply decide_ext. rewrite Hmore. tauto.
Qed.

Lemma filterM_elem (p : string → M bool) l :
  ∀ w r, (filterM p l w).1 = Return r → ∀ x, x ∈ r → x ∈ l.
Proof.
  induction l as [|y l IH]; intros w r H x Hx.
  - cbn in H. injection H as <-. done.
  - cbn [filterM] in H. unfold bind at 1 in H.
    destruct (p y w) as [[b|e] w1]; [|done].
    unfold bind at 1 in H. destruct (filterM p l w1) as [[r'|e] w2] eqn:E; [|done].
    cbn in H. injection H as <-.
    assert (x ∈ r' → x ∈ y :: l) as Hr'.
    { intros Hx'. right. eapply (IH w1 r'); [by rewrite E|done]. }
    destruct b; [|by apply Hr'].
    apply elem_of_cons in Hx as [->|Hx]; [by left|by apply Hr'].
Qed.

Lemma getUnusedLightFilters_Some self ai_filter w d :
  (getUnusedLightFilters self ai_filter w).1 = Return (Some d) →
  ai_filter ∈ ["aiLightDecay"; "aiLightBlocker"]
  ∧ ∃ N, d = <["disconnected" := PyList (disconnected_filters w ai_filter)]>
               (<["null" := PyList N]> (<["type" := PyStr ai_filter]> ∅))
         ∧ ∀ x, x ∈ N → x ∈ ls w ai_filter ∧ outputs w x ≠ [].
Proof.
  unfold getUnusedLightFilters.
  destruct (decide (ai_filter ∈ _)) as [Hf|_]; [|by rewrite bind_logger].
  intros H. split; [done|]. revert H. rewrite bind_get_world.
  destruct (decide (ls w ai_filter = [])) as [|_]; [by rewrite bind_logger|].
  set (connected := filter (λ lightfilter, outputs w lightfilter ≠ []) (ls w ai_filter)).
  set (blockers := if decide (ai_filter = "aiLightBlocker") then _ else _).
  unfold bind at 1. destruct (blockers w) as [[bs|e] w1] eqn:Eb; [|done].
  set (decays := if decide (ai_filter = "aiLightDecay") then _ else _).
  unfold bind at 1. destruct (decays w1) as [[ds|e] w2] eqn:Ed; [|done].
  destruct (decide (_ ∧ _)) as [_|_]; [by rewrite bind_logger|].
  unfold ret. cbn [fst]. intros H. injection H as <-.
  exists (bs ++ ds). split; [done|].
  assert (∀ x, x ∈ bs → x ∈ connected) as Hbs.
  { unfold blockers in Eb. destruct (decide (ai_filter = "aiLightBlocker")).
    - eapply filterM_elem. by rewrite Eb.
    - injection Eb as <- _. intros x Hx. by apply elem_of_nil in Hx. }
  assert (∀ x, x ∈ ds → x ∈ connected) as Hds.
  { unfold decays in Ed. destruct (decide (ai_filter = "aiLightDecay")).
    - eapply filterM_elem. by rewrite Ed.
    - injection Ed as <- _. intros x Hx. by apply elem_of_nil in Hx. }
  intros x Hx. apply elem_of_app in Hx as [Hx|Hx]; [apply Hbs in Hx|apply Hds in Hx];
    unfold connected in Hx; apply list_elem_of_filter in Hx; tauto.
Qed.

Lemma source_has_outputs w l k x : aiFilters w !! (l, k) = Some x → outputs w x ≠ [].
Proof.
  intros H Hout. unfold outputs in Hout. apply app_eq_nil in Hout as [Hout _].
  apply fmap_nil_inv, fmap_nil_inv in Hout.
  assert (((l, k), x) ∈ map_to_list (filter (λ kv, kv.2 = x) (aiFilters w))) as Hin
    by (by apply elem_of_map_to_list, map_lookup_filter_Some).
  rewrite Hout in Hin. by apply elem_of_nil in Hin.
Qed.

Lemma filter_type_not_light self ai_filter :
  ai_filter ∈ ["aiLightDecay"; "aiLightBlocker"] →
  ai_filter ≠ "transform" ∧ ai_filter ∉ lgt_types self.
Proof.
  intros H. unfold lgt_types. apply elem_of_cons in H as [->|H].
  - split; [done|]. destruct (mtoa_loaded self); compute_done.
  - apply list_elem_of_singleton in H as ->.
    split; [done|]. destruct (mtoa_loaded self); compute_done.
Qed.

Lemma deleteSafelyLightFilter_body_keeps_used self ai_filter w D N F :
  (getUnusedLightFilters self ai_filter w).1
  = Return (Some (<["disconnected" := PyList D]>
                  (<["null" := PyList N]> (<["type" := PyStr ai_filter]> ∅)))) →
  filter_runs w F → (∀ l, NoDup (F l)) →
  (∀ l, F l ≠ [] → nodeType w l ∈ lgt_types self) →
  (∀ l x, x ∈ F l → nodeType w x ≠ "transform") →
  Forall (under_transform w) (D ++ N) →
  ∃ w', deleteSafelyLightFilter_body self ai_filter w = (Return (Some (D ++ N)), w')
        ∧ filter_runs w' (λ l, filter (λ x, x ∉ N) (F l))
        ∧ ∀ x, nodes w' !! x = if decide (x ∈ gone_with w (D ++ N)) then None
                               else nodes w !! x.
Proof.
  intros HU Hruns Hnd Hlights Hsources Hrig.
  destruct (getUnusedLightFilters_Some _ _ _ _ HU) as (Hf & N' & Hd & HN').
  assert (D = disconnected_filters w ai_filter ∧ N = N') as [HD <-].
  { pose proof (f_equal (λ m : gmap string pyval, m !! "disconnected") Hd) as H1.
    pose proof (f_equal (λ m : gmap string pyval, m !! "null") Hd) as H2.
    cbv beta in H1, H2. rewrite !lookup_insert_eq in H1.
    rewrite !(lookup_insert_ne _ "disconnected" "null") in H2 by done.
    rewrite !lookup_insert_eq in H2. by simplify_eq. }
  clear Hd.
  destruct (filter_type_not_light self ai_filter Hf) as [Hnt Hnl].
  destruct (getUnusedLightFilters_only_logs self ai_filter w) as [msgs Hw].
  remember (<["disconnected" := PyList D]>
              (<["null" := PyList N]> (<["type" := PyStr ai_filter]> ∅))) as d eqn:Ed.
  assert (getUnusedLightFilters self ai_filter w
          = (Return (Some d), with_log (λ l, l ++ msgs) w)) as RU.
  { rewrite <- Hw, <- HU. by destruct (getUnusedLightFilters self ai_filter w). }
  assert (dict_list d "null" = ret N) as Hnull.
  { unfold dict_list. rewrite Ed, lookup_insert_ne by done. by rewrite lookup_insert_eq. }
  assert (dict_list d "disconnected" = ret D) as Hdisc.
  { unfold dict_list. by rewrite Ed, lookup_insert_eq. }
  unfold deleteSafelyLightFilter_body. rewrite decide_True by done.
  rewrite (bind_Return _ _ _ _ _ RU). cbv beta iota. rewrite Hnull, bind_ret.
  set (w2 := with_log _ w).
  destruct (detach_nulls N w2 F) as (w3 & R3 & A3 & N3 & P3 & H3); [exact Hruns|exact Hnd|].
  rewrite (bind_Return _ _ _ _ _ R3). rewrite Hdisc, !bind_ret.
  cbv zeta.
  assert (nodes w3 = nodes w ∧ parents w3 = parents w ∧ hierarchy w3 = hierarchy w)
    as (N3' & P3' & H3') by (by rewrite N3, P3, H3).
  assert (∀ f, f ∈ D ++ N → nodes w !! f = Some ai_filter) as Htype.
  { intros f Hfin. apply elem_of_ls. apply elem_of_app in Hfin as [Hfin|Hfin].
    - rewrite HD in Hfin. unfold disconnected_filters in Hfin.
      apply list_elem_of_filter in Hfin. tauto.
    - by apply HN'. }
  destruct (delete_filters_loop self ai_filter w3 (D ++ N) Hnt Hnl) with
    (rest := D ++ N) (done_ := @nil string) (w := w3) as (w4 & R4 & A4 & N4 & _).
  - apply Forall_forall. intros f Hfin. split; [rewrite N3'; by apply Htype|].
    destruct (proj1 (Forall_forall _ _) Hrig f Hfin) as (t & Hp & Ht & Hh).
    exists t. by rewrite P3', N3', H3'.
  - intros l j x Hx. rewrite A3 in Hx. apply list_elem_of_lookup_2 in Hx.
    apply list_elem_of_filter in Hx as [HxN Hx]. unfold nodeType. rewrite N3'.
    split_and!.
    + apply Hlights. intros E. rewrite E in Hx. by apply elem_of_nil in Hx.
    + by eapply Hsources.
    + intros Hc. apply elem_of_app in Hc as [Hc|Hc]; [|done].
      rewrite HD in Hc. unfold disconnected_filters in Hc.
      apply list_elem_of_filter in Hc as [Hout _].
      apply list_elem_of_lookup in Hx as [k Hk]. rewrite <- Hruns in Hk.
      by apply source_has_outputs in Hk.
  - done.
  - unfold after_deleting. split; [done|].
    split_and!; intros x; rewrite decide_False; try done;
      unfold gone_with; cbn; apply not_elem_of_nil.
  - rewrite (bind_Return _ _ _ _ _ R4), bind_logger. unfold ret.
    eexists. split; [reflexivity|]. split.
    + intros l j. cbn [aiFilters with_log]. rewrite A4. apply A3.
    + intros x. cbn [nodes with_log]. rewrite N4, N3'.
      apply decide_ext. unfold gone_with. rewrite P3'. done.
Qed.

(** X23.  [deleteSafelyLightFilter] on a scene where the filters of every
    light are a run from index 0 with no gap and no filter twice, where
    connections into [aiFilters] go from nodes that are not transforms into
    lights, and where every filter to delete sits alone under a transform:
    with [D] the disconnected and [N] the null filters that
    [getUnusedLightFilters] answers, the call answers [None]; every light
    keeps its filters that are not null, in their order and from index 0 on
    with no gap; and the nodes that are gone are the filters of [D] and
    [N] and their transforms, nothing else. *)
Theorem deleteSafelyLightFilter_keeps_used self ai_filter w D N F :
  (getUnusedLightFilters self ai_filter w).1
  = Return (Some (<["disconnected" := PyList D]>
                  (<["null" := PyList N]> (<["type" := PyStr ai_filter]> ∅)))) →
  filter_runs w F → (∀ l, NoDup (F l)) →
  (∀ l, F l ≠ [] → nodeType w l ∈ lgt_types self) →
  (∀ l x, x ∈ F l → nodeType w x ≠ "transform") →
  Forall (under_transform w) (D ++ N) →
  (deleteSafelyLightFilter self ai_filter w).1 = Return None
  ∧ filter_runs (deleteSafelyLightFilter self ai_filter w).2
      (λ l, filter (λ x, x ∉ N) (F l))
  ∧ ∀ x, nodes (deleteSafelyLightFilter self ai_filter w).2 !! x
         = if decide (x ∈ gone_with w (D ++ N)) then None else nodes w !! x.
Proof.
  intros HU Hruns Hnd Hlights Hsources Hrig.
  destruct (deleteSafelyLightFilter_body_keeps_used self ai_filter (opened w) D N F)
    as (w' & R & A & Nd).
  - rewrite <- HU. apply getUnusedLightFilters_scene; by autorewrite with run.
  - intros l j. rewrite opened_aiFilters. apply Hruns.
  - done.
  - intros l Hl. unfold nodeType. rewrite opened_nodes. by apply Hlights.
  - intros l x Hx. unfold nodeType. rewrite opened_nodes. by eapply Hsources.
  - eapply Forall_impl; [exact Hrig|]. intros f (t & Hp & Ht & Hh).
    exists t. by rewrite opened_parents, opened_nodes, opened_hierarchy.
  - unfold deleteSafelyLightFilter. rewrite wrapperUndoChunck_run, R. cbn [fst snd].
    split; [done|]. split.
    + intros l j. rewrite closed_aiFilters. apply A.
    + intros x. rewrite closed_nodes, Nd, opened_nodes. apply decide_ext.
      unfold gone_with. by rewrite opened_parents.
Qed.



Lemma deleteSafelyLightFilter_keeps_used_witness :
  ((getUnusedLightFilters panel "aiLightBlocker" stage).1
   = Return (Some (<["disconnected" := PyList ["blkCShape"]]>
                   (<["null" := PyList ["blkAShape"; "blkDShape"]]>
                    (<["type" := PyStr "aiLightBlocker"]> ∅))))
   ∧ filter_runs stage stage_filters
   ∧ (∀ l, NoDup (stage_filters l))
   ∧ (∀ l, stage_filters l ≠ [] → nodeType stage l ∈ lgt_types panel)
   ∧ (∀ l x, x ∈ stage_filters l → nodeType stage x ≠ "transform")
   ∧ Forall (under_transform stage) (["blkCShape"] ++ ["blkAShape"; "blkDShape"]))
  ∧ (deleteSafelyLightFilter panel "aiLightBlocker" stage).1 = Return None
  ∧ filter_runs (deleteSafelyLightFilter panel "aiLightBlocker" stage).2
      (λ l, filter (λ x, x ∉ ["blkAShape"; "blkDShape"]) (stage_filters l))
  ∧ ∀ x, nodes (deleteSafelyLightFilter panel "aiLightBlocker" stage).2 !! x
         = if decide (x ∈ gone_with stage (["blkCShape"] ++ ["blkAShape"; "blkDShape"]))
           then None else nodes stage !! x.
Proof.
  assert ((getUnusedLightFilters panel "aiLightBlocker" stage).1
          = Return (Some (<["disconnected" := PyList ["blkCShape"]]>
                          (<["null" := PyList ["blkAShape"; "blkDShape"]]>
                           (<["type" := PyStr "aiLightBlocker"]> ∅))))) as HU
    by (vm_compute; reflexivity).
  assert (filter_runs stage stage_filters) as Hruns.
  { intros l j. destruct (aiFilters stage !! (l, j)) as [v|] eqn:E.
    - apply elem_of_map_to_list in E.
      set (m := map_to_list (aiFilters stage)) in E. vm_compute in m. subst m.
      repeat (apply elem_of_cons in E as [E|E]; [injection E as -> -> ->; reflexivity|]).
      apply not_elem_of_nil in E. destruct E.
    - unfold stage_filters. symmetry.
      destruct (decide (l = "keyShape")) as [->|_].
      + destruct j as [|[|[|j]]]; [vm_compute in E; discriminate..|done].
      + destruct (decide (l = "fillShape")) as [->|_]; [|done].
        destruct j as [|j]; [vm_compute in E; discriminate|done]. }
  assert (∀ l, NoDup (stage_filters l)) as Hnd.
  { intros l. unfold stage_filters.
    destruct (decide (l = "keyShape")); [apply (bool_decide_unpack _); vm_compute; exact I|].
    destruct (decide (l = "fillShape")); [apply (bool_decide_unpack _); vm_compute; exact I|].
    constructor. }
  assert (∀ l, stage_filters l ≠ [] → nodeType stage l ∈ lgt_types panel) as Hlights.
  { intros l. unfold stage_filters.
    destruct (decide (l = "keyShape")) as [->|_];
      [intros _; apply (bool_decide_unpack _); vm_compute; exact I|].
    destruct (decide (l = "fillShape")) as [->|_];
      [intros _; apply (bool_decide_unpack _); vm_compute; exact I|].
    intros H. destruct H. reflexivity. }
  assert (∀ l x, x ∈ stage_filters l → nodeType stage x ≠ "transform") as Hsources.
  { intros l x. unfold stage_filters.
    destruct (decide (l = "keyShape")) as [_|_].
    - intros Hx. repeat (apply elem_of_cons in Hx as [->|Hx]; [vm_compute; discriminate|]).
      apply not_elem_of_nil in Hx. destruct Hx.
    - destruct (decide (l = "fillShape")) as [_|_].
      + intros Hx. repeat (apply elem_of_cons in Hx as [->|Hx]; [vm_compute; discriminate|]).
        apply not_elem_of_nil in Hx. destruct Hx.
      + intros Hx. apply not_elem_of_nil in Hx. destruct Hx. }
  assert (Forall (under_transform stage) (["blkCShape"] ++ ["blkAShape"; "blkDShape"]))
    as Hrig.
  { repeat constructor.
    - exists "blkC". split_and!; vm_compute; reflexivity.
    - exists "blkA". split_and!; vm_compute; reflexivity.
    - exists "blkD". split_and!; vm_compute; reflexivity. }
  split; [by split_and!|].
  exact (deleteSafelyLightFilter_keeps_used panel "aiLightBlocker" stage
           ["blkCShape"] ["blkAShape"; "blkDShape"] stage_filters
           HU Hruns Hnd Hlights Hsources Hrig).
Defined.

Example delete_unused_blockers_keeps_used :
  let w' := (deleteSafelyLightFilter panel "aiLightBlocker" stage).2 in
  map_to_list (aiFilters w') = [(("keyShape", 0), "blkBShape")]
  ∧ nodes w' !! "blkBShape" = Some "aiLightBlocker"
  ∧ nodes w' !! "blkAShape" = None ∧ nodes w' !! "blkA" = None.
Proof. cbv zeta. split_and!; vm_compute; reflexivity. Qed.
